(** * File processing system: a shallow embedding of [file_processor.py]

    The development follows the layout of the Python module:

    - Python values the program manipulates: [str] (with [str.upper]),
      [pathlib.Path] (with [name], [suffix], [with_suffix], [/]) and the
      documents [json.dump] / [json.load] exchange with the metadata files;
    - the operating system the program talks to: a tree of files and
      directories with permissions, the clock, and the calls the program
      makes ([open], [Path.touch], [Path.mkdir], [Path.rename],
      [Path.unlink], [Path.exists]), each of which either returns or raises;
    - the program: [Config], [_touch], the methods of [FileProcessor],
      [FileWatcher.on_created] and [FileProcessingSystem];
    - the properties of the per-file state machine, of the worker loop and
      of the coordinator.

    Strings are sequences of 8-bit characters.  The model agrees with
    Python on text made of ASCII code points; [print], [logging] and
    [time.sleep] change neither the file system nor the control flow and
    are left out. *)

From Stdlib Require Import String Ascii Bool Arith Lia.
From stdpp Require Import base option list gmap strings pretty.

Open Scope string_scope.
Open Scope list_scope.

(** ** Python [str] *)

Module Str.

(** Code point of a character. *)
Definition ord (c : ascii) : nat := nat_of_ascii c.

(** [c.upper()] on an ASCII letter. *)
Definition upper_char (c : ascii) : ascii :=
  if ((97 <=? ord c) && (ord c <=? 122))%nat
  then ascii_of_nat (ord c - 32)%nat else c.

(** [s.upper()] *)
Fixpoint upper (s : string) : string :=
  match s with
  | EmptyString => EmptyString
  | String c r => String (upper_char c) (upper r)
  end.

(** Truth value of a string: [if s:] holds for non-empty strings. *)
Definition truthy (s : string) : bool :=
  match s with EmptyString => false | String _ _ => true end.

(** [sep.join(l)] *)
Fixpoint join (sep : string) (l : list string) : string :=
  match l with
  | [] => ""
  | [x] => x
  | x :: r => x +:+ sep +:+ join sep r
  end.

End Str.

(** ** [pathlib.Path] *)

(** A path is the list of its components: [Path("input/a.txt")] is
    [["input"; "a.txt"]] and [Path(".")], the working directory, is []. *)
Abbreviation path := (list string).

Module PathLib.

(** [p.name]: the final component, empty for [Path(".")]. *)
Definition name (p : path) : string := List.last p "".

(** [p.parent] *)
Definition parent (p : path) : path := removelast p.

(** [d / n] *)
Definition joinpath (d : path) (n : string) : path := (d ++ [n])%list.

(** [str(p)] *)
Definition str (p : path) : string :=
  match p with [] => "." | _ => Str.join "/" p end.

(** Splits a name at its last dot: [Some (before, from_the_dot)]. *)
Fixpoint rsplit_dot (s : string) : option (string * string) :=
  match s with
  | EmptyString => None
  | String c r =>
      match rsplit_dot r with
      | Some (a, b) => Some (String c a, b)
      | None => if Ascii.eqb c "." then Some (EmptyString, s) else None
      end
  end.

(** The suffix of a name: from the last dot on, when that dot is neither
    the first nor the last character ([0 < i < len(name) - 1]). *)
Definition name_suffix (nm : string) : string :=
  match rsplit_dot nm with
  | Some (a, b) =>
      if ((0 <? String.length a) && (1 <? String.length b))%nat then b else ""
  | None => ""
  end.

(** The name without its suffix. *)
Definition name_stem (nm : string) : string :=
  match rsplit_dot nm with
  | Some (a, b) =>
      if ((0 <? String.length a) && (1 <? String.length b))%nat then a else nm
  | None => nm
  end.

(** [p.suffix] *)
Definition suffix (p : path) : string := name_suffix (name p).

(** [p.with_suffix(s)]: [None] stands for the [ValueError] pathlib raises
    on a path with an empty name. *)
Definition with_suffix (p : path) (s : string) : option path :=
  if Str.truthy (name p)
  then Some (joinpath (parent p) (name_stem (name p) +:+ s))
  else None.

End PathLib.

(** ** [json]: the documents stored in metadata files *)

(** The program stores one flat object per metadata file, with string
    keys and string values.  A Python [dict] keeps its keys in insertion
    order, so a document is an association list; [d[k] = v] overwrites in
    place or appends. *)
Module Json.

Definition dict := list (string * string).

(** [d.get(k)] *)
Fixpoint dict_get (k : string) (d : dict) : option string :=
  match d with
  | [] => None
  | (k', v) :: r => if String.eqb k' k then Some v else dict_get k r
  end.

(** [d[k] = v] *)
Fixpoint dict_set (k v : string) (d : dict) : dict :=
  match d with
  | [] => [(k, v)]
  | (k', v') :: r =>
      if String.eqb k' k then (k, v) :: r else (k', v') :: dict_set k v r
  end.

Definition dquote : ascii := "034"%char.
Definition backslash : ascii := "092"%char.
Definition LF : ascii := "010"%char.

Definition hex_digit (n : nat) : ascii :=
  match n with
  | 0 => "0" | 1 => "1" | 2 => "2" | 3 => "3" | 4 => "4" | 5 => "5"
  | 6 => "6" | 7 => "7" | 8 => "8" | 9 => "9" | 10 => "a" | 11 => "b"
  | 12 => "c" | 13 => "d" | 14 => "e" | _ => "f"
  end%char.

Definition hex_value (c : ascii) : option nat :=
  let n := Str.ord c in
  if ((48 <=? n) && (n <=? 57))%nat then Some (n - 48)%nat
  else if ((97 <=? n) && (n <=? 102))%nat then Some (n - 87)%nat
  else if ((65 <=? n) && (n <=? 70))%nat then Some (n - 55)%nat
  else None.

(** *** Serialisation: [json.dump(d, f, indent=2)]

    The printers take the text that follows as an argument. *)

(** One character of a string literal ([ensure_ascii] is on: everything
    outside [' '..'~'] is escaped). *)
Definition escape_char (c : ascii) (tail : string) : string :=
  let n := Str.ord c in
  if (n =? 34)%nat then String backslash (String dquote tail)
  else if (n =? 92)%nat then String backslash (String backslash tail)
  else if (n =? 10)%nat then String backslash (String "n" tail)
  else if (n =? 13)%nat then String backslash (String "r" tail)
  else if (n =? 9)%nat then String backslash (String "t" tail)
  else if (n =? 8)%nat then String backslash (String "b" tail)
  else if (n =? 12)%nat then String backslash (String "f" tail)
  else if ((n <? 32) || (126 <? n))%nat then
    String backslash (String "u" (String "0" (String "0"
      (String (hex_digit (n / 16)) (String (hex_digit (n mod 16)) tail)))))
  else String c tail.

Fixpoint escape (s : string) (tail : string) : string :=
  match s with
  | EmptyString => tail
  | String c r => escape_char c (escape r tail)
  end.

(** A string literal. *)
Definition dump_string (s : string) (tail : string) : string :=
  String dquote (escape s (String dquote tail)).

(** ["key": "value"] *)
Definition dump_member (kv : string * string) (tail : string) : string :=
  dump_string (fst kv) (String ":" (String " " (dump_string (snd kv) tail))).

(** The members, one per line, indented by two spaces. *)
Fixpoint dump_members (kv : string * string) (r : dict) (tail : string)
  : string :=
  match r with
  | [] => dump_member kv (String LF tail)
  | kv' :: r' =>
      dump_member kv
        (String "," (String LF (String " " (String " "
           (dump_members kv' r' tail)))))
  end.

(** [json.dumps(d, indent=2)] *)
Definition dumps (d : dict) : string :=
  match d with
  | [] => "{}"
  | kv :: r => String "{" (String LF (String " " (String " "
                 (dump_members kv r "}"))))
  end.

(** *** Parsing: [json.load(f)]

    The parser accepts objects whose values are strings, with any JSON
    white space between tokens; [None] stands for the exception
    [json.load] raises (and for documents outside this fragment, which
    the program never writes). *)

Definition is_ws (c : ascii) : bool :=
  let n := Str.ord c in
  ((n =? 32) || (n =? 10) || (n =? 13) || (n =? 9))%nat.

Fixpoint skip_ws (s : string) : string :=
  match s with
  | EmptyString => EmptyString
  | String c r => if is_ws c then skip_ws r else s
  end.

(** The character a two-character escape stands for. *)
Definition simple_escape (e : ascii) : option ascii :=
  let n := Str.ord e in
  if (n =? 34)%nat then Some dquote
  else if (n =? 92)%nat then Some backslash
  else if (n =? 47)%nat then Some "/"%char
  else if (n =? 110)%nat then Some LF
  else if (n =? 114)%nat then Some "013"%char
  else if (n =? 116)%nat then Some "009"%char
  else if (n =? 98)%nat then Some "008"%char
  else if (n =? 102)%nat then Some "012"%char
  else None.

(** The character of [\uXXXX], when it is one of the model's. *)
Definition hex4 (h1 h2 h3 h4 : ascii) : option ascii :=
  match hex_value h1, hex_value h2, hex_value h3, hex_value h4 with
  | Some a, Some b, Some c, Some d =>
      let n := (((a * 16 + b) * 16 + c) * 16 + d)%nat in
      if (n <? 256)%nat then Some (ascii_of_nat n) else None
  | _, _, _, _ => None
  end.

Definition cons_char (c : ascii) (r : option (string * string))
  : option (string * string) :=
  match r with
  | Some (t, rest) => Some (String c t, rest)
  | None => None
  end.

(** Reads a string literal after its opening quote: the decoded string
    and the text after the closing quote. *)
Fixpoint scan_string (s : string) : option (string * string) :=
  match s with
  | EmptyString => None
  | String c r =>
      if (Str.ord c =? 34)%nat then Some (EmptyString, r)
      else if (Str.ord c =? 92)%nat then
        match r with
        | EmptyString => None
        | String e r1 =>
            if (Str.ord e =? 117)%nat then
              match r1 with
              | String h1 (String h2 (String h3 (String h4 r2))) =>
                  match hex4 h1 h2 h3 h4 with
                  | Some c' => cons_char c' (scan_string r2)
                  | None => None
                  end
              | _ => None
              end
            else
              match simple_escape e with
              | Some c' => cons_char c' (scan_string r1)
              | None => None
              end
        end
      else if (Str.ord c <? 32)%nat then None
      else cons_char c (scan_string r)
  end.

(** Reads [: "value"] after a key, then the next member or the end. *)
Fixpoint parse_members (fuel : nat) (s : string) (d : dict) : option dict :=
  match fuel with
  | O => None
  | S fuel' =>
      match skip_ws s with
      | String q r =>
          if negb (Ascii.eqb q dquote) then None else
          match scan_string r with
          | None => None
          | Some (k, r1) =>
              match skip_ws r1 with
              | String colon r2 =>
                  if negb (Ascii.eqb colon ":") then None else
                  match skip_ws r2 with
                  | String q2 r3 =>
                      if negb (Ascii.eqb q2 dquote) then None else
                      match scan_string r3 with
                      | None => None
                      | Some (v, r4) =>
                          match skip_ws r4 with
                          | String sep r5 =>
                              if Ascii.eqb sep "," then
                                parse_members fuel' r5 (dict_set k v d)
                              else if Ascii.eqb sep "}" then
                                match skip_ws r5 with
                                | EmptyString => Some (dict_set k v d)
                                | _ => None
                                end
                              else None
                          | EmptyString => None
                          end
                      end
                  | EmptyString => None
                  end
              | EmptyString => None
              end
          end
      | EmptyString => None
      end
  end.

(** [json.loads(s)] *)
Definition loads (s : string) : option dict :=
  match skip_ws s with
  | String open r =>
      if negb (Ascii.eqb open "{") then None else
      match skip_ws r with
      | String c r1 =>
          if Ascii.eqb c "}" then
            match skip_ws r1 with EmptyString => Some [] | _ => None end
          else parse_members (String.length r) r []
      | EmptyString => None
      end
  | EmptyString => None
  end.

End Json.


(** ** The operating system *)

Module OS.

(** *** Exceptions *)

Inductive exn_class :=
| FileNotFoundError | PermissionError | IsADirectoryError
| NotADirectoryError | FileExistsError | OSError
| ValueError | JSONDecodeError | RuntimeError | AssertionError.

(** An exception: its class and [str(e)]. *)
Record exn := Exception { exn_cls : exn_class; exn_str : string }.

(** The error codes of the system calls below. *)
Inductive errno :=
| ENOENT | EACCES | EISDIR | ENOTDIR | EEXIST | ENOTEMPTY | EINVAL.

(** The subclass of [OSError] Python raises for an error code. *)
Definition errno_class (c : errno) : exn_class :=
  match c with
  | ENOENT => FileNotFoundError
  | EACCES => PermissionError
  | EISDIR => IsADirectoryError
  | ENOTDIR => NotADirectoryError
  | EEXIST => FileExistsError
  | ENOTEMPTY | EINVAL => OSError
  end.

Definition strerror (c : errno) : string :=
  match c with
  | ENOENT => "[Errno 2] No such file or directory"
  | EACCES => "[Errno 13] Permission denied"
  | EISDIR => "[Errno 21] Is a directory"
  | ENOTDIR => "[Errno 20] Not a directory"
  | EEXIST => "[Errno 17] File exists"
  | ENOTEMPTY => "[Errno 39] Directory not empty"
  | EINVAL => "[Errno 22] Invalid argument"
  end.

(** The exception a failed system call on [p] raises. *)
Definition os_error (c : errno) (p : path) : exn :=
  Exception (errno_class c)
    (strerror c +:+ ": '" +:+ PathLib.str p +:+ "'").

(** The same for a call with two paths. *)
Definition os_error2 (c : errno) (p q : path) : exn :=
  Exception (errno_class c)
    (strerror c +:+ ": '" +:+ PathLib.str p +:+ "' -> '"
       +:+ PathLib.str q +:+ "'").

(** *** The state of the world *)

(** A regular file has a text content and read and write permissions; a
    directory has the permission to add and remove entries. *)
Inductive node :=
| File (content : string) (readable writable : bool)
| Dir (writable : bool).

(** The file tree (keyed by path, the working directory at []), the
    clock ([clock n] is what the [n]-th reading of
    [datetime.now().isoformat()] returns), and the history of the
    contents written to files, oldest first. *)
Record world := World {
  files : gmap path node;
  clock : nat -> string;
  ticks : nat;
  writes : list (path * string)
}.

Definition set_files (w : world) (m : gmap path node) : world :=
  World m (clock w) (ticks w) (writes w).

(** *** Computations: a state and exception monad *)

Inductive outcome (A : Type) :=
| Ret (a : A)
| Raise (e : exn).
Arguments Ret {A} a.
Arguments Raise {A} e.

Definition M (A : Type) : Type := world -> outcome A * world.

Definition ret {A} (a : A) : M A := fun w => (Ret a, w).

Definition raise {A} (e : exn) : M A := fun w => (Raise e, w).

Definition bind {A B} (m : M A) (k : A -> M B) : M B :=
  fun w =>
    match m w with
    | (Ret a, w1) => k a w1
    | (Raise e, w1) => (Raise e, w1)
    end.

(** [try: body  except Exception as e: handler(e)] *)
Definition try_except {A} (body : M A) (handler : exn -> M A) : M A :=
  fun w =>
    match body w with
    | (Ret a, w1) => (Ret a, w1)
    | (Raise e, w1) => handler e w1
    end.

(** *** System calls *)

(** Why an entry cannot be created at [p], if it cannot. *)
Definition create_error (m : gmap path node) (p : path)
  : option errno :=
  match m !! PathLib.parent p with
  | None => Some ENOENT
  | Some (File _ _ _) => Some ENOTDIR
  | Some (Dir false) => Some EACCES
  | Some (Dir true) => None
  end.

(** [Path(p).touch(exist_ok=True)]: an existing entry is left as it is
    (only its times change), a missing file is created empty. *)
Definition touch (p : path) : M unit :=
  fun w =>
    match files w !! p with
    | Some _ => (Ret tt, w)
    | None =>
        match create_error (files w) p with
        | Some c => (Raise (os_error c p), w)
        | None => (Ret tt, set_files w (<[p := File "" true true]> (files w)))
        end
    end.

(** [with open(p, 'r') as f: f.read()] *)
Definition read_text (p : path) : M string :=
  fun w =>
    match files w !! p with
    | None => (Raise (os_error ENOENT p), w)
    | Some (Dir _) => (Raise (os_error EISDIR p), w)
    | Some (File c r _) =>
        if r then (Ret c, w) else (Raise (os_error EACCES p), w)
    end.

(** [with open(p, 'w') as f: f.write(content)]: the file is created or
    truncated, and the write is recorded in the history. *)
Definition write_text (p : path) (content : string) : M unit :=
  fun w =>
    let written m :=
      World m (clock w) (ticks w) (writes w ++ [(p, content)]) in
    match files w !! p with
    | Some (Dir _) => (Raise (os_error EISDIR p), w)
    | Some (File _ r wr) =>
        if wr then (Ret tt, written (<[p := File content r wr]> (files w)))
        else (Raise (os_error EACCES p), w)
    | None =>
        match create_error (files w) p with
        | Some c => (Raise (os_error c p), w)
        | None =>
            (Ret tt, written (<[p := File content true true]> (files w)))
        end
    end.

(** [Path(p).mkdir(exist_ok=True)] *)
Definition mkdir (p : path) : M unit :=
  fun w =>
    match files w !! p with
    | Some (Dir _) => (Ret tt, w)
    | Some (File _ _ _) => (Raise (os_error EEXIST p), w)
    | None =>
        match create_error (files w) p with
        | Some c => (Raise (os_error c p), w)
        | None => (Ret tt, set_files w (<[p := Dir true]> (files w)))
        end
    end.

(** [Path(p).exists()] *)
Definition exists_ (p : path) : M bool :=
  fun w => (Ret (bool_decide (is_Some (files w !! p))), w).

(** Why an entry cannot be removed from its directory, if it cannot. *)
Definition remove_error (m : gmap path node) (p : path)
  : option errno :=
  match m !! PathLib.parent p with
  | Some (Dir false) => Some EACCES
  | _ => None
  end.

(** [Path(p).unlink()] *)
Definition unlink (p : path) : M unit :=
  fun w =>
    match files w !! p with
    | None => (Raise (os_error ENOENT p), w)
    | Some (Dir _) => (Raise (os_error EISDIR p), w)
    | Some (File _ _ _) =>
        match remove_error (files w) p with
        | Some c => (Raise (os_error c p), w)
        | None => (Ret tt, set_files w (delete p (files w)))
        end
    end.

(** [q] lies strictly below the directory [d]. *)
Definition below (d q : path) : bool :=
  bool_decide (d `prefix_of` q) && negb (bool_decide (d = q)).

Definition has_entries (m : gmap path node) (d : path) : bool :=
  existsb (below d) (map_to_list m).*1.

(** Moves the directory [src] and everything below it to [dst]. *)
Definition move_tree (src dst : path) (m : gmap path node)
  : gmap path node :=
  let rebase (q : path) : path :=
    if bool_decide (src `prefix_of` q) then (dst ++ drop (length src) q)%list
    else q in
  list_to_map (prod_map rebase id <$> map_to_list (delete dst m)).

(** [Path(src).rename(dst)], that is [os.rename(src, dst)]: an existing
    file at [dst] is replaced. *)
Definition rename (src dst : path) : M unit :=
  fun w =>
    let m := files w in
    let fail c := (Raise (os_error2 c src dst), w) in
    match m !! src with
    | None => fail ENOENT
    | Some n =>
        if bool_decide (src = dst) then (Ret tt, w) else
        match remove_error m src, create_error m dst with
        | Some c, _ => fail c
        | None, Some c => fail c
        | None, None =>
            match n, m !! dst with
            | File _ _ _, Some (Dir _) => fail EISDIR
            | File _ _ _, _ =>
                (Ret tt, set_files w (<[dst := n]> (delete src m)))
            | Dir _, Some (File _ _ _) => fail ENOTDIR
            | Dir _, o =>
                if bool_decide (src `prefix_of` dst) then fail EINVAL
                else if bool_decide (is_Some o) && has_entries m dst
                then fail ENOTEMPTY
                else (Ret tt, set_files w (move_tree src dst m))
            end
        end
    end.

(** [datetime.now().isoformat()] *)
Definition now_isoformat : M string :=
  fun w =>
    (Ret (clock w (ticks w)),
     World (files w) (clock w) (S (ticks w)) (writes w)).

End OS.

(** Sequencing of computations, written as in the program: one statement
    after the other. *)
Declare Scope py_scope.
Delimit Scope py_scope with py.
Notation "x ← y ; z" := (OS.bind y (fun x => z))
  (at level 20, y at level 100, z at level 200, only parsing) : py_scope.
Notation "x ;; z" := (OS.bind x (fun _ => z))
  (at level 100, z at level 200, only parsing, right associativity) : py_scope.
Open Scope py_scope.

(** ** The program *)

Import OS.

(** [class Config] ([POLLING_INTERVAL] is not used by the program). *)
Module Config.
Definition INPUT_DIR : path := ["input"].
Definition PROCESSED_DIR : path := ["processed"].
Definition FILE_CONTENT : string := "test-content".
Definition MAX_CONCURRENT_PROCESSES : nat := 5.
Definition FILE_EXTENSION : string := ".txt".
End Config.

(** [def _touch(path)] *)
Definition _touch (p : path) : M unit := OS.touch p.

(** [filepath.with_suffix(s)] as a computation. *)
Definition with_suffix (p : path) (s : string) : M path :=
  match PathLib.with_suffix p s with
  | Some q => ret q
  | None =>
      raise (Exception ValueError
               ("PosixPath('" +:+ PathLib.str p +:+ "') has an empty name"))
  end.

(** [json.load(f)] on the text of a file. *)
Definition json_load (text : string) : M Json.dict :=
  match Json.loads text with
  | Some d => ret d
  | None =>
      raise (Exception JSONDecodeError
               "Expecting value: line 1 column 1 (char 0)")
  end.

(** [if error_message: meta_data['error_message'] = error_message] *)
Definition set_error_message (error_message : option string)
    (meta_data : Json.dict) : Json.dict :=
  match error_message with
  | Some msg =>
      if Str.truthy msg then Json.dict_set "error_message" msg meta_data
      else meta_data
  | None => meta_data
  end.

(** The [multiprocessing.Queue] shared by the watcher, the workers and
    the coordinator: paths, and [None] as the shutdown signal; [put] adds
    at the end and [get] takes from the front. *)
Abbreviation queue := (list (option path)).

(** [class FileProcessor]: the queue is shared by all the processes, so
    the object itself holds the [processing] flag only. *)
Module FileProcessor.

Record t := Build { processing : bool }.

(** [FileProcessor(file_queue)] *)
Definition __init__ : t := Build true.

Definition _create_meta_file (meta_path : path)
    (original_filename status : string) (error_message : option string)
  : M unit :=
  now ← now_isoformat;
  let meta_data :=
    [("status", status); ("last_updated", now);
     ("original_filename", original_filename)] in
  let meta_data := set_error_message error_message meta_data in
  write_text meta_path (Json.dumps meta_data).

Definition _update_meta_file (meta_path : path) (status : string)
    (error_message : option string) : M unit :=
  try_except
    (text ← read_text meta_path;
     meta_data ← json_load text;
     let meta_data := Json.dict_set "status" status meta_data in
     now ← now_isoformat;
     let meta_data := Json.dict_set "last_updated" now meta_data in
     let meta_data := set_error_message error_message meta_data in
     write_text meta_path (Json.dumps meta_data))
    (fun e => ret tt).

Definition _read_file (filepath : path) : M (option string) :=
  try_except
    (content ← read_text filepath; ret (Some content))
    (fun e => ret None).

Definition _write_file (filepath : path) (content : string) : M bool :=
  try_except
    (write_text filepath content;; ret true)
    (fun e => ret false).

Definition _move_to_processed (original_path processed_path meta_path : path)
  : M unit :=
  let processed_dir := Config.PROCESSED_DIR in
  mkdir processed_dir;;
  rename original_path
    (PathLib.joinpath processed_dir (PathLib.name original_path));;
  rename processed_path
    (PathLib.joinpath processed_dir (PathLib.name processed_path));;
  found ← exists_ meta_path;
  if found then unlink meta_path else ret tt.

(** The body of [process_file] from the creation of the metadata file
    on: past this point [meta_path] is among the local variables. *)
Definition process_steps (filepath meta_path : path) : M bool :=
  _create_meta_file meta_path (PathLib.name filepath) "processing" None;;
  content ← _read_file filepath;
  match content with
  | None =>
      _update_meta_file meta_path "failed" (Some "Could not read file");;
      ret false
  | Some content =>
      let processed_content := Str.upper content in
      processed_path ← with_suffix filepath ".processed";
      written ← _write_file processed_path processed_content;
      if negb written then
        _update_meta_file meta_path "failed"
          (Some "Could not write processed file");;
        ret false
      else
        _update_meta_file meta_path "completed" None;;
        _move_to_processed filepath processed_path meta_path;;
        ret true
  end.

(** [process_file].  What the handler does depends on how far the body
    got: an exception raised before [meta_path] is assigned only makes
    the call return [False], a later one is first recorded in the
    metadata file ([if 'meta_path' in locals()]).  The handler itself
    runs outside the [try]. *)
Definition process_file (filepath : path) : M bool :=
  locals ← try_except
             (_touch filepath;;
              meta_path ← with_suffix filepath ".meta";
              ret (Some meta_path))
             (fun e => ret None);
  match locals with
  | None => ret false
  | Some meta_path =>
      try_except
        (process_steps filepath meta_path)
        (fun e =>
           _update_meta_file meta_path "failed" (Some (exn_str e));;
           ret false)
  end.

(** How a pass through the loop of [worker] ends. *)
Inductive loop := Continue | Exit.

(** One pass through [while self.processing:] on the shared queue.
    [get(timeout=1)] on an empty queue raises [queue.Empty], which the
    bare [except] turns into [continue], as it does with anything
    [process_file] would raise. *)
Definition worker_step (self : t) (q : queue) : M (loop * queue) :=
  if negb (processing self) then ret (Exit, q)
  else
    match q with
    | [] => ret (Continue, q)
    | None :: q' => ret (Exit, q')
    | Some filepath :: q' =>
        try_except
          (process_file filepath;; ret (Continue, q'))
          (fun e => ret (Continue, q'))
    end.

(** [worker]: at most [fuel] passes through the loop. *)
Fixpoint worker (fuel : nat) (self : t) (q : queue) : M (loop * queue) :=
  match fuel with
  | O => ret (Continue, q)
  | S fuel' =>
      r ← worker_step self q;
      match r with
      | (Exit, q') => ret (Exit, q')
      | (Continue, q') => worker fuel' self q'
      end
  end.

End FileProcessor.

(** [class FileWatcher] *)
Module FileWatcher.

(** A watchdog event. *)
Record event := Event { is_directory : bool; src_path : path }.

Definition on_created (ev : event) (file_queue : queue) : queue :=
  if is_directory ev then file_queue
  else
    let filepath := src_path ev in
    if String.eqb (PathLib.suffix filepath) Config.FILE_EXTENSION
    then file_queue ++ [Some filepath]
    else file_queue.

End FileWatcher.

(** The watchdog observer thread, as far as the coordinator uses it. *)
Module Observer.

Record t := Build { watches : list path; started : bool; stopped : bool }.

Definition __init__ : t := Build [] false false.

Definition schedule (o : t) (d : path) : t :=
  Build (watches o ++ [d]) (started o) (stopped o).

Definition start (o : t) : t := Build (watches o) true (stopped o).

Definition stop (o : t) : t := Build (watches o) (started o) true.

(** [Thread.join] raises on a thread that was never started. *)
Definition join (o : t) : option exn :=
  if started o then None
  else Some (Exception RuntimeError
               "cannot join thread before it is started").

End Observer.

(** A [multiprocessing.Process] handle. *)
Module Process.

Record t := Build { daemon : bool; started : bool }.

Definition start (p : t) : t := Build (daemon p) true.

(** [join(timeout=5)] returns when the process has ended or the
    timeout has elapsed; it raises on a process that was never
    started. *)
Definition join (p : t) : option exn :=
  if started p then None
  else Some (Exception AssertionError "can only join a started process").

End Process.

(** [class FileProcessingSystem] *)
Module FileProcessingSystem.

(** The coordinator object. *)
Record t := Build {
  file_queue : queue;
  processors : list (FileProcessor.t * Process.t);
  observer : option Observer.t;
  running : bool
}.

(** The coordinator together with what it acts on: the file system and
    the worker processes, each with its own [FileProcessor] object and
    the state of its loop. *)
Record machine := Machine {
  self : t;
  env : world;
  children : list (FileProcessor.t * FileProcessor.loop)
}.

Definition __init__ : t := Build [] [] None false.

(** One turn of [for i in range(...)] in [start]: a worker process is
    spawned, running [worker_process(file_queue)] on a processor of its
    own, and its handle is recorded next to a processor that stays in
    the parent. *)
Definition spawn (m : machine) : machine :=
  let processor := FileProcessor.__init__ in
  let process := Process.start (Process.Build true false) in
  let s := self m in
  Machine
    (Build (file_queue s) (processors s ++ [(processor, process)])
       (observer s) (running s))
    (env m)
    (children m ++ [(FileProcessor.__init__, FileProcessor.Continue)]).

Definition start (m : machine) : outcome unit * machine :=
  let s := self m in
  let s := Build (file_queue s) (processors s) (observer s) true in
  match (mkdir Config.INPUT_DIR;; mkdir Config.PROCESSED_DIR) (env m) with
  | (Raise e, w) => (Raise e, Machine s w (children m))
  | (Ret _, w) =>
      let m := Nat.iter Config.MAX_CONCURRENT_PROCESSES spawn
                 (Machine s w (children m)) in
      let s := self m in
      let o := Observer.start
                 (Observer.schedule Observer.__init__ Config.INPUT_DIR) in
      (Ret tt,
       Machine (Build (file_queue s) (processors s) (Some o) (running s))
         (env m) (children m))
  end.

(** [for processor, process in self.processors:] of [stop]: the flag of
    the parent's processor is cleared and the process joined. *)
Fixpoint join_all (l : list (FileProcessor.t * Process.t))
  : outcome unit * list (FileProcessor.t * Process.t) :=
  match l with
  | [] => (Ret tt, [])
  | (processor, process) :: r =>
      let done := (FileProcessor.Build false, process) in
      match Process.join process with
      | Some e => (Raise e, done :: r)
      | None =>
          match join_all r with
          | (res, r') => (res, done :: r')
          end
      end
  end.

Definition stop (m : machine) : outcome unit * machine :=
  let s := self m in
  let s := Build (file_queue s) (processors s) (observer s) false in
  let stopped :=
    match observer s with
    | Some o => Some (Observer.stop o)
    | None => None
    end in
  let s := Build (file_queue s) (processors s) stopped (running s) in
  match from_option Observer.join None stopped with
  | Some e => (Raise e, Machine s (env m) (children m))
  | None =>
      let q := file_queue s ++ replicate (length (processors s)) None in
      match join_all (processors s) with
      | (res, l) =>
          (res, Machine (Build q l (observer s) (running s))
                  (env m) (children m))
      end
  end.

(** A worker process makes one pass through its loop. *)
Definition child_step (i : nat) (m : machine) : machine :=
  match children m !! i with
  | Some (processor, FileProcessor.Continue) =>
      let s := self m in
      match FileProcessor.worker_step processor (file_queue s) (env m) with
      | (Ret (l, q), w) =>
          Machine (Build q (processors s) (observer s) (running s)) w
            (<[i := (processor, l)]> (children m))
      | (Raise _, w) => Machine s w (children m)
      end
  | _ => m
  end.

(** The watcher thread delivers an event, if the observer runs. *)
Definition watch_step (ev : FileWatcher.event) (m : machine) : machine :=
  let s := self m in
  match observer s with
  | Some o =>
      if Observer.started o && negb (Observer.stopped o) then
        Machine
          (Build (FileWatcher.on_created ev (file_queue s)) (processors s)
             (observer s) (running s))
          (env m) (children m)
      else m
  | None => m
  end.

End FileProcessingSystem.

(** ** Vocabulary of the properties *)

(** The document a list of members denotes: later ones overwrite. *)
Definition dict_of (l : Json.dict) (d : Json.dict) : Json.dict :=
  fold_left (fun d kv => Json.dict_set kv.1 kv.2 d) l d.

(** Why [open(p, 'w')] fails, if it does. *)
Definition write_error (m : gmap path node) (p : path) : option errno :=
  match m !! p with
  | Some (Dir _) => Some EISDIR
  | Some (File _ _ wr) => if wr then None else Some EACCES
  | None => create_error m p
  end.

(** The file a successful write leaves at [p]: an existing file keeps its
    permissions. *)
Definition written_node (m : gmap path node) (p : path) (c : string) : node :=
  match m !! p with
  | Some (File _ r wr) => File c r wr
  | _ => File c true true
  end.

(** A record with the given status and, when one is passed, the given
    error message. *)
Definition is_record (status : string) (error_message : option string)
    (d : Json.dict) : Prop :=
  NoDup d.*1
  ∧ Json.dict_get "status" d = Some status
  ∧ ∀ msg, error_message = Some msg → Str.truthy msg = true →
      Json.dict_get "error_message" d = Some msg.

(** A regular file lies at [p]. *)
Definition is_file (m : gmap path node) (p : path) : Prop :=
  ∃ c r wr, m !! p = Some (File c r wr).

(** The [status] and [error_message] fields of the record a text holds. *)
Definition status_of (text : string) : option string :=
  Json.loads text ≫= Json.dict_get "status".

Definition error_message_of (text : string) : option string :=
  Json.loads text ≫= Json.dict_get "error_message".

(** What a computation writes, in order: the part of the history it adds. *)
Definition written {A} (m : M A) (w : world) : list (path * string) :=
  drop (length (writes w)) (writes (m w).2).

(** The statuses a list of writes gives to the record at [meta_path]. *)
Definition statuses (meta_path : path) (l : list (path * string))
  : list string :=
  omap (fun pc => if decide (pc.1 = meta_path) then status_of pc.2 else None) l.

(** The contents a list of writes gives to the file at [p]. *)
Definition contents (p : path) (l : list (path * string)) : list string :=
  omap (fun pc => if decide (pc.1 = p) then Some pc.2 else None) l.

(** A path the watcher enqueues: its suffix is the configured one. *)
Definition is_task (p : path) : Prop :=
  PathLib.suffix p = Config.FILE_EXTENSION.

(** The places of a task's files: the metadata record, the processed
    sibling, and where the two files go in the output directory. *)
Definition meta_path_of (p : path) : path :=
  PathLib.joinpath (PathLib.parent p)
    (PathLib.name_stem (PathLib.name p) +:+ ".meta").

Definition processed_path_of (p : path) : path :=
  PathLib.joinpath (PathLib.parent p)
    (PathLib.name_stem (PathLib.name p) +:+ ".processed").

Definition relocated (p : path) : path :=
  PathLib.joinpath Config.PROCESSED_DIR (PathLib.name p).

(** What [_update_meta_file] makes of the files: it leaves them alone
    when the record cannot be read, parsed or rewritten, and otherwise
    rewrites the record with the new status. *)
Definition updated (mp : path) (st : string) (em : option string)
    (m m' : gmap path node) (l : list (path * string)) : Prop :=
  (m' = m ∧ l = []
   ∧ ((∀ c wr, m !! mp = Some (File c true wr) → Json.loads c = None)
      ∨ is_Some (write_error m mp)))
  ∨ (∃ d, is_record st em d
       ∧ write_error m mp = None
       ∧ (∃ c wr, m !! mp = Some (File c true wr) ∧ is_Some (Json.loads c))
       ∧ m' = <[mp := written_node m mp (Json.dumps d)]> m
       ∧ l = [(mp, Json.dumps d)]).

(** What [_move_to_processed] makes of the files. *)
Definition relocation (p pp mp : path) (m : gmap path node)
    (r : outcome unit) (m' : gmap path node) : Prop :=
  ∃ w w', files w = m ∧ files w' = m'
          ∧ FileProcessor._move_to_processed p pp mp w = (r, w').

(** The file state machine once the metadata path is known: every way
    [process_file] can go from the creation of the record on, with the
    result, the files it leaves and what it writes. *)
Inductive steps_summary (p mp pp : path) (m : gmap path node)
  : bool → gmap path node → list (path * string) → Prop :=
| steps_create_blocked :
    is_Some (write_error m mp) →
    steps_summary p mp pp m false m []
| steps_read_failed d1 m' l :
    is_record "processing" None d1 →
    write_error m mp = None →
    let m1 := <[mp := written_node m mp (Json.dumps d1)]> m in
    (∀ c wr, m1 !! p ≠ Some (File c true wr)) →
    updated mp "failed" (Some "Could not read file") m1 m' l →
    steps_summary p mp pp m false m' ((mp, Json.dumps d1) :: l)
| steps_write_failed d1 c wr m' l :
    is_record "processing" None d1 →
    write_error m mp = None →
    let m1 := <[mp := written_node m mp (Json.dumps d1)]> m in
    m1 !! p = Some (File c true wr) →
    is_Some (write_error m1 pp) →
    updated mp "failed" (Some "Could not write processed file") m1 m' l →
    steps_summary p mp pp m false m' ((mp, Json.dumps d1) :: l)
| steps_relocation_failed d1 c wr m3 l3 e m4 m' l :
    is_record "processing" None d1 →
    write_error m mp = None →
    let m1 := <[mp := written_node m mp (Json.dumps d1)]> m in
    m1 !! p = Some (File c true wr) →
    write_error m1 pp = None →
    let m2 := <[pp := written_node m1 pp (Str.upper c)]> m1 in
    updated mp "completed" None m2 m3 l3 →
    relocation p pp mp m3 (Raise e) m4 →
    Str.truthy (exn_str e) = true →
    updated mp "failed" (Some (exn_str e)) m4 m' l →
    steps_summary p mp pp m false m'
      ((mp, Json.dumps d1) :: (pp, Str.upper c) :: l3 ++ l)
| steps_completed d1 c wr m3 l3 m' :
    is_record "processing" None d1 →
    write_error m mp = None →
    let m1 := <[mp := written_node m mp (Json.dumps d1)]> m in
    m1 !! p = Some (File c true wr) →
    write_error m1 pp = None →
    let m2 := <[pp := written_node m1 pp (Str.upper c)]> m1 in
    updated mp "completed" None m2 m3 l3 →
    relocation p pp mp m3 (Ret tt) m' →
    steps_summary p mp pp m true m'
      ((mp, Json.dumps d1) :: (pp, Str.upper c) :: l3).

(** The files after [_touch(p)] returned. *)
Definition touched (m : gmap path node) (p : path) : gmap path node :=
  match m !! p with
  | Some _ => m
  | None => <[p := File "" true true]> m
  end.

(** Every way [process_file] can go. *)
Inductive file_summary (p : path) (m : gmap path node)
  : bool → gmap path node → list (path * string) → Prop :=
| file_untouchable :
    m !! p = None → is_Some (create_error m p) →
    file_summary p m false m []
| file_nameless :
    PathLib.with_suffix p ".meta" = None →
    file_summary p m false (touched m p) []
| file_steps b m' l :
    Str.truthy (PathLib.name p) = true →
    (is_Some (m !! p) ∨ create_error m p = None) →
    steps_summary p (meta_path_of p) (processed_path_of p) (touched m p)
      b m' l →
    file_summary p m b m' l.

(** The orders in which a record may take its statuses: a start of
    [processing → completed] or of [processing → failed]. *)
Definition forward_only (l : list string) : Prop :=
  l `prefix_of` ["processing"; "completed"]
  ∨ l `prefix_of` ["processing"; "failed"].

(** The same, with the step from [completed] to [failed] that a failed
    relocation takes. *)
Definition forward_or_relocation_failed (l : list string) : Prop :=
  l `prefix_of` ["processing"; "completed"; "failed"]
  ∨ l `prefix_of` ["processing"; "failed"].

(** ** Sample worlds *)

Definition sample_clock (n : nat) : string :=
  "2024-01-01T00:00:0" +:+ String (ascii_of_nat (48 + n)) "".

(** The working directory with the input directory and [input/a.txt]. *)
Definition sample_files : gmap path node :=
  <[["input"; "a.txt"] := File "hello" true true]>
    (<[["input"] := Dir true]> {[ [] := Dir true ]}).

Definition sample_world (m : gmap path node) : world :=
  World m sample_clock 0 [].

(** The same with an output directory that cannot be written to. *)
Definition readonly_output : gmap path node :=
  <[["processed"] := Dir false]> sample_files.

(** The same with a directory where the processed file should go. *)
Definition occupied_output : gmap path node :=
  <[["processed"; "a.processed"] := Dir true]>
    (<[["processed"] := Dir true]> sample_files).

(** The same with the source made unreadable. *)
Definition unreadable_source : gmap path node :=
  <[["input"; "a.txt"] := File "hello" false true]> sample_files.

(** The same with a record left by an earlier run. *)
Definition stale_record : gmap path node :=
  <[["input"; "a.meta"] := File "stale" true true]> sample_files.

(** ** The system at work *)

(** What can happen to the system: the coordinator is started or
    stopped, a worker makes a pass through its loop, the watcher sees a
    file. *)
Inductive action :=
| Start
| Stop
| Child (i : nat)
| Watch (ev : FileWatcher.event).

Definition perform (a : action) (m : FileProcessingSystem.machine)
  : FileProcessingSystem.machine :=
  match a with
  | Start => (FileProcessingSystem.start m).2
  | Stop => (FileProcessingSystem.stop m).2
  | Child i => FileProcessingSystem.child_step i m
  | Watch ev => FileProcessingSystem.watch_step ev m
  end.

(** [FileProcessingSystem()] in a world [w]. *)
Definition initial (w : world) : FileProcessingSystem.machine :=
  FileProcessingSystem.Machine FileProcessingSystem.__init__ w [].

Definition run (l : list action) (m : FileProcessingSystem.machine)
  : FileProcessingSystem.machine :=
  fold_left (fun m a => perform a m) l m.

#[export] Instance loop_eq_dec : EqDecision FileProcessor.loop.
Proof. solve_decision. Defined.

(** The shutdown signals waiting in a queue. *)
Definition sentinels (q : queue) : nat :=
  length (filter (fun x => x = None) q).

(** The workers that have left their loop. *)
Definition exited (l : list (FileProcessor.t * FileProcessor.loop)) : nat :=
  length (filter (fun c => c.2 = FileProcessor.Exit) l).

(** What holds of the system whatever happened to it: the processes and
    the observer it knows were started, it has one handle per worker, and
    the workers look at their own flag, which is never cleared. *)
Definition sane (m : FileProcessingSystem.machine) : Prop :=
  Forall (fun pp => Process.started pp.2 = true)
    (FileProcessingSystem.processors (FileProcessingSystem.self m))
  ∧ (∀ o, FileProcessingSystem.observer (FileProcessingSystem.self m) = Some o →
          Observer.started o = true)
  ∧ length (FileProcessingSystem.processors (FileProcessingSystem.self m))
    = length (FileProcessingSystem.children m)
  ∧ Forall (fun c => FileProcessor.processing c.1 = true)
      (FileProcessingSystem.children m).

(** ** The rest of the program *)

(** [def worker_process(file_queue)]: what a worker process runs, on a
    processor of its own. *)
Definition worker_process (fuel : nat) (file_queue : queue)
  : M (FileProcessor.loop * queue) :=
  let processor := FileProcessor.__init__ in
  FileProcessor.worker fuel processor file_queue.

(** [str(n)] for a Python [int]. *)
Definition str_int (n : Z) : string := pretty n.

(** [class FileCreator] *)
Module FileCreator.

(** [create_test_file(counter)]; [now] is the value [int(time.time())]
    has when the name is built.  The directory is made outside the [try],
    so a failure to make it is raised; a failure to write the file is
    caught and gives [None].  (The statements after the two [return]s are
    never reached.) *)
Definition create_test_file (counter : Z) (now : Z) : M (option path) :=
  let input_dir := Config.INPUT_DIR in
  mkdir input_dir;;
  let base_filename :=
    "test_" +:+ str_int counter +:+ "_" +:+ str_int now
      +:+ Config.FILE_EXTENSION in
  let filepath := PathLib.joinpath input_dir base_filename in
  try_except
    (write_text filepath (Config.FILE_CONTENT +:+ "-" +:+ str_int counter);;
     ret (Some filepath))
    (fun e => ret None).

End FileCreator.

(** [test_script.py] *)
Module TestScript.

(** The loop of [create_multiple_test_files(count, interval)] for an
    interval other than 0: [for i in range(1, count + 1)], one file after
    the other; [time_at i] is the value of [int(time.time())] when file
    [i] is made.  [first] is the counter the loop is at and [n] the
    number of turns left. *)
Fixpoint create_from (first : Z) (n : nat) (time_at : Z -> Z) : M unit :=
  match n with
  | O => ret tt
  | S n' =>
      FileCreator.create_test_file first (time_at first);;
      create_from (first + 1) n' time_at
  end.

Definition create_multiple_test_files (count : Z) (time_at : Z -> Z)
  : M unit :=
  create_from 1 (Z.to_nat count) time_at.

End TestScript.

(** The name [create_test_file] gives a file. *)
Definition test_file_name (counter now : Z) : string :=
  "test_" +:+ str_int counter +:+ "_" +:+ str_int now +:+ ".txt".

(** The path and the content [create_test_file] gives a file. *)
Definition test_file_path (counter now : Z) : path :=
  ["input"; test_file_name counter now].

Definition test_file_content (counter : Z) : string :=
  "test-content-" +:+ str_int counter.

(** The characters of [str(n)]: the digits and the sign. *)
Definition numeric (c : ascii) : bool :=
  Ascii.eqb c "-" || ((48 <=? Str.ord c) && (Str.ord c <=? 57))%nat.

Fixpoint all_chars (P : ascii -> bool) (s : string) : bool :=
  match s with
  | EmptyString => true
  | String c r => P c && all_chars P r
  end.

(** The counters [range(first, first + n)]. *)
Definition counters (first : Z) (n : nat) : list Z :=
  (fun i : nat => (first + Z.of_nat i)%Z) <$> seq 0 n.

(** The directories of the program are in place: the input directory can
    be changed, and the output directory too, or it can be made. *)
Definition open_dirs (w : world) : Prop :=
  files w !! Config.INPUT_DIR = Some (Dir true)
  ∧ (files w !! Config.PROCESSED_DIR = Some (Dir true)
     ∨ (files w !! Config.PROCESSED_DIR = None
        ∧ create_error (files w) Config.PROCESSED_DIR = None)).

(** A task of the input directory that waits with content [c], and
    nothing stands in the way of its record, its processed sibling or
    their places in the output directory. *)
Definition ready (w : world) (p : path) (c : string) : Prop :=
  is_task p
  ∧ PathLib.parent p = Config.INPUT_DIR
  ∧ (∃ wr, files w !! p = Some (File c true wr))
  ∧ write_error (files w) (meta_path_of p) = None
  ∧ write_error (files w) (processed_path_of p) = None
  ∧ (∀ b, files w !! relocated p ≠ Some (Dir b))
  ∧ (∀ b, files w !! relocated (processed_path_of p) ≠ Some (Dir b)).

(** The same task once it is through: the file with content [c] and its
    upper-cased copy are in the output directory, and the input directory
    holds nothing of it any more. *)
Definition delivered (w : world) (p : path) (c : string) : Prop :=
  (∃ wr, files w !! relocated p = Some (File c true wr))
  ∧ (∃ rd2 wr2, files w !! relocated (processed_path_of p)
                = Some (File (Str.upper c) rd2 wr2))
  ∧ files w !! p = None
  ∧ files w !! meta_path_of p = None
  ∧ files w !! processed_path_of p = None.

(** The workers that are still in their loop. *)
Definition looping (l : list (FileProcessor.t * FileProcessor.loop)) : nat :=
  length (filter (fun c => c.2 = FileProcessor.Continue) l).

(** Every worker makes one pass through its loop, one after the other. *)
Definition round (m : FileProcessingSystem.machine)
  : FileProcessingSystem.machine :=
  foldl (fun m i => FileProcessingSystem.child_step i m) m
    (seq 0 (length (FileProcessingSystem.children m))).

(** The workers still in their loops are covered by the signals waiting
    in the queue. *)
Definition covered (m : FileProcessingSystem.machine) : Prop :=
  sane m
  ∧ (looping (FileProcessingSystem.children m)
     ≤ sentinels
         (FileProcessingSystem.file_queue (FileProcessingSystem.self m)))%nat.

(** What a worker makes of the world when it processes the files of a
    list one after the other. *)
Definition process_all (ps : list path) (w : world) : world :=
  foldl (fun w p => (FileProcessor.process_file p w).2) w ps.

(** * Properties *)

(** ** Paths *)

Lemma rsplit_dot_app s a b :
  PathLib.rsplit_dot s = Some (a, b) → s = a +:+ b.
Proof.
  revert a b. induction s as [|c r IH]; intros a b; simpl; [done|].
  destruct (PathLib.rsplit_dot r) as [[a' b']|].
  - intros [= <- <-]. change (String c r = String c (a' +:+ b')). f_equal. by apply IH.
  - destruct (Ascii.eqb c "."); [|done]. by intros [= <- <-].
Qed.

Lemma str_app_nil_r s : s +:+ "" = s.
Proof.
  induction s as [|c r IH]; [done|].
  change (String c (r +:+ "") = String c r). by rewrite IH.
Qed.

Lemma name_stem_suffix nm :
  nm = PathLib.name_stem nm +:+ PathLib.name_suffix nm.
Proof.
  unfold PathLib.name_stem, PathLib.name_suffix.
  destruct (PathLib.rsplit_dot nm) as [[a b]|] eqn:E.
  - destruct (_ && _); [by apply rsplit_dot_app|].
    by rewrite str_app_nil_r.
  - by rewrite str_app_nil_r.
Qed.

Lemma name_joinpath d n : PathLib.name (PathLib.joinpath d n) = n.
Proof. unfold PathLib.name, PathLib.joinpath. apply last_last. Qed.

Lemma parent_joinpath d n : PathLib.parent (PathLib.joinpath d n) = d.
Proof. unfold PathLib.parent, PathLib.joinpath. apply removelast_last. Qed.

Lemma with_suffix_name p s q :
  PathLib.with_suffix p s = Some q →
  PathLib.name q = PathLib.name_stem (PathLib.name p) +:+ s
  ∧ PathLib.parent q = PathLib.parent p.
Proof.
  unfold PathLib.with_suffix. destruct (Str.truthy _); [|done].
  intros [= <-]. by rewrite name_joinpath, parent_joinpath.
Qed.

(** Changing the suffix changes the name. *)
Lemma with_suffix_ne_self p s q :
  PathLib.suffix p ≠ s →
  PathLib.with_suffix p s = Some q →
  PathLib.name q ≠ PathLib.name p.
Proof.
  intros Hne H. apply with_suffix_name in H as [-> _].
  rewrite (name_stem_suffix (PathLib.name p)) at 2.
  intros H. apply String.app_inj in H. by apply Hne.
Qed.

Lemma name_ne_path (p q : path) : PathLib.name p ≠ PathLib.name q → p ≠ q.
Proof. congruence. Qed.

(** ** JSON documents: what is written is what is read back *)

Lemma scan_escape_char c t :
  Json.scan_string (Json.escape_char c t)
  = Json.cons_char c (Json.scan_string t).
Proof.
  destruct c as [[] [] [] [] [] [] [] []]; reflexivity.
Qed.

Lemma scan_escape s t :
  Json.scan_string (Json.escape s (String Json.dquote t)) = Some (s, t).
Proof.
  induction s as [|c r IH]; [done|].
  simpl Json.escape. by rewrite scan_escape_char, IH.
Qed.

Lemma parse_members_ws fuel c s d :
  Json.is_ws c = true →
  Json.parse_members fuel (String c s) d = Json.parse_members fuel s d.
Proof. intros H. destruct fuel; [done|]. simpl. by rewrite H. Qed.

Lemma parse_dump_members r : ∀ kv d fuel,
  length r < fuel →
  Json.parse_members fuel (Json.dump_members kv r "}") d
  = Some (dict_of (kv :: r) d).
Proof.
  induction r as [|kv' r IH]; intros [k v] d [|fuel] Hf; try (simpl in Hf; lia).
  - simpl. rewrite scan_escape. simpl. by rewrite scan_escape.
  - simpl. rewrite scan_escape. simpl. rewrite scan_escape. simpl.
    rewrite !parse_members_ws by done.
    rewrite IH; [done|]. simpl in Hf. lia.
Qed.

Lemma dict_set_keys k v d :
  (Json.dict_set k v d).*1 = if decide (k ∈ d.*1) then d.*1 else d.*1 ++ [k].
Proof.
  induction d as [|[k' v'] d IH]; csimpl; [done|].
  destruct (String.eqb_spec k' k) as [->|Hne]; csimpl.
  - rewrite decide_True; [done|]. apply list_elem_of_here.
  - rewrite IH. destruct (decide (k ∈ d.*1)) as [Hin|Hin].
    + rewrite decide_True; [done|]. by apply list_elem_of_further.
    + rewrite decide_False; [done|].
      intros [?|?]%elem_of_cons; congruence.
Qed.

Lemma dict_set_NoDup k v d : NoDup d.*1 → NoDup (Json.dict_set k v d).*1.
Proof.
  intros H. rewrite dict_set_keys. case_decide; [done|].
  apply NoDup_app. split_and!; [done| |apply NoDup_singleton].
  intros x Hx ->%list_elem_of_singleton. done.
Qed.

Lemma dict_set_fresh k v d : k ∉ d.*1 → Json.dict_set k v d = d ++ [(k, v)].
Proof.
  induction d as [|[k' v'] d IH]; simpl; [done|]. intros Hk.
  apply not_elem_of_cons in Hk as [Hne Hk].
  destruct (String.eqb_spec k' k); [congruence|]. by rewrite IH.
Qed.

Lemma dict_get_set_eq k v d : Json.dict_get k (Json.dict_set k v d) = Some v.
Proof.
  induction d as [|[k' v'] d IH]; simpl.
  - by rewrite String.eqb_refl.
  - destruct (String.eqb_spec k' k) as [->|Hne]; simpl.
    + by rewrite String.eqb_refl.
    + by destruct (String.eqb_spec k' k).
Qed.

Lemma dict_get_set_ne k k' v d :
  k ≠ k' → Json.dict_get k' (Json.dict_set k v d) = Json.dict_get k' d.
Proof.
  intros Hne. induction d as [|[k0 v0] d IH]; simpl.
  - by destruct (String.eqb_spec k k').
  - destruct (String.eqb_spec k0 k) as [->|Hne0]; simpl.
    + by destruct (String.eqb_spec k k').
    + by rewrite IH.
Qed.

Lemma dict_of_NoDup l : ∀ d, NoDup (d ++ l).*1 → dict_of l d = d ++ l.
Proof.
  induction l as [|[k v] l IH]; intros d Hd; simpl.
  - by rewrite app_nil_r.
  - rewrite (cons_middle _ d l), app_assoc in Hd |- *.
    rewrite dict_set_fresh, IH; [done..|].
    rewrite !fmap_app in Hd. apply NoDup_app in Hd as [Hd _].
    apply NoDup_app in Hd as (_ & Hd & _). intros Hk. apply (Hd k Hk).
    simpl. apply list_elem_of_here.
Qed.

Lemma escape_char_length c t :
  String.length t < String.length (Json.escape_char c t).
Proof. destruct c as [[] [] [] [] [] [] [] []]; simpl; lia. Qed.

Lemma escape_length s t :
  (String.length t ≤ String.length (Json.escape s t))%nat.
Proof.
  induction s as [|c r IH]; simpl; [done|].
  pose proof (escape_char_length c (Json.escape r t)). lia.
Qed.

Lemma dump_member_length kv t :
  String.length t < String.length (Json.dump_member kv t).
Proof.
  unfold Json.dump_member, Json.dump_string. simpl.
  pose proof (escape_length kv.1
    (String Json.dquote (String ":" (String " " (String Json.dquote
       (Json.escape kv.2 (String Json.dquote t))))))) as H1.
  pose proof (escape_length kv.2 (String Json.dquote t)) as H2.
  simpl in H1, H2. lia.
Qed.

Lemma dump_members_length r : ∀ kv t,
  length r < String.length (Json.dump_members kv r t).
Proof.
  induction r as [|kv' r IH]; intros kv t; simpl Json.dump_members.
  - pose proof (dump_member_length kv (String Json.LF t)). simpl. lia.
  - match goal with |- _ < String.length (Json.dump_member _ ?x) =>
      pose proof (dump_member_length kv x) as H end.
    specialize (IH kv' t). simpl in H |- *. lia.
Qed.

(** [json.load] returns the document [json.dump] wrote. *)
Lemma loads_dumps d : NoDup d.*1 → Json.loads (Json.dumps d) = Some d.
Proof.
  destruct d as [|kv r]; [done|]. intros Hd.
  transitivity
    (Json.parse_members (3 + String.length (Json.dump_members kv r "}"))
       (Json.dump_members kv r "}") []).
  { destruct kv, r; reflexivity. }
  rewrite parse_dump_members.
  - by rewrite (dict_of_NoDup (kv :: r) []).
  - pose proof (dump_members_length r kv "}"). lia.
Qed.

(** ** System calls *)

Lemma os_error_truthy c p : Str.truthy (exn_str (os_error c p)) = true.
Proof. by destruct c. Qed.

Lemma os_error2_truthy c p q : Str.truthy (exn_str (os_error2 c p q)) = true.
Proof. by destruct c. Qed.

Lemma written_node_file m p c : ∃ r wr, written_node m p c = File c r wr.
Proof. unfold written_node. repeat case_match; eauto. Qed.

(** A system call that raises leaves the world as it was. *)
Lemma touch_inv p w r w1 :
  touch p w = (r, w1) →
  writes w1 = writes w ∧
  ((∃ e, r = Raise e ∧ Str.truthy (exn_str e) = true ∧ files w1 = files w
      ∧ files w !! p = None ∧ is_Some (create_error (files w) p))
   ∨ (r = Ret tt ∧ files w1 = files w ∧ is_Some (files w !! p))
   ∨ (r = Ret tt ∧ files w !! p = None
      ∧ files w1 = <[p := File "" true true]> (files w)
      ∧ create_error (files w) p = None)).
Proof.
  unfold touch. destruct (files w !! p) eqn:Hp.
  - intros [= <- <-]. eauto 10.
  - destruct (create_error (files w) p) eqn:Hc; intros [= <- <-].
    + split; [done|]. left. eauto 10 using os_error_truthy.
    + eauto 10.
Qed.

Lemma read_text_inv p w r w1 :
  read_text p w = (r, w1) →
  w1 = w ∧
  ((∃ e, r = Raise e ∧ Str.truthy (exn_str e) = true
      ∧ ∀ c wr, files w !! p ≠ Some (File c true wr))
   ∨ (∃ c wr, r = Ret c ∧ files w !! p = Some (File c true wr))).
Proof.
  unfold read_text. destruct (files w !! p) as [[c [] wr|b]|];
    intros [= <- <-]; (split; [done|]); eauto using os_error_truthy.
Qed.

Lemma write_text_inv p c w r w1 :
  write_text p c w = (r, w1) →
  (∃ e, r = Raise e ∧ Str.truthy (exn_str e) = true ∧ w1 = w
     ∧ is_Some (write_error (files w) p))
  ∨ (r = Ret tt ∧ write_error (files w) p = None
     ∧ files w1 = <[p := written_node (files w) p c]> (files w)
     ∧ writes w1 = writes w ++ [(p, c)]).
Proof.
  unfold write_text, write_error, written_node.
  destruct (files w !! p) as [[c0 rd []|b]|].
  - intros [= <- <-]. eauto 10.
  - intros [= <- <-]. left. eauto 10 using os_error_truthy.
  - intros [= <- <-]. left. eauto 10 using os_error_truthy.
  - destruct (create_error (files w) p) eqn:Hc; intros [= <- <-].
    + left. eauto 10 using os_error_truthy.
    + eauto 10.
Qed.

Lemma mkdir_inv d w r w1 :
  mkdir d w = (r, w1) →
  writes w1 = writes w ∧
  ((∃ e, r = Raise e ∧ Str.truthy (exn_str e) = true ∧ files w1 = files w)
   ∨ (r = Ret tt ∧ files w1 = files w)
   ∨ (r = Ret tt ∧ files w !! d = None
      ∧ files w1 = <[d := Dir true]> (files w))).
Proof.
  unfold mkdir. destruct (files w !! d) as [[c rd wr|b]|] eqn:Hd.
  - intros [= <- <-]. split; [done|]. left. eauto using os_error_truthy.
  - intros [= <- <-]. eauto.
  - destruct (create_error (files w) d); intros [= <- <-].
    + split; [done|]. left. eauto using os_error_truthy.
    + eauto 10.
Qed.

(** Renaming a regular file. *)
Lemma rename_inv src dst c rd wr w r w1 :
  files w !! src = Some (File c rd wr) →
  rename src dst w = (r, w1) →
  writes w1 = writes w ∧
  ((∃ e, r = Raise e ∧ Str.truthy (exn_str e) = true ∧ files w1 = files w)
   ∨ (r = Ret tt
      ∧ files w1 = <[dst := File c rd wr]> (delete src (files w)))).
Proof.
  intros Hsrc. unfold rename. rewrite Hsrc. case_bool_decide as Hsd.
  - intros [= <- <-]. split; [done|]. right. split; [done|]. subst dst.
    by rewrite insert_delete_eq, insert_id.
  - destruct (remove_error (files w) src);
      [intros [= <- <-]; eauto 10 using os_error2_truthy|].
    destruct (create_error (files w) dst);
      [intros [= <- <-]; eauto 10 using os_error2_truthy|].
    destruct (files w !! dst) as [[]|]; intros [= <- <-];
      eauto 10 using os_error2_truthy.
Qed.

Lemma unlink_inv p w r w1 :
  unlink p w = (r, w1) →
  writes w1 = writes w ∧
  ((∃ e, r = Raise e ∧ Str.truthy (exn_str e) = true ∧ files w1 = files w)
   ∨ (r = Ret tt ∧ files w1 = delete p (files w))).
Proof.
  unfold unlink. destruct (files w !! p) as [[c rd wr|b]|].
  - destruct (remove_error (files w) p); intros [= <- <-];
      eauto 10 using os_error_truthy.
  - intros [= <- <-]. eauto 10 using os_error_truthy.
  - intros [= <- <-]. eauto 10 using os_error_truthy.
Qed.

Lemma with_suffix_inv p s w r w1 :
  with_suffix p s w = (r, w1) →
  w1 = w ∧
  ((∃ e, r = Raise e ∧ Str.truthy (exn_str e) = true
      ∧ PathLib.with_suffix p s = None)
   ∨ (∃ q, r = Ret q ∧ PathLib.with_suffix p s = Some q)).
Proof.
  unfold with_suffix. destruct (PathLib.with_suffix p s);
    intros [= <- <-]; eauto 10.
Qed.

(** ** The metadata store *)

Lemma parse_members_NoDup fuel : ∀ s d d',
  Json.parse_members fuel s d = Some d' → NoDup d.*1 → NoDup d'.*1.
Proof.
  induction fuel as [|fuel IH]; intros s d d'; simpl; [done|].
  intros H Hd. repeat case_match; simplify_eq; eauto using dict_set_NoDup.
Qed.

Lemma loads_NoDup s d : Json.loads s = Some d → NoDup d.*1.
Proof.
  unfold Json.loads. intros H. repeat case_match; simplify_eq.
  - constructor.
  - eapply parse_members_NoDup; [done|constructor].
Qed.

Lemma set_error_message_record st em d :
  NoDup d.*1 → Json.dict_get "status" d = Some st →
  is_record st em (set_error_message em d).
Proof.
  intros Hd Hst. unfold set_error_message.
  destruct em as [msg|]; [destruct (Str.truthy msg) eqn:Hm|].
  - split_and!; [by apply dict_set_NoDup|by rewrite dict_get_set_ne|].
    intros ? [= <-] _. apply dict_get_set_eq.
  - split_and!; [done..|]. by intros ? [= <-] ?; congruence.
  - split_and!; [done..|]. done.
Qed.

Lemma status_of_record st em d :
  is_record st em d → status_of (Json.dumps d) = Some st.
Proof. intros (Hd & Hst & _). unfold status_of. by rewrite loads_dumps. Qed.

Lemma error_message_of_record st msg d :
  is_record st (Some msg) d → Str.truthy msg = true →
  error_message_of (Json.dumps d) = Some msg.
Proof.
  intros (Hd & _ & Hm) Ht. unfold error_message_of. rewrite loads_dumps by done.
  by apply Hm.
Qed.

Lemma create_meta_inv mp nm st w r w1 :
  FileProcessor._create_meta_file mp nm st None w = (r, w1) →
  (∃ e, r = Raise e ∧ Str.truthy (exn_str e) = true
     ∧ files w1 = files w ∧ writes w1 = writes w
     ∧ is_Some (write_error (files w) mp))
  ∨ (∃ d, r = Ret tt ∧ is_record st None d
     ∧ write_error (files w) mp = None
     ∧ files w1 = <[mp := written_node (files w) mp (Json.dumps d)]> (files w)
     ∧ writes w1 = writes w ++ [(mp, Json.dumps d)]).
Proof.
  unfold FileProcessor._create_meta_file, bind, now_isoformat.
  intros H. apply write_text_inv in H as [(e & -> & ? & -> & ?)|(-> & ? & ? & ?)].
  - left. eauto 10.
  - right. eexists. split_and!; [done| |done..].
    apply (set_error_message_record _ None); [|done].
    apply (NoDup_ListNoDup ["status"; "last_updated"; "original_filename"]).
    repeat constructor; simpl; intuition discriminate.
Qed.

Lemma update_meta_inv mp st em w r w1 :
  FileProcessor._update_meta_file mp st em w = (r, w1) →
  ∃ l, r = Ret tt ∧ writes w1 = writes w ++ l
       ∧ updated mp st em (files w) (files w1) l.
Proof.
  unfold FileProcessor._update_meta_file, try_except, bind, updated.
  destruct (read_text mp w) as [[text|e] w2] eqn:Hr;
    apply read_text_inv in Hr as [-> Hr].
  - destruct Hr as [(? & ? & ? & ?)|(c & wr & [= <-] & Hmp)]; [done|].
    unfold json_load. destruct (Json.loads text) as [d|] eqn:Hd; simpl.
    + unfold now_isoformat.
      match goal with |- context [write_text mp ?c ?w'] =>
        destruct (write_text mp c w') as [r' w3] eqn:Hw end.
      apply write_text_inv in Hw
        as [(e & -> & ? & -> & ?)|(-> & ? & ? & ?)]; intros [= <- <-].
      * exists []. rewrite app_nil_r. split_and!; [done..|]. left. eauto.
      * eexists. split_and!; [done..|]. right. eexists.
        split_and!; [|done|by eauto|done..].
        apply set_error_message_record.
        -- apply dict_set_NoDup, dict_set_NoDup. by eapply loads_NoDup.
        -- rewrite dict_get_set_ne by done. apply dict_get_set_eq.
    + intros [= <- <-]. exists []. rewrite app_nil_r.
      split_and!; [done..|]. left. split_and!; [done..|].
      left. intros c' wr' Hc'. rewrite Hmp in Hc'. by injection Hc' as <- _.
  - destruct Hr as [(e' & [= <-] & Ht & Hno)|(c' & wr' & ? & ?)]; [|done].
    intros [= <- <-]. exists []. rewrite app_nil_r.
    split_and!; [done..|]. left. split_and!; [done..|].
    left. intros c' wr' Hc'. by edestruct Hno.
Qed.

Lemma read_file_inv p w r w1 :
  FileProcessor._read_file p w = (r, w1) →
  w1 = w ∧
  ((r = Ret None ∧ ∀ c wr, files w !! p ≠ Some (File c true wr))
   ∨ (∃ c wr, r = Ret (Some c) ∧ files w !! p = Some (File c true wr))).
Proof.
  unfold FileProcessor._read_file, try_except, bind.
  destruct (read_text p w) as [[text|e] w2] eqn:Hr;
    apply read_text_inv in Hr as [-> Hr]; intros [= <- <-]; (split; [done|]).
  - destruct Hr as [(? & ? & ? & ?)|(c & wr & [= <-] & Hmp)]; [done|]. eauto.
  - destruct Hr as [(? & [= <-] & ? & Hno)|(? & ? & ? & ?)]; [|done]. eauto.
Qed.

Lemma write_file_inv p c w r w1 :
  FileProcessor._write_file p c w = (r, w1) →
  (r = Ret false ∧ w1 = w ∧ is_Some (write_error (files w) p))
  ∨ (r = Ret true ∧ write_error (files w) p = None
     ∧ files w1 = <[p := written_node (files w) p c]> (files w)
     ∧ writes w1 = writes w ++ [(p, c)]).
Proof.
  unfold FileProcessor._write_file, try_except, bind.
  destruct (write_text p c w) as [r' w2] eqn:Hw.
  apply write_text_inv in Hw as [(e & -> & He & -> & Hb)|(-> & Hf & Hm & Hws)];
    intros [= <- <-]; eauto 10.
Qed.

(** ** The places of a task's files *)

Lemma task_suffix_truthy p : is_task p → Str.truthy (PathLib.name p) = true.
Proof.
  unfold is_task, PathLib.suffix. by destruct (PathLib.name p).
Qed.

Lemma task_meta_path p :
  is_task p → PathLib.with_suffix p ".meta" = Some (meta_path_of p).
Proof.
  intros H. unfold PathLib.with_suffix. by rewrite task_suffix_truthy.
Qed.

Lemma task_processed_path p :
  is_task p → PathLib.with_suffix p ".processed" = Some (processed_path_of p).
Proof.
  intros H. unfold PathLib.with_suffix. by rewrite task_suffix_truthy.
Qed.

Lemma meta_processed_names p :
  PathLib.name (meta_path_of p) ≠ PathLib.name (processed_path_of p).
Proof.
  unfold meta_path_of, processed_path_of. rewrite !name_joinpath.
  intros H. by apply String.app_inj in H.
Qed.

Lemma task_meta_name p :
  is_task p → PathLib.name (meta_path_of p) ≠ PathLib.name p.
Proof.
  intros H. eapply with_suffix_ne_self; [|by apply task_meta_path].
  by rewrite H.
Qed.

Lemma task_processed_name p :
  is_task p → PathLib.name (processed_path_of p) ≠ PathLib.name p.
Proof.
  intros H. eapply with_suffix_ne_self; [|by apply task_processed_path].
  by rewrite H.
Qed.

Lemma relocated_name p : PathLib.name (relocated p) = PathLib.name p.
Proof. apply name_joinpath. Qed.

(** The paths the watcher puts in the queue are tasks. *)
Lemma on_created_tasks ev (q : queue) :
  Forall (fun x => ∀ p, x = Some p → is_task p) q →
  Forall (fun x => ∀ p, x = Some p → is_task p)
    (FileWatcher.on_created ev q).
Proof.
  intros Hq. unfold FileWatcher.on_created.
  destruct (FileWatcher.is_directory ev); [done|].
  destruct (String.eqb_spec (PathLib.suffix (FileWatcher.src_path ev))
              Config.FILE_EXTENSION) as [Hs|_]; [|done].
  apply Forall_app. split; [done|].
  apply Forall_singleton. by intros p [= <-].
Qed.

(** The paths of a task that never coincide. *)
Lemma task_paths p :
  is_task p →
  let mp := meta_path_of p in
  let pp := processed_path_of p in
  mp ≠ p ∧ pp ≠ p ∧ mp ≠ pp
  ∧ mp ≠ relocated p ∧ mp ≠ relocated pp
  ∧ pp ≠ relocated p ∧ p ≠ relocated pp
  ∧ relocated p ≠ relocated pp.
Proof.
  intros H mp pp.
  pose proof (task_meta_name p H). pose proof (task_processed_name p H).
  pose proof (meta_processed_names p).
  subst mp pp.
  split_and!; apply name_ne_path; rewrite ?relocated_name; congruence.
Qed.

(** ** Relocation *)

(** How far [_move_to_processed] gets on two regular files: the output
    directory, the original, the processed file, the metadata record. *)
Lemma move_inv p pp mp c rd wr c2 rd2 wr2 w r w1 :
  files w !! p = Some (File c rd wr) →
  files w !! pp = Some (File c2 rd2 wr2) →
  pp ≠ p → pp ≠ relocated p →
  FileProcessor._move_to_processed p pp mp w = (r, w1) →
  writes w1 = writes w ∧
  ∃ m0,
    (m0 = files w
     ∨ (files w !! Config.PROCESSED_DIR = None
        ∧ m0 = <[Config.PROCESSED_DIR := Dir true]> (files w)))
    ∧ let m1 := <[relocated p := File c rd wr]> (delete p m0) in
      let m2 := <[relocated pp := File c2 rd2 wr2]> (delete pp m1) in
      ((∃ e, r = Raise e ∧ Str.truthy (exn_str e) = true
          ∧ (files w1 = m0 ∨ files w1 = m1 ∨ files w1 = m2))
       ∨ (r = Ret tt ∧ files w1 = delete mp m2)).
Proof.
  intros Hp Hpp Hne1 Hne2.
  unfold FileProcessor._move_to_processed, bind.
  fold (relocated p). fold (relocated pp).
  destruct (mkdir Config.PROCESSED_DIR w) as [[[]|e] w2] eqn:Hmk;
    apply mkdir_inv in Hmk as [Hw2 Hmk].
  2:{ destruct Hmk as [(? & [= <-] & ? & Hf)|[(? & _)|(? & _)]]; try done.
      intros [= <- <-]. split; [done|]. exists (files w).
      split; [by left|]. left. eauto 10. }
  assert (∃ m0, files w2 = m0
     ∧ (m0 = files w
        ∨ (files w !! Config.PROCESSED_DIR = None
           ∧ m0 = <[Config.PROCESSED_DIR := Dir true]> (files w))))
    as (m0 & Hm0 & Hcases).
  { destruct Hmk as [(? & ? & _)|[(_ & Hf)|(_ & Hd & Hf)]]; [done|eauto..]. }
  clear Hmk.
  assert (m0 !! p = Some (File c rd wr) ∧ m0 !! pp = Some (File c2 rd2 wr2))
    as [Hp0 Hpp0].
  { destruct Hcases as [->|[Hd ->]]; [done|].
    rewrite !lookup_insert_ne by congruence. done. }
  destruct (rename p (relocated p) w2) as [[[]|e] w3] eqn:Hr1;
    (eapply rename_inv in Hr1 as [Hw3 Hr1]; [|by rewrite Hm0]).
  2:{ destruct Hr1 as [(? & [= <-] & ? & Hf)|(? & _)]; [|done].
      intros [= <- <-]. split; [congruence|]. exists m0.
      split; [done|]. left. eexists. split_and!; [done..|]. left. congruence. }
  destruct Hr1 as [(? & ? & _)|(_ & Hf3)]; [done|]. rewrite Hm0 in Hf3.
  destruct (rename pp (relocated pp) w3) as [[[]|e] w4] eqn:Hr2;
    (eapply rename_inv in Hr2 as [Hw4 Hr2];
     [|by rewrite Hf3, lookup_insert_ne, lookup_delete_ne]).
  2:{ destruct Hr2 as [(? & [= <-] & ? & Hf)|(? & _)]; [|done].
      intros [= <- <-]. split; [congruence|]. exists m0.
      split; [done|]. left. eexists. split_and!; [done..|].
      right; left. congruence. }
  destruct Hr2 as [(? & ? & _)|(_ & Hf4)]; [done|]. rewrite Hf3 in Hf4.
  unfold exists_. case_bool_decide as Hex.
  - destruct (unlink mp w4) as [[[]|e] w5] eqn:Hu;
      apply unlink_inv in Hu as [Hw5 Hu].
    + destruct Hu as [(? & ? & _)|(_ & Hf5)]; [done|].
      intros [= <- <-]. split; [congruence|]. exists m0.
      split; [done|]. right. split; [done|]. congruence.
    + destruct Hu as [(? & [= <-] & ? & Hf)|(? & _)]; [|done].
      intros [= <- <-]. split; [congruence|]. exists m0.
      split; [done|]. left. eexists. split_and!; [done..|].
      right; right. congruence.
  - intros [= <- <-]. split; [congruence|]. exists m0.
    split; [done|]. right. split; [done|].
    rewrite delete_id; [done|]. rewrite <- Hf4.
    by apply eq_None_not_Some.
Qed.

Lemma rename_writes src dst w r w1 :
  rename src dst w = (r, w1) → writes w1 = writes w.
Proof.
  unfold rename, set_files. intros H.
  repeat case_match; by simplify_eq.
Qed.

Lemma move_writes p pp mp w r w1 :
  FileProcessor._move_to_processed p pp mp w = (r, w1) →
  writes w1 = writes w.
Proof.
  unfold FileProcessor._move_to_processed, bind, exists_. intros H.
  destruct (mkdir _ w) as [[[]|?] w2] eqn:H1; apply mkdir_inv in H1 as [E1 _];
    [|by simplify_eq].
  destruct (rename p _ w2) as [[[]|?] w3] eqn:H2;
    apply rename_writes in H2; [|simplify_eq; congruence].
  destruct (rename pp _ w3) as [[[]|?] w4] eqn:H3;
    apply rename_writes in H3; [|simplify_eq; congruence].
  case_bool_decide; [|unfold ret in H; simplify_eq; congruence].
  apply unlink_inv in H as [E4 _]. congruence.
Qed.

(** ** The file state machine *)

Lemma rename_raise src dst w e w1 :
  rename src dst w = (Raise e, w1) → Str.truthy (exn_str e) = true.
Proof.
  unfold rename. intros H.
  repeat case_match; simplify_eq; apply os_error2_truthy.
Qed.

Lemma move_raise p pp mp w e w1 :
  FileProcessor._move_to_processed p pp mp w = (Raise e, w1) →
  Str.truthy (exn_str e) = true.
Proof.
  unfold FileProcessor._move_to_processed, bind, exists_. intros H.
  destruct (mkdir _ w) as [[[]|?] w2] eqn:H1; apply mkdir_inv in H1 as [_ H1].
  2:{ destruct H1 as [(? & ? & ? & ?)|[(? & ?)|(? & ?)]]; by simplify_eq. }
  destruct (rename p _ w2) as [[[]|?] w3] eqn:H2;
    [|simplify_eq; by eapply rename_raise].
  destruct (rename pp _ w3) as [[[]|?] w4] eqn:H3;
    [|simplify_eq; by eapply rename_raise].
  case_bool_decide; [|by unfold ret in H].
  apply unlink_inv in H as [_ [(? & ? & ? & ?)|(? & ?)]]; by simplify_eq.
Qed.

(** The steps of [process_file] under its handler follow one of the ways
    of [steps_summary]. *)
Lemma steps_inv p mp pp w r w' :
  PathLib.with_suffix p ".processed" = Some pp →
  try_except (FileProcessor.process_steps p mp)
    (fun e =>
       FileProcessor._update_meta_file mp "failed" (Some (exn_str e));;
       ret false) w = (r, w') →
  ∃ b l, r = Ret b ∧ writes w' = writes w ++ l
         ∧ steps_summary p mp pp (files w) b (files w') l.
Proof.
  intros Hpp. unfold try_except, FileProcessor.process_steps, bind.
  destruct (FileProcessor._create_meta_file _ _ _ _ w) as [r1 w1] eqn:Hc.
  apply create_meta_inv in Hc
    as [(e & -> & He & Hf1 & Hw1 & Hblocked)
       |(d1 & -> & Hd1 & Hfree & Hf1 & Hw1)].
  { (* the record cannot be created: the handler cannot write it either *)
    destruct (FileProcessor._update_meta_file _ _ _ w1) as [r2 w2] eqn:Hu.
    apply update_meta_inv in Hu as (l & -> & Hw2 & Hu). intros [= <- <-].
    destruct Hu as [(Hf2 & -> & _)|(d & _ & Hfree & _)].
    - exists false, []. split_and!; [done|congruence|].
      rewrite Hf2, Hf1. by constructor.
    - rewrite Hf1 in Hfree. rewrite Hfree in Hblocked. by destruct Hblocked. }
  destruct (FileProcessor._read_file p w1) as [r2 w2] eqn:Hr.
  apply read_file_inv in Hr as [-> [[-> Hno]|(c & wr & -> & Hp)]].
  { (* the source cannot be read *)
    destruct (FileProcessor._update_meta_file _ _ _ w1) as [r3 w3] eqn:Hu.
    apply update_meta_inv in Hu as (l & -> & Hw3 & Hu). intros [= <- <-].
    exists false, ((mp, Json.dumps d1) :: l).
    split_and!; [done|by rewrite Hw3, Hw1, <- app_assoc|].
    rewrite Hf1 in Hno, Hu. by econstructor. }
  unfold with_suffix. rewrite Hpp. unfold ret at 1.
  destruct (FileProcessor._write_file pp _ w1) as [r3 w3] eqn:Hwr.
  apply write_file_inv in Hwr
    as [(-> & -> & Hblocked)|(-> & Hfree2 & Hf3 & Hw3)]; simpl.
  { (* the processed file cannot be written *)
    destruct (FileProcessor._update_meta_file _ _ _ w1) as [r4 w4] eqn:Hu.
    apply update_meta_inv in Hu as (l & -> & Hw4 & Hu). intros [= <- <-].
    exists false, ((mp, Json.dumps d1) :: l).
    split_and!; [done|by rewrite Hw4, Hw1, <- app_assoc|].
    rewrite Hf1 in Hp, Hu, Hblocked. by econstructor. }
  destruct (FileProcessor._update_meta_file _ _ _ w3) as [r4 w4] eqn:Hu.
  apply update_meta_inv in Hu as (l3 & -> & Hw4 & Hu).
  destruct (FileProcessor._move_to_processed _ _ _ w4) as [[[]|e] w5] eqn:Hm.
  - (* relocated *)
    intros [= <- <-].
    exists true, ((mp, Json.dumps d1) :: (pp, Str.upper c) :: l3).
    split_and!; [done| |].
    + apply move_writes in Hm as ->.
      by rewrite Hw4, Hw3, Hw1, <- !app_assoc.
    + rewrite Hf3, Hf1 in Hu. rewrite Hf1 in Hp, Hfree2.
      econstructor; [done..|]. by exists w4, w5.
  - (* relocation failed *)
    destruct (FileProcessor._update_meta_file _ _ _ w5) as [r6 w6] eqn:Hu2.
    apply update_meta_inv in Hu2 as (l & -> & Hw6 & Hu2). intros [= <- <-].
    exists false, ((mp, Json.dumps d1) :: (pp, Str.upper c) :: l3 ++ l).
    split_and!; [done| |].
    + pose proof (move_writes _ _ _ _ _ _ Hm) as Hw5.
      by rewrite Hw6, Hw5, Hw4, Hw3, Hw1, <- !app_assoc.
    + rewrite Hf3, Hf1 in Hu. rewrite Hf1 in Hp, Hfree2.
      econstructor; [done..| |by eapply move_raise|done].
      by exists w4, w5.
Qed.

Lemma with_suffix_Some p s q :
  PathLib.with_suffix p s = Some q →
  Str.truthy (PathLib.name p) = true
  ∧ q = PathLib.joinpath (PathLib.parent p)
          (PathLib.name_stem (PathLib.name p) +:+ s).
Proof.
  unfold PathLib.with_suffix. destruct (Str.truthy _); [|done].
  by intros [= <-].
Qed.

Lemma with_suffix_truthy p s :
  Str.truthy (PathLib.name p) = true →
  PathLib.with_suffix p s
  = Some (PathLib.joinpath (PathLib.parent p)
            (PathLib.name_stem (PathLib.name p) +:+ s)).
Proof. unfold PathLib.with_suffix. by intros ->. Qed.

(** [process_file] follows one of the ways of [file_summary]. *)
Lemma process_file_inv p w r w' :
  FileProcessor.process_file p w = (r, w') →
  ∃ b l, r = Ret b ∧ writes w' = writes w ++ l
         ∧ file_summary p (files w) b (files w') l.
Proof.
  unfold FileProcessor.process_file, bind at 1, try_except at 1, bind, _touch.
  destruct (touch p w) as [r1 w1] eqn:Ht.
  apply touch_inv in Ht as [Hw1 Ht].
  destruct Ht as [(e & -> & _ & Hf1 & Hp & Herr)|Ht].
  { intros [= <- <-]. exists false, []. rewrite app_nil_r.
    split_and!; [done..|]. rewrite Hf1. by constructor. }
  assert (r1 = Ret tt ∧ files w1 = touched (files w) p
          ∧ (is_Some (files w !! p) ∨ create_error (files w) p = None))
    as (-> & Hf1 & Hok).
  { unfold touched.
    destruct Ht as [(-> & Hf & [n Hn])|(-> & Hp & Hf & Hc)].
    - rewrite Hn. eauto.
    - rewrite Hp. eauto. }
  clear Ht.
  destruct (with_suffix p ".meta" w1) as [r2 w2] eqn:Hs.
  apply with_suffix_inv in Hs as [-> [(e & -> & _ & Hnone)|(mp & -> & Hmp)]].
  { intros [= <- <-]. exists false, []. rewrite app_nil_r.
    split_and!; [done..|]. rewrite Hf1. by constructor. }
  apply with_suffix_Some in Hmp as [Hname ->]. unfold ret at 1.
  intros H.
  apply (steps_inv _ _ (processed_path_of p)) in H
      as (b & l & -> & Hw' & Hsum); [|by apply with_suffix_truthy].
  exists b, l. split_and!; [done|congruence|].
  rewrite Hf1 in Hsum. by constructor.
Qed.

(** ** What a run writes *)

Lemma written_eq {A} (m : M A) w r w' l :
  m w = (r, w') → writes w' = writes w ++ l → written m w = l.
Proof.
  intros Hm Hw. unfold written. rewrite Hm. simpl. rewrite Hw.
  by rewrite drop_app_length.
Qed.

Lemma statuses_app mp l1 l2 :
  statuses mp (l1 ++ l2) = statuses mp l1 ++ statuses mp l2.
Proof. apply omap_app. Qed.

Lemma statuses_record mp st em d l :
  is_record st em d →
  statuses mp ((mp, Json.dumps d) :: l) = st :: statuses mp l.
Proof.
  intros Hd. unfold statuses. simpl. rewrite decide_True by done.
  by rewrite (status_of_record _ _ _ Hd).
Qed.

Lemma statuses_other mp q c l :
  q ≠ mp → statuses mp ((q, c) :: l) = statuses mp l.
Proof. intros Hq. unfold statuses. simpl. by rewrite decide_False. Qed.

Lemma statuses_updated mp st em m m' l :
  updated mp st em m m' l → statuses mp l = [] ∨ statuses mp l = [st].
Proof.
  intros [(_ & -> & _)|(d & Hd & _ & _ & _ & ->)]; [by left|right].
  by rewrite (statuses_record _ _ _ _ _ Hd).
Qed.

Lemma meta_ne_processed p : meta_path_of p ≠ processed_path_of p.
Proof. apply name_ne_path, meta_processed_names. Qed.

Lemma statuses_steps p m b m' l :
  steps_summary p (meta_path_of p) (processed_path_of p) m b m' l →
  forward_or_relocation_failed (statuses (meta_path_of p) l).
Proof.
  pose proof (meta_ne_processed p) as Hne.
  assert (∀ l : list string, [] `prefix_of` l) as Hnil by apply prefix_nil.
  unfold forward_or_relocation_failed.
  destruct 1 as [?|d1 m' l Hd1 ? m1 ? Hu|d1 c wr m' l Hd1 ? m1 ? ? Hu
                |d1 c wr m3 l3 e m4 m' l Hd1 ? m1 ? ? m2 Hu3 ? ? Hu
                |d1 c wr m3 l3 m' Hd1 ? m1 ? ? m2 Hu3 ?].
  - by left.
  - rewrite (statuses_record _ _ _ _ _ Hd1).
    apply statuses_updated in Hu as [->| ->];
      [left; by exists ["completed"; "failed"]|by right].
  - rewrite (statuses_record _ _ _ _ _ Hd1).
    apply statuses_updated in Hu as [->| ->];
      [left; by exists ["completed"; "failed"]|by right].
  - rewrite (statuses_record _ _ _ _ _ Hd1), statuses_other, statuses_app
      by done.
    apply statuses_updated in Hu3 as [->| ->],  Hu as [->| ->]; simpl.
    + left; by exists ["completed"; "failed"].
    + by right.
    + left; by exists ["failed"].
    + by left.
  - rewrite (statuses_record _ _ _ _ _ Hd1), statuses_other by done.
    apply statuses_updated in Hu3 as [->| ->].
    + left; by exists ["completed"; "failed"].
    + left; by exists ["failed"].
Qed.

(** C2, as the code has it: the statuses written to the record of a file
    are, in this order, [processing], then possibly [completed], then
    possibly [failed]; nothing is written after [failed], and [completed]
    is followed by [failed] only (when the relocation raises). *)
Theorem status_sequence p w :
  forward_or_relocation_failed
    (statuses (meta_path_of p) (written (FileProcessor.process_file p) w)).
Proof.
  destruct (FileProcessor.process_file p w) as [r w'] eqn:Hrun.
  pose proof Hrun as (b & l & -> & Hw & Hsum)%process_file_inv.
  rewrite (written_eq _ _ _ _ _ Hrun Hw).
  destruct Hsum as [| |b m' l _ _ Hsteps].
  - left. apply prefix_nil.
  - left. apply prefix_nil.
  - by eapply statuses_steps.
Qed.

Lemma readonly_output_statuses :
  statuses ["input"; "a.meta"]
    (written (FileProcessor.process_file ["input"; "a.txt"])
       (sample_world readonly_output))
  = ["processing"; "completed"; "failed"].
Proof. vm_compute. reflexivity. Qed.

(** C2 as stated fails: with an output directory that cannot be written
    to, the record of [input/a.txt] goes from [processing] to [completed]
    and then to [failed]. *)
Lemma status_sequence_revisited :
  statuses ["input"; "a.meta"]
    (written (FileProcessor.process_file ["input"; "a.txt"])
       (sample_world readonly_output))
  = ["processing"; "completed"; "failed"]
  ∧ ¬ forward_only
        (statuses (meta_path_of ["input"; "a.txt"])
           (written (FileProcessor.process_file ["input"; "a.txt"])
              (sample_world readonly_output))).
Proof.
  split; [apply readonly_output_statuses|].
  change (meta_path_of ["input"; "a.txt"]) with ["input"; "a.meta"].
  rewrite readonly_output_statuses.
  intros [[k Hk]|[k Hk]]; by simplify_eq/=.
Qed.

(** ** Errors stay inside the task *)

(** C7: whatever happens while a file is processed, [process_file]
    returns and does not raise; a worker that took a file from the queue
    goes on with the rest of the queue, whether the file failed or not. *)
Theorem errors_stay_in_the_task p q w :
  (∃ b w', FileProcessor.process_file p w = (Ret b, w'))
  ∧ FileProcessor.worker_step FileProcessor.__init__ (Some p :: q) w
    = (Ret (FileProcessor.Continue, q), (FileProcessor.process_file p w).2)
  ∧ ∀ fuel,
      FileProcessor.worker (S fuel) FileProcessor.__init__ (Some p :: q) w
      = FileProcessor.worker fuel FileProcessor.__init__ q
          (FileProcessor.process_file p w).2.
Proof.
  destruct (FileProcessor.process_file p w) as [r w'] eqn:Hrun.
  pose proof Hrun as (b & l & -> & _)%process_file_inv.
  assert (FileProcessor.worker_step FileProcessor.__init__ (Some p :: q) w
          = (Ret (FileProcessor.Continue, q), w')) as Hstep.
  { unfold FileProcessor.worker_step, try_except, bind. simpl.
    by rewrite Hrun. }
  split_and!; [by eauto|done|].
  intros fuel. simpl FileProcessor.worker. unfold bind at 1.
  by rewrite Hstep.
Qed.

(** ** Creating the record *)

(** C5, as the code has it: [_create_meta_file] fails exactly when the
    file cannot be opened for writing; otherwise it writes the record,
    and a record that is already there is replaced. *)
Theorem create_meta_file_replaces mp nm st w :
  ∃ r w',
    FileProcessor._create_meta_file mp nm st None w = (r, w')
    ∧ ((is_Some (write_error (files w) mp)
        ∧ (∃ e, r = Raise e) ∧ files w' = files w)
       ∨ (write_error (files w) mp = None ∧ r = Ret tt
          ∧ ∃ d, is_record st None d
                 ∧ files w' !! mp
                   = Some (written_node (files w) mp (Json.dumps d))))
    ∧ ∀ old rd, files w !! mp = Some (File old rd true) →
        r = Ret tt
        ∧ ∃ d, is_record st None d
               ∧ files w' !! mp = Some (File (Json.dumps d) rd true).
Proof.
  destruct (FileProcessor._create_meta_file mp nm st None w) as [r w'] eqn:Hc.
  exists r, w'. split; [done|].
  apply create_meta_inv in Hc
    as [(e & -> & _ & Hf & _ & Hb)|(d & -> & Hd & Hfree & Hf & _)].
  - split; [left; eauto|]. intros old rd Hold.
    unfold write_error in Hb. rewrite Hold in Hb. by destruct Hb.
  - assert (files w' !! mp
            = Some (written_node (files w) mp (Json.dumps d))) as Hmp
      by (by rewrite Hf, lookup_insert_eq).
    split; [right; eauto 10|]. intros old rd Hold. split; [done|].
    exists d. split; [done|]. rewrite Hmp. unfold written_node.
    by rewrite Hold.
Qed.

(** C5 as stated fails: the record left by an earlier run is replaced,
    and the call returns. *)
Lemma create_meta_file_existing :
  is_Some (stale_record !! ["input"; "a.meta"])
  ∧ ∃ w',
      FileProcessor._create_meta_file ["input"; "a.meta"] "a.txt"
        "processing" None (sample_world stale_record) = (Ret tt, w')
      ∧ ∃ text, files w' !! ["input"; "a.meta"] = Some (File text true true)
                ∧ text ≠ "stale"
                ∧ status_of text = Some "processing".
Proof.
  split; [by vm_compute; eauto|].
  eexists. split; [vm_compute; reflexivity|].
  eexists. split_and!; [vm_compute; reflexivity|done|vm_compute; reflexivity].
Qed.

(** ** The files of a task through a run *)

Lemma updated_lookup_ne mp st em m m' l q :
  updated mp st em m m' l → q ≠ mp → m' !! q = m !! q.
Proof.
  intros [(-> & _)|(d & _ & _ & _ & -> & _)] Hq; [done|].
  by rewrite lookup_insert_ne.
Qed.

Lemma updated_lookup_eq mp st em m m' l :
  updated mp st em m m' l → is_file m mp → is_file m' mp.
Proof.
  intros [(-> & _)|(d & _ & _ & _ & -> & _)] Hq; [done|].
  destruct (written_node_file m mp (Json.dumps d)) as (rd & wr & Hn).
  exists (Json.dumps d), rd, wr. by rewrite lookup_insert_eq, Hn.
Qed.

(** The files of a task when the relocation starts. *)
Lemma task_before_relocation p m d1 c wr m3 l3 :
  is_task p →
  let mp := meta_path_of p in
  let pp := processed_path_of p in
  let m1 := <[mp := written_node m mp (Json.dumps d1)]> m in
  let m2 := <[pp := written_node m1 pp (Str.upper c)]> m1 in
  m1 !! p = Some (File c true wr) →
  updated mp "completed" None m2 m3 l3 →
  m !! p = Some (File c true wr)
  ∧ m3 !! p = Some (File c true wr)
  ∧ (∃ rd2 wr2, m3 !! pp = Some (File (Str.upper c) rd2 wr2))
  ∧ m2 !! mp = Some (written_node m mp (Json.dumps d1))
  ∧ is_file m3 mp.
Proof.
  intros Htask mp pp m1 m2 Hp Hu.
  destruct (task_paths p Htask) as (Hmp_p & Hpp_p & Hmp_pp & _).
  fold mp pp in Hmp_p, Hpp_p, Hmp_pp.
  assert (m2 !! mp = Some (written_node m mp (Json.dumps d1))) as Hmp2.
  { subst m2 m1. by rewrite lookup_insert_ne, lookup_insert_eq. }
  split_and!.
  - subst m1. by rewrite lookup_insert_ne in Hp.
  - rewrite (updated_lookup_ne _ _ _ _ _ _ p Hu) by done.
    subst m2. by rewrite lookup_insert_ne.
  - destruct (written_node_file m1 pp (Str.upper c)) as (rd2 & wr2 & Hn).
    exists rd2, wr2.
    rewrite (updated_lookup_ne _ _ _ _ _ _ pp Hu) by done.
    subst m2. by rewrite lookup_insert_eq, Hn.
  - done.
  - eapply updated_lookup_eq; [done|].
    destruct (written_node_file m mp (Json.dumps d1)) as (rd & wr' & Hn).
    exists (Json.dumps d1), rd, wr'. by rewrite Hmp2, Hn.
Qed.

(** How far the relocation of a task gets. *)
Lemma relocation_task p m3 c rd wr c2 rd2 wr2 r m' :
  is_task p →
  let mp := meta_path_of p in
  let pp := processed_path_of p in
  m3 !! p = Some (File c rd wr) →
  m3 !! pp = Some (File c2 rd2 wr2) →
  relocation p pp mp m3 r m' →
  ∃ m0,
    (m0 = m3
     ∨ (m3 !! Config.PROCESSED_DIR = None
        ∧ m0 = <[Config.PROCESSED_DIR := Dir true]> m3))
    ∧ let mv1 := <[relocated p := File c rd wr]> (delete p m0) in
      let mv2 := <[relocated pp := File c2 rd2 wr2]> (delete pp mv1) in
      ((∃ e, r = Raise e ∧ (m' = m0 ∨ m' = mv1 ∨ m' = mv2))
       ∨ (r = Ret tt ∧ m' = delete mp mv2)).
Proof.
  intros Htask mp pp Hp Hpp (w & w' & <- & <- & Hmove).
  destruct (task_paths p Htask) as (_ & Hpp_p & _ & _ & _ & Hpp_r & _).
  eapply move_inv in Hmove as (_ & m0 & Hm0 & Hcases); [|done..].
  exists m0. split; [done|].
  destruct Hcases as [(e & -> & _ & H)|(-> & H)]; [left|right]; eauto.
Qed.

(** Where the files of a task are at each stage of the relocation. *)
Lemma relocation_stages (p : path) (m3 : gmap path node) (n n2 : node)
    (m0 : gmap path node) :
  is_task p →
  let mp := meta_path_of p in
  let pp := processed_path_of p in
  m3 !! p = Some n → m3 !! pp = Some n2 → is_Some (m3 !! mp) →
  (m0 = m3
   ∨ (m3 !! Config.PROCESSED_DIR = None
      ∧ m0 = <[Config.PROCESSED_DIR := Dir true]> m3)) →
  let mv1 := <[relocated p := n]> (delete p m0) in
  let mv2 := <[relocated pp := n2]> (delete pp mv1) in
  (m0 !! mp = m3 !! mp ∧ m0 !! p = Some n)
  ∧ (mv1 !! mp = m3 !! mp ∧ mv1 !! relocated p = Some n)
  ∧ (mv2 !! mp = m3 !! mp ∧ mv2 !! relocated p = Some n
     ∧ mv2 !! relocated pp = Some n2).
Proof.
  intros Htask mp pp Hp Hpp Hmp Hm0 mv1 mv2.
  destruct (task_paths p Htask)
    as (Hmp_p & Hpp_p & Hmp_pp & Hmp_r & Hmp_rr & Hpp_r & Hp_rr & Hr_rr).
  fold mp pp in Hmp_p, Hpp_p, Hmp_pp, Hmp_r, Hmp_rr, Hpp_r, Hp_rr, Hr_rr.
  assert (m0 !! mp = m3 !! mp ∧ m0 !! p = Some n) as [Hmp0 Hp0].
  { destruct Hm0 as [->|[Hd ->]]; [done|].
    rewrite !lookup_insert_ne; [done|congruence|].
    intros <-. rewrite Hd in Hmp. by destruct Hmp. }
  assert (mv1 !! mp = m3 !! mp) as Hmp1.
  { subst mv1. by rewrite lookup_insert_ne, lookup_delete_ne. }
  split_and!; try done.
  - subst mv1. by rewrite lookup_insert_eq.
  - subst mv2. by rewrite lookup_insert_ne, lookup_delete_ne.
  - subst mv2 mv1.
    by rewrite lookup_insert_ne, lookup_delete_ne, lookup_insert_eq.
  - subst mv2. by rewrite lookup_insert_eq.
Qed.

(** ** A completed task *)

(** A successful run on a task: what was read, and where it ends up. *)
Lemma completed_run p w w' :
  is_task p →
  FileProcessor.process_file p w = (Ret true, w') →
  ∃ c wr rd2 wr2 l3,
    touched (files w) p !! p = Some (File c true wr)
    ∧ files w' !! relocated p = Some (File c true wr)
    ∧ files w' !! relocated (processed_path_of p)
      = Some (File (Str.upper c) rd2 wr2)
    ∧ files w' !! meta_path_of p = None
    ∧ contents (processed_path_of p) l3 = []
    ∧ ∃ text,
        written (FileProcessor.process_file p) w
        = (meta_path_of p, text) :: (processed_path_of p, Str.upper c) :: l3.
Proof.
  intros Htask Hrun.
  pose proof Hrun as (b & l & [= <-] & Hw & Hsum)%process_file_inv.
  rewrite (written_eq _ _ _ _ _ Hrun Hw).
  inversion Hsum as [| |b m' l' _ _ Hsteps]; subst.
  inversion Hsteps as [| | | |d1 c wr m3 l3 m'' Hd1 Hfree m1 Hp Hfree2 m2 Hu Hrel];
    subst.
  destruct (task_before_relocation p _ d1 c wr m3 l3 Htask Hp Hu)
    as (Hp0 & Hp3 & (rd2 & wr2 & Hpp3) & _ & (? & ? & ? & Hmp3)).
  destruct (relocation_task p m3 _ _ _ _ _ _ _ _ Htask Hp3 Hpp3 Hrel)
    as (m0 & Hm0 & [(e & ? & _)|(_ & ->)]); [done|].
  destruct (relocation_stages p m3 _ _ m0 Htask Hp3 Hpp3 (mk_is_Some _ _ Hmp3)
              Hm0) as (_ & _ & Hmp & Hr & Hrr).
  destruct (task_paths p Htask) as (_ & _ & Hmp_pp & Hmp_r & Hmp_rr & _).
  exists c, wr, rd2, wr2, l3.
  rewrite !lookup_delete_ne by done.
  split_and!; [done..|apply lookup_delete_eq| |by eauto].
  destruct Hu as [(_ & -> & _)|(d & _ & _ & _ & _ & ->)]; [done|].
  unfold contents. simpl. by rewrite decide_False.
Qed.

(** C1, as the code has it: when [process_file] reports success on a
    task, the original and the processed file, with the upper-cased
    content, are in the output directory and the metadata record is gone.
    (A record that says [completed] does not ensure this: the relocation
    that follows may fail.) *)
Theorem completion_invariant p w w' :
  is_task p →
  FileProcessor.process_file p w = (Ret true, w') →
  ∃ c rd wr rd2 wr2,
    files w' !! relocated p = Some (File c rd wr)
    ∧ files w' !! relocated (processed_path_of p)
      = Some (File (Str.upper c) rd2 wr2)
    ∧ files w' !! meta_path_of p = None.
Proof.
  intros Htask Hrun.
  destruct (completed_run p w w' Htask Hrun)
    as (c & wr & rd2 & wr2 & _ & _ & Hr & Hrr & Hmp & _).
  by exists c, true, wr, rd2, wr2.
Qed.

Lemma completion_invariant_witness :
  ∃ c rd wr rd2 wr2,
    files (FileProcessor.process_file ["input"; "a.txt"]
             (sample_world sample_files)).2 !! relocated ["input"; "a.txt"]
    = Some (File c rd wr)
    ∧ files (FileProcessor.process_file ["input"; "a.txt"]
               (sample_world sample_files)).2
        !! relocated (processed_path_of ["input"; "a.txt"])
      = Some (File (Str.upper c) rd2 wr2)
    ∧ files (FileProcessor.process_file ["input"; "a.txt"]
               (sample_world sample_files)).2
        !! meta_path_of ["input"; "a.txt"] = None.
Proof.
  apply (completion_invariant ["input"; "a.txt"] (sample_world sample_files)).
  - reflexivity.
  - vm_compute. reflexivity.
Defined.

(** C1 as stated fails: with an output directory that cannot be written
    to, the record of [input/a.txt] reaches [completed], and yet neither
    file is in the output directory and the record is still there. *)
Lemma completed_without_relocation :
  let w' := (FileProcessor.process_file ["input"; "a.txt"]
               (sample_world readonly_output)).2 in
  is_task ["input"; "a.txt"]
  ∧ "completed" ∈ statuses ["input"; "a.meta"]
                    (written (FileProcessor.process_file ["input"; "a.txt"])
                       (sample_world readonly_output))
  ∧ files w' !! ["processed"; "a.txt"] = None
  ∧ files w' !! ["processed"; "a.processed"] = None
  ∧ is_Some (files w' !! ["input"; "a.meta"]).
Proof.
  split_and!.
  - reflexivity.
  - rewrite readonly_output_statuses. set_solver.
  - vm_compute. reflexivity.
  - vm_compute. reflexivity.
  - vm_compute. eauto.
Qed.

(** ** A failed task *)

Lemma truthy_ne_empty s : Str.truthy s = true → s ≠ "".
Proof. by destruct s. Qed.

(** A [failed] among the statuses an update wrote: the record is there,
    with the status and the message passed. *)
Lemma updated_failed mp msg m m' l :
  updated mp "failed" (Some msg) m m' l →
  Str.truthy msg = true →
  "failed" ∈ statuses mp l →
  (∃ text rd wr,
      m' !! mp = Some (File text rd wr)
      ∧ status_of text = Some "failed"
      ∧ error_message_of text = Some msg)
  ∧ (∀ q, q ≠ mp → m' !! q = m !! q)
  ∧ write_error m mp = None
  ∧ ∃ c wr, m !! mp = Some (File c true wr) ∧ is_Some (Json.loads c).
Proof.
  intros Hu Hmsg Hin. pose proof Hu as Hu'.
  destruct Hu as [(_ & -> & _)|(d & Hd & Hfree & Hrec & -> & ->)].
  { by apply elem_of_nil in Hin. }
  split_and!; [|by eauto using updated_lookup_ne|done..].
  destruct (written_node_file m mp (Json.dumps d)) as (rd & wr & Hn).
  exists (Json.dumps d), rd, wr. rewrite lookup_insert_eq, Hn.
  split_and!; [done|by eapply status_of_record|].
  by eapply error_message_of_record.
Qed.

(** An update that could not rewrite the record cannot do so later, as
    long as the record stays as it is. *)
Lemma updated_silent_stays mp st em st' em' m m' m4 m5 l :
  updated mp st em m m' [] →
  is_file m mp →
  m4 !! mp = m !! mp →
  updated mp st' em' m4 m5 l →
  l = [].
Proof.
  intros [(_ & _ & Hwhy)|(d & _ & _ & _ & _ & ?)] (c0 & rd0 & wr0 & Hmp) Heq;
    [|done].
  intros [(_ & -> & _)|(d & _ & Hfree & (c & wr & Hc & Hl) & _)]; [done|].
  rewrite Heq, Hmp in Hc. injection Hc as -> -> ->.
  destruct Hwhy as [Hno|Hblocked].
  - rewrite (Hno _ _ Hmp) in Hl. by destruct Hl.
  - unfold write_error in Hfree, Hblocked.
    rewrite Heq, Hmp in Hfree. rewrite Hmp in Hblocked.
    rewrite Hfree in Hblocked. by destruct Hblocked.
Qed.

Lemma updated_completed mp m m' l :
  updated mp "completed" None m m' l →
  (l = [] ∧ statuses mp l = []) ∨ statuses mp l = ["completed"].
Proof.
  intros [(_ & -> & _)|(d & Hd & _ & _ & _ & ->)]; [by left|right].
  by rewrite (statuses_record _ _ _ _ _ Hd).
Qed.

(** C3, as the code has it: when the record of a task reaches [failed],
    the call reports failure and the record is still there, with status
    [failed] and a non-empty error message.  The original file is where
    it was whenever [failed] was recorded without [completed] before it
    (the source could not be read, the processed file could not be
    written); when the relocation failed, the original is where it was or
    already in the output directory. *)
Theorem failure_invariant p w b w' n :
  is_task p →
  files w !! p = Some n →
  FileProcessor.process_file p w = (Ret b, w') →
  "failed" ∈ statuses (meta_path_of p)
               (written (FileProcessor.process_file p) w) →
  b = false
  ∧ (∃ text rd wr msg,
       files w' !! meta_path_of p = Some (File text rd wr)
       ∧ status_of text = Some "failed"
       ∧ error_message_of text = Some msg
       ∧ msg ≠ "")
  ∧ (files w' !! p = Some n ∨ files w' !! relocated p = Some n)
  ∧ ("completed" ∉ statuses (meta_path_of p)
                     (written (FileProcessor.process_file p) w) →
     files w' !! p = Some n).
Proof.
  intros Htask Hn Hrun Hin.
  pose proof Hrun as (b' & l & [= <-] & Hw & Hsum)%process_file_inv.
  rewrite (written_eq _ _ _ _ _ Hrun Hw) in *. clear Hrun Hw.
  destruct (task_paths p Htask)
    as (Hmp_p & Hpp_p & Hmp_pp & Hmp_r & Hmp_rr & Hpp_r & Hp_rr & Hr_rr).
  assert (∀ msg m m' l0,
    updated (meta_path_of p) "failed" (Some msg) m m' l0 →
    Str.truthy msg = true →
    "failed" ∈ statuses (meta_path_of p) l0 →
    (∃ text rd wr msg,
       m' !! meta_path_of p = Some (File text rd wr)
       ∧ status_of text = Some "failed"
       ∧ error_message_of text = Some msg
       ∧ msg ≠ "")
    ∧ ∀ q, q ≠ meta_path_of p → m' !! q = m !! q) as Hfailed.
  { intros msg m m' l0 Hu Hmsg Hl0.
    destruct (updated_failed _ _ _ _ _ Hu Hmsg Hl0)
      as ((text & rd & wr & ? & ? & ?) & Hframe & _).
    split; [|done]. exists text, rd, wr, msg.
    split_and!; [done..|]. by apply truthy_ne_empty. }
  inversion Hsum as [| |b' m' l' _ _ Hsteps]; subst;
    try (by apply elem_of_nil in Hin).
  unfold touched in Hsteps. rewrite Hn in Hsteps.
  inversion Hsteps
    as [?|d1 m' l0 Hd1 Hfree m1 Hno Hu|d1 c wr m' l0 Hd1 Hfree m1 Hp Hb Hu
       |d1 c wr m3 l3 e m4 m' l0 Hd1 Hfree m1 Hp Hfree2 m2 Hu3 Hrel He Hu
       |d1 c wr m3 l3 m' Hd1 Hfree m1 Hp Hfree2 m2 Hu3 Hrel]; subst;
    try (by apply elem_of_nil in Hin).
  - (* the source could not be read *)
    rewrite (statuses_record _ _ _ _ _ Hd1) in Hin.
    apply elem_of_cons in Hin as [?|Hin]; [done|].
    destruct (Hfailed _ _ _ _ Hu eq_refl Hin) as [Hrec Hframe].
    assert (files w' !! p = Some n) as Hp'.
    { rewrite Hframe by done. subst m1. by rewrite lookup_insert_ne. }
    eauto.
  - (* the processed file could not be written *)
    rewrite (statuses_record _ _ _ _ _ Hd1) in Hin.
    apply elem_of_cons in Hin as [?|Hin]; [done|].
    destruct (Hfailed _ _ _ _ Hu eq_refl Hin) as [Hrec Hframe].
    assert (files w' !! p = Some n) as Hp'.
    { rewrite Hframe by done. subst m1. by rewrite lookup_insert_ne. }
    eauto.
  - (* the relocation failed *)
    rewrite (statuses_record _ _ _ _ _ Hd1), statuses_other, statuses_app in *
      by done.
    destruct (task_before_relocation p _ d1 c wr m3 l3 Htask Hp Hu3)
      as (Hp0 & Hp3 & (rd2 & wr2 & Hpp3) & Hmp2 & Hmp3).
    assert (n = File c true wr) as -> by congruence.
    assert ("failed" ∈ statuses (meta_path_of p) l0) as Hin0.
    { apply elem_of_cons in Hin as [?|Hin]; [done|].
      apply elem_of_app in Hin as [Hin|Hin]; [|done].
      apply updated_completed in Hu3 as [[_ H3]| H3]; rewrite H3 in Hin.
      - by apply elem_of_nil in Hin.
      - by apply list_elem_of_singleton in Hin. }
    destruct (Hfailed _ _ _ _ Hu He Hin0) as [Hrec Hframe].
    destruct (relocation_task p m3 _ _ _ _ _ _ _ _ Htask Hp3 Hpp3 Hrel)
      as (m0 & Hm0 & [(e' & _ & Hm4)|(? & _)]); [|done].
    pose proof Hmp3 as (text3 & rd3 & wr3 & Hmp3').
    destruct (relocation_stages p m3 _ _ m0 Htask Hp3 Hpp3
                (mk_is_Some _ _ Hmp3') Hm0)
      as ((Hmp_0 & Hp_0) & (Hmp_1 & Hr_1) & (Hmp_2 & Hr_2 & _)).
    assert (m4 !! meta_path_of p = m3 !! meta_path_of p
            ∧ (m4 !! p = Some (File c true wr)
               ∨ m4 !! relocated p = Some (File c true wr))) as [Hmp4 Hwhere].
    { destruct Hm4 as [->|[->| ->]]; eauto. }
    split_and!; [done..| |].
    + rewrite !Hframe by done. done.
    + intros Hnot. exfalso.
      pose proof Hu3 as [[-> H3]|H3]%updated_completed.
      * (* [completed] could not be written: neither can [failed] *)
        assert (m3 = m2) as ->.
        { destruct Hu3 as [(? & _)|(? & _ & _ & _ & _ & ?)]; done. }
        assert (l0 = []) as ->; [|by apply elem_of_nil in Hin0].
        by eapply (updated_silent_stays _ _ _ _ _ m2 m2 m4).
      * apply Hnot. rewrite H3. simpl.
        apply list_elem_of_further, list_elem_of_here.
  - (* relocated *)
    rewrite (statuses_record _ _ _ _ _ Hd1), statuses_other in Hin by done.
    apply elem_of_cons in Hin as [?|Hin]; [done|].
    apply updated_completed in Hu3 as [[_ H3]| H3]; rewrite H3 in Hin.
    + by apply elem_of_nil in Hin.
    + by apply list_elem_of_singleton in Hin.
Qed.

Lemma failure_invariant_witness :
  let p := ["input"; "a.txt"] in
  let w := sample_world unreadable_source in
  let w' := (FileProcessor.process_file p w).2 in
  false = false
  ∧ (∃ text rd wr msg,
       files w' !! meta_path_of p = Some (File text rd wr)
       ∧ status_of text = Some "failed"
       ∧ error_message_of text = Some msg
       ∧ msg ≠ "")
  ∧ (files w' !! p = Some (File "hello" false true)
     ∨ files w' !! relocated p = Some (File "hello" false true))
  ∧ ("completed" ∉ statuses (meta_path_of p)
                     (written (FileProcessor.process_file p) w) →
     files w' !! p = Some (File "hello" false true)).
Proof.
  intros p w w'.
  apply (failure_invariant p w false w' (File "hello" false true)).
  - reflexivity.
  - vm_compute. reflexivity.
  - vm_compute. reflexivity.
  - apply (bool_decide_unpack _). vm_compute. exact I.
Defined.

(** C3 as stated fails: when a directory lies where the processed file
    should go, the original is moved to the output directory, the second
    move raises, and the record of [input/a.txt] reaches [failed]. *)
Lemma failed_after_relocation :
  let p := ["input"; "a.txt"] in
  let w := sample_world occupied_output in
  let w' := (FileProcessor.process_file p w).2 in
  is_task p
  ∧ files w !! p = Some (File "hello" true true)
  ∧ "failed" ∈ statuses (meta_path_of p)
                 (written (FileProcessor.process_file p) w)
  ∧ files w' !! p = None
  ∧ files w' !! ["processed"; "a.txt"] = Some (File "hello" true true).
Proof.
  split_and!.
  - reflexivity.
  - vm_compute. reflexivity.
  - apply (bool_decide_unpack _). vm_compute. exact I.
  - vm_compute. reflexivity.
  - vm_compute. reflexivity.
Qed.

(** ** The processed content *)

Lemma contents_other p q c l : q ≠ p → contents p ((q, c) :: l) = contents p l.
Proof. intros Hq. unfold contents. simpl. by rewrite decide_False. Qed.

Lemma contents_here p c l : contents p ((p, c) :: l) = c :: contents p l.
Proof. unfold contents. simpl. by rewrite decide_True. Qed.

Lemma contents_app p l1 l2 :
  contents p (l1 ++ l2) = contents p l1 ++ contents p l2.
Proof. apply omap_app. Qed.

Lemma contents_updated mp st em m m' l q :
  updated mp st em m m' l → q ≠ mp → contents q l = [].
Proof.
  intros [(_ & -> & _)|(d & _ & _ & _ & _ & ->)] Hq; [done|].
  by rewrite contents_other.
Qed.

(** C4: when the content [c] of a task's file can be read, the only
    content the run writes to the processed sibling is the upper-cased
    [c], and when the run succeeds that is the content of the processed
    file in the output directory. *)
Theorem processed_content p w c wr b w' :
  is_task p →
  files w !! p = Some (File c true wr) →
  FileProcessor.process_file p w = (Ret b, w') →
  let written_to_sibling :=
    contents (processed_path_of p)
      (written (FileProcessor.process_file p) w) in
  (written_to_sibling = [] ∨ written_to_sibling = [Str.upper c])
  ∧ (b = true →
     written_to_sibling = [Str.upper c]
     ∧ ∃ rd2 wr2,
         files w' !! relocated (processed_path_of p)
         = Some (File (Str.upper c) rd2 wr2)).
Proof.
  intros Htask Hc Hrun. simpl. split.
  - pose proof Hrun as (b' & l & [= <-] & Hw & Hsum)%process_file_inv.
    rewrite (written_eq _ _ _ _ _ Hrun Hw). clear Hrun Hw.
    destruct (task_paths p Htask) as (Hmp_p & _ & Hmp_pp & _).
    assert (processed_path_of p ≠ meta_path_of p) as Hpp_mp by done.
    inversion Hsum as [| |b' m' l' _ _ Hsteps]; subst; [by left..|].
    unfold touched in Hsteps. rewrite Hc in Hsteps.
    inversion Hsteps
      as [?|d1 m' l0 Hd1 Hfree m1 Hno Hu|d1 c' wr' m' l0 Hd1 Hfree m1 Hp Hb Hu
         |d1 c' wr' m3 l3 e m4 m' l0 Hd1 Hfree m1 Hp Hfree2 m2 Hu3 Hrel He Hu
         |d1 c' wr' m3 l3 m' Hd1 Hfree m1 Hp Hfree2 m2 Hu3 Hrel]; subst;
      rewrite ?contents_other, ?contents_here, ?contents_app by done;
      rewrite ?(contents_updated _ _ _ _ _ _ _ Hu Hpp_mp),
              ?(contents_updated _ _ _ _ _ _ _ Hu3 Hpp_mp);
      try (by left).
    + right. subst m1. rewrite lookup_insert_ne in Hp by done.
      simpl. congruence.
    + right. subst m1. rewrite lookup_insert_ne in Hp by done.
      simpl. congruence.
  - intros ->.
    destruct (completed_run p w w' Htask Hrun)
      as (c' & wr' & rd2 & wr2 & l3 & Hp & _ & Hrr & _ & Hl3 & text & ->).
    unfold touched in Hp. rewrite Hc in Hp. rewrite Hc in Hp.
    injection Hp as <- <-.
    destruct (task_paths p Htask) as (_ & _ & Hmp_pp & _).
    rewrite contents_other, contents_here, Hl3 by done. eauto.
Qed.

(** The example of the specification: [a.txt] with [hello] gives
    [a.processed] with [HELLO] in the output directory. *)
Lemma processed_content_witness :
  let p := ["input"; "a.txt"] in
  let w := sample_world sample_files in
  let written_to_sibling :=
    contents ["input"; "a.processed"]
      (written (FileProcessor.process_file p) w) in
  (written_to_sibling = [] ∨ written_to_sibling = ["HELLO"])
  ∧ (true = true →
     written_to_sibling = ["HELLO"]
     ∧ ∃ rd2 wr2,
         files (FileProcessor.process_file p w).2
           !! ["processed"; "a.processed"]
         = Some (File "HELLO" rd2 wr2)).
Proof.
  intros p w.
  apply (processed_content p w "hello" true true
           (FileProcessor.process_file p w).2).
  - reflexivity.
  - vm_compute. reflexivity.
  - vm_compute. reflexivity.
Defined.

(** ** A source that cannot be read *)

(** The record file of a store that can be written and read back. *)
Lemma usable_record_node (m : gmap path node) (mp : path) (text : string) :
  write_error m mp = None →
  (∀ c rd wr, m !! mp = Some (File c rd wr) → rd = true) →
  written_node m mp text = File text true true.
Proof.
  unfold write_error, written_node. intros Hfree Hrd.
  destruct (m !! mp) as [[c rd wr|?]|]; [|done..].
  rewrite (Hrd c rd wr eq_refl). by destruct wr.
Qed.

(** An update of a record that was just written goes through. *)
Lemma updated_fresh_record (mp : path) (st : string) (em : option string)
    (m m' : gmap path node) (l : list (path * string)) (d0 : Json.dict) :
  m !! mp = Some (File (Json.dumps d0) true true) →
  NoDup d0.*1 →
  updated mp st em m m' l →
  ∃ d, is_record st em d
       ∧ m' = <[mp := File (Json.dumps d) true true]> m
       ∧ l = [(mp, Json.dumps d)].
Proof.
  intros Hmp Hd0 [(_ & _ & [Hno|Hblocked])|(d & Hd & _ & _ & -> & ->)].
  - specialize (Hno _ _ Hmp). by rewrite (loads_dumps _ Hd0) in Hno.
  - unfold write_error in Hblocked. rewrite Hmp in Hblocked.
    by destruct Hblocked.
  - exists d. split_and!; [done| |done]. unfold written_node. by rewrite Hmp.
Qed.

(** C6: when the file of a task is there but cannot be read (no read
    permission, or not a regular file), [process_file] reports failure and
    stops: nothing is written to the processed sibling and no file other
    than the record changes (no processed file, no relocation).  When the
    metadata store works (the record can be written and read back), the
    record goes from [processing] to [failed] and holds the message of the
    read failure. *)
Theorem unreadable_source_fails p w n :
  is_task p →
  files w !! p = Some n →
  (∀ c wr, n ≠ File c true wr) →
  ∃ w',
    FileProcessor.process_file p w = (Ret false, w')
    ∧ contents (processed_path_of p)
        (written (FileProcessor.process_file p) w) = []
    ∧ (∀ q, q ≠ meta_path_of p → files w' !! q = files w !! q)
    ∧ (write_error (files w) (meta_path_of p) = None →
       (∀ c rd wr, files w !! meta_path_of p = Some (File c rd wr) →
                   rd = true) →
       ∃ d, is_record "failed" (Some "Could not read file") d
            ∧ files w' !! meta_path_of p
              = Some (File (Json.dumps d) true true)
            ∧ statuses (meta_path_of p)
                (written (FileProcessor.process_file p) w)
              = ["processing"; "failed"]).
Proof.
  intros Htask Hn Hunreadable.
  destruct (FileProcessor.process_file p w) as [r w'] eqn:Hrun.
  pose proof Hrun as (b & l & -> & Hw & Hsum)%process_file_inv.
  rewrite (written_eq _ _ _ _ _ Hrun Hw). clear Hrun Hw.
  destruct (task_paths p Htask) as (Hmp_p & _ & Hmp_pp & _).
  assert (processed_path_of p ≠ meta_path_of p) as Hpp_mp by done.
  assert (∀ d1 c wr,
    <[meta_path_of p := written_node (files w) (meta_path_of p)
                          (Json.dumps d1)]> (files w) !! p
    ≠ Some (File c true wr)) as Hno'.
  { intros d1 c wr. rewrite lookup_insert_ne, Hn by done.
    intros [= ->]. by eapply Hunreadable. }
  inversion Hsum as [Hp| Hnone |b' m' l' _ _ Hsteps]; subst.
  { by rewrite Hn in Hp. }
  { by rewrite task_meta_path in Hnone. }
  unfold touched in Hsteps. rewrite Hn in Hsteps.
  inversion Hsteps
    as [Hb|d1 m' l0 Hd1 _ m1 Hno Hu|d1 c' wr' m' l0 Hd1 _ m1 Hp
       |d1 c' wr' m3 l3 e m4 m' l0 Hd1 _ m1 Hp
       |d1 c' wr' m3 l3 m' Hd1 _ m1 Hp]; subst;
    try (by edestruct Hno').
  - (* the record cannot be created *)
    exists w'. split_and!; [done|done|intros q _; congruence|].
    intros Hfree _. rewrite Hfree in Hb. by destruct Hb.
  - (* the record is created, the read fails *)
    exists w'. split_and!; [done| | |].
    + by rewrite contents_other, (contents_updated _ _ _ _ _ _ _ Hu).
    + intros q Hq. rewrite (updated_lookup_ne _ _ _ _ _ _ q Hu) by done.
      subst m1. by rewrite lookup_insert_ne.
    + intros Hfree Hrd. subst m1.
      rewrite usable_record_node in Hu by done.
      eapply updated_fresh_record in Hu as (d & Hd & Hm' & ->);
        [|by rewrite lookup_insert_eq|by destruct Hd1].
      exists d. split_and!; [done| |].
      * by rewrite Hm', lookup_insert_eq.
      * by rewrite (statuses_record _ _ _ _ _ Hd1),
          (statuses_record _ _ _ _ _ Hd).
Qed.

(** The example of the specification: a source whose read permission was
    revoked stays in the input directory, next to a record that says
    [failed]. *)
Lemma unreadable_source_fails_witness :
  let p := ["input"; "a.txt"] in
  let w := sample_world unreadable_source in
  ∃ w',
    FileProcessor.process_file p w = (Ret false, w')
    ∧ files w' !! p = Some (File "hello" false true)
    ∧ ∃ d, is_record "failed" (Some "Could not read file") d
           ∧ files w' !! meta_path_of p
             = Some (File (Json.dumps d) true true)
           ∧ statuses (meta_path_of p)
               (written (FileProcessor.process_file p) w)
             = ["processing"; "failed"].
Proof.
  intros p w.
  destruct (unreadable_source_fails p w (File "hello" false true))
    as (w' & Hrun & _ & Hframe & Hrecord).
  - reflexivity.
  - vm_compute. reflexivity.
  - intros c wr. discriminate.
  - exists w'. split; [exact Hrun|]. split.
    + rewrite Hframe; [vm_compute; reflexivity|discriminate].
    + apply Hrecord.
      * vm_compute. reflexivity.
      * intros c rd wr H. vm_compute in H. discriminate.
Defined.

(** ** A task whose file is not there *)

Lemma create_error_None (m : gmap path node) (q : path) :
  m !! PathLib.parent q = Some (Dir true) → create_error m q = None.
Proof. unfold create_error. by intros ->. Qed.

Lemma remove_error_None (m : gmap path node) (q : path) :
  m !! PathLib.parent q = Some (Dir true) → remove_error m q = None.
Proof. unfold remove_error. by intros ->. Qed.

Lemma mkdir_ok d w :
  files w !! d = Some (Dir true)
  ∨ (files w !! d = None ∧ create_error (files w) d = None) →
  ∃ w', mkdir d w = (Ret tt, w')
        ∧ files w' !! d = Some (Dir true)
        ∧ ∀ q, q ≠ d → files w' !! q = files w !! q.
Proof.
  unfold mkdir. intros [Hd|[Hd Hc]]; rewrite Hd; [by eauto|].
  rewrite Hc. eexists. split; [done|]. simpl.
  split; [apply lookup_insert_eq|]. intros q Hq. by rewrite lookup_insert_ne.
Qed.

Lemma rename_ok src dst c rd wr w :
  files w !! src = Some (File c rd wr) →
  src ≠ dst →
  remove_error (files w) src = None →
  create_error (files w) dst = None →
  (∀ b, files w !! dst ≠ Some (Dir b)) →
  rename src dst w
  = (Ret tt, set_files w (<[dst := File c rd wr]> (delete src (files w)))).
Proof.
  intros Hsrc Hne Hrm Hcr Hdst. unfold rename.
  rewrite Hsrc, bool_decide_eq_false_2, Hrm, Hcr by done.
  destruct (files w !! dst) as [[]|]; [done| |done]. by edestruct Hdst.
Qed.

Lemma unlink_ok p c rd wr w :
  files w !! p = Some (File c rd wr) →
  remove_error (files w) p = None →
  unlink p w = (Ret tt, set_files w (delete p (files w))).
Proof. intros Hp Hrm. unfold unlink. by rewrite Hp, Hrm. Qed.

(** The relocation goes through when the output directory is there (or
    can be made), the directory of the files can be changed, and no
    directory lies where the files should go. *)
Lemma move_ok nm nm2 nm3 c rd wr c2 rd2 wr2 w :
  let p := ["input"; nm] in
  let pp := ["input"; nm2] in
  let mp := ["input"; nm3] in
  nm ≠ nm2 → nm3 ≠ nm → nm3 ≠ nm2 →
  files w !! Config.PROCESSED_DIR = Some (Dir true)
  ∨ (files w !! Config.PROCESSED_DIR = None
     ∧ create_error (files w) Config.PROCESSED_DIR = None) →
  files w !! Config.INPUT_DIR = Some (Dir true) →
  files w !! p = Some (File c rd wr) →
  files w !! pp = Some (File c2 rd2 wr2) →
  is_file (files w) mp →
  (∀ b, files w !! relocated p ≠ Some (Dir b)) →
  (∀ b, files w !! relocated pp ≠ Some (Dir b)) →
  ∃ w', FileProcessor._move_to_processed p pp mp w = (Ret tt, w').
Proof.
  intros p pp mp Hn1 Hn2 Hn3 Hout Hin Hp Hpp (c3 & rd3 & wr3 & Hmp) Hd1 Hd2.
  unfold FileProcessor._move_to_processed, bind.
  pose proof (mkdir_ok Config.PROCESSED_DIR w Hout)
    as (w1 & Hmk & Hout1 & Hframe1).
  rewrite Hmk. clear Hmk Hout.
  subst p pp mp.
  unfold relocated, PathLib.joinpath, Config.PROCESSED_DIR, Config.INPUT_DIR
    in *.
  simpl in *.
  erewrite (rename_ok ["input"; nm] ["processed"; nm]); cycle 1.
  { by rewrite Hframe1. }
  { done. }
  { apply remove_error_None. by rewrite Hframe1. }
  { by apply create_error_None. }
  { intros b. by rewrite Hframe1. }
  erewrite (rename_ok ["input"; nm2] ["processed"; nm2]); cycle 1.
  { simpl. rewrite lookup_insert_ne, lookup_delete_ne, Hframe1 by congruence.
    done. }
  { done. }
  { apply remove_error_None. simpl.
    by rewrite lookup_insert_ne, lookup_delete_ne, Hframe1. }
  { apply create_error_None. simpl.
    by rewrite lookup_insert_ne, lookup_delete_ne. }
  { intros b. simpl.
    rewrite lookup_insert_ne, lookup_delete_ne, Hframe1 by congruence.
    done. }
  unfold exists_. simpl. rewrite bool_decide_eq_true_2.
  - erewrite unlink_ok; [by eauto| |].
    + simpl. rewrite lookup_insert_ne, lookup_delete_ne, lookup_insert_ne,
        lookup_delete_ne, Hframe1 by congruence. done.
    + apply remove_error_None. simpl.
      by rewrite lookup_insert_ne, lookup_delete_ne, lookup_insert_ne,
        lookup_delete_ne, Hframe1.
  - rewrite lookup_insert_ne, lookup_delete_ne, lookup_insert_ne,
      lookup_delete_ne, Hframe1 by congruence. eauto.
Qed.

Lemma path_parent_name p :
  Str.truthy (PathLib.name p) = true →
  p = PathLib.joinpath (PathLib.parent p) (PathLib.name p).
Proof.
  intros H. destruct p as [|x p]; [done|].
  by apply app_removelast_last.
Qed.

Lemma write_error_insert_ne (m : gmap path node) (x q : path) (n : node) :
  q ≠ x → PathLib.parent q ≠ x →
  write_error (<[x := n]> m) q = write_error m q.
Proof.
  intros H1 H2. unfold write_error, create_error.
  by rewrite !lookup_insert_ne.
Qed.

(** On a file that was just created empty, in a world where everything
    the run needs can be written, the steps can only succeed. *)
Lemma missing_file_steps (nm nm2 nm3 : string) (m : gmap path node)
    (b : bool) (m' : gmap path node) (l : list (path * string)) :
  nm ≠ nm2 → nm3 ≠ nm → nm3 ≠ nm2 →
  m !! ["input"; nm] = None →
  m !! ["input"] = Some (Dir true) →
  write_error m ["input"; nm3] = None →
  write_error m ["input"; nm2] = None →
  m !! ["processed"] = Some (Dir true)
  ∨ (m !! ["processed"] = None ∧ create_error m ["processed"] = None) →
  (∀ b, m !! ["processed"; nm] ≠ Some (Dir b)) →
  (∀ b, m !! ["processed"; nm2] ≠ Some (Dir b)) →
  steps_summary ["input"; nm] ["input"; nm3] ["input"; nm2]
    (<[["input"; nm] := File "" true true]> m) b m' l →
  b = true.
Proof.
  intros Hn1 Hn2 Hn3 Hp Hin Hfree_mp Hfree_pp Hout Hd1 Hd2 Hsteps.
  inversion Hsteps
    as [Hb|d1 m'' l0 Hd1' _ m1 Hno Hu|d1 c' wr' m'' l0 Hd1' _ m1 Hp1 Hb
       |d1 c' wr' m3 l3 e m4 m'' l0 Hd1' _ m1 Hp1 _ m2 Hu3 Hrel
       |]; subst; [| | | |done]; exfalso.
  - rewrite write_error_insert_ne, Hfree_mp in Hb by (simpl; congruence).
    by destruct Hb.
  - eapply Hno. subst m1.
    rewrite lookup_insert_ne by congruence. apply lookup_insert_eq.
  - subst m1.
    rewrite !write_error_insert_ne, Hfree_pp in Hb by (simpl; congruence).
    by destruct Hb.
  - destruct Hrel as (w4 & w5 & Hf4 & _ & Hmove).
    assert (m1 !! ["input"; nm] = Some (File "" true true)) as Hp1'.
    { subst m1. rewrite lookup_insert_ne by congruence.
      apply lookup_insert_eq. }
    assert (c' = "" ∧ wr' = true) as [-> ->] by (split; congruence).
    destruct (written_node_file m1 ["input"; nm2] (Str.upper ""))
      as (rd2 & wr2 & Hnode2).
    assert (∀ q, q ≠ ["input"; nm3] → m3 !! q = m2 !! q) as Hframe3
      by (intros q Hq; by eapply updated_lookup_ne).
    assert (["input"; nm3] ≠ ["input"; nm] ∧ ["input"; nm2] ≠ ["input"; nm]
            ∧ ["input"; nm3] ≠ ["input"; nm2]) as (Hne1 & Hne2 & Hne3)
      by (split_and!; congruence).
    destruct (written_node_file (<[["input"; nm]:=File "" true true]> m)
                ["input"; nm3] (Json.dumps d1)) as (rd & wr & Hn).
    assert (∀ q, q ≠ ["input"; nm3] → q ≠ ["input"; nm2] →
                 q ≠ ["input"; nm] → m3 !! q = m !! q) as Hframe.
    { intros q H1 H2 H3. rewrite Hframe3 by done. subst m2 m1.
      by rewrite !lookup_insert_ne. }
    edestruct (move_ok nm nm2 nm3 "" true true (Str.upper "") rd2 wr2 w4)
      as (w6 & Hok); [done..| | | | | | | |congruence].
    + unfold Config.PROCESSED_DIR. rewrite Hf4.
      unfold create_error in *. simpl in *. rewrite !Hframe by done. done.
    + unfold Config.INPUT_DIR. rewrite Hf4. by rewrite Hframe.
    + rewrite Hf4, Hframe3 by done. subst m2.
      by rewrite lookup_insert_ne.
    + rewrite Hf4, Hframe3 by done. subst m2.
      by rewrite lookup_insert_eq, Hnode2.
    + rewrite Hf4. eapply updated_lookup_eq; [done|]. subst m2 m1.
      exists (Json.dumps d1), rd, wr.
      by rewrite lookup_insert_ne, lookup_insert_eq, Hn.
    + intros b. rewrite Hf4. unfold relocated, PathLib.joinpath. simpl.
      rewrite Hframe by done. apply Hd1.
    + intros b. rewrite Hf4. unfold relocated, PathLib.joinpath. simpl.
      rewrite Hframe by done. apply Hd2.
Qed.

(** C10: [process_file] first touches the path, which creates an empty
    file when there is none; so on a task of the input directory whose
    file is not there, in a world where the input directory can be
    changed, the record and the processed sibling can be written, and the
    output directory is there or can be made with no directory in the way,
    the run reads the empty content, writes an empty processed file, and
    succeeds, with both files in the output directory and no record
    left. *)
Theorem missing_file_completes p w :
  is_task p →
  PathLib.parent p = Config.INPUT_DIR →
  files w !! p = None →
  files w !! Config.INPUT_DIR = Some (Dir true) →
  write_error (files w) (meta_path_of p) = None →
  write_error (files w) (processed_path_of p) = None →
  files w !! Config.PROCESSED_DIR = Some (Dir true)
  ∨ (files w !! Config.PROCESSED_DIR = None
     ∧ create_error (files w) Config.PROCESSED_DIR = None) →
  (∀ b, files w !! relocated p ≠ Some (Dir b)) →
  (∀ b, files w !! relocated (processed_path_of p) ≠ Some (Dir b)) →
  files (_touch p w).2 !! p = Some (File "" true true)
  ∧ ∃ w' rd2 wr2,
      FileProcessor.process_file p w = (Ret true, w')
      ∧ contents (processed_path_of p)
          (written (FileProcessor.process_file p) w) = [""]
      ∧ files w' !! relocated p = Some (File "" true true)
      ∧ files w' !! relocated (processed_path_of p)
        = Some (File "" rd2 wr2)
      ∧ files w' !! meta_path_of p = None.
Proof.
  intros Htask Hparent Hp Hin Hfree_mp Hfree_pp Hout Hd1 Hd2.
  assert (create_error (files w) p = None) as Hcreate
    by (apply create_error_None; by rewrite Hparent).
  assert (touched (files w) p = <[p := File "" true true]> (files w)) as Ht
    by (unfold touched; by rewrite Hp).
  split.
  { unfold _touch, touch. rewrite Hp, Hcreate. simpl.
    apply lookup_insert_eq. }
  assert (∃ w', FileProcessor.process_file p w = (Ret true, w'))
    as (w' & Hrun).
  { destruct (FileProcessor.process_file p w) as [r w'] eqn:Hrun.
    pose proof Hrun as (b & l & -> & _ & Hsum)%process_file_inv.
    exists w'. f_equal. f_equal.
    inversion Hsum as [? Hno| Hnone |b' m' l' _ _ Hsteps]; subst.
    { rewrite Hcreate in Hno. by destruct Hno. }
    { by rewrite task_meta_path in Hnone. }
    pose proof (task_processed_name p Htask) as Hnm_pp.
    pose proof (task_meta_name p Htask) as Hnm_mp.
    pose proof (meta_processed_names p) as Hnm.
    pose proof (path_parent_name p (task_suffix_truthy p Htask)) as Hform.
    rewrite Hparent in Hform.
    assert (meta_path_of p
            = ["input"; PathLib.name (meta_path_of p)]) as Emp.
    { unfold meta_path_of at 1 2. by rewrite name_joinpath, Hparent. }
    assert (processed_path_of p
            = ["input"; PathLib.name (processed_path_of p)]) as Epp.
    { unfold processed_path_of at 1 2. by rewrite name_joinpath, Hparent. }
    assert (relocated (processed_path_of p)
            = ["processed"; PathLib.name (processed_path_of p)]) as Erpp
      by done.
    assert (relocated p = ["processed"; PathLib.name p]) as Erp by done.
    rewrite Ht in Hsteps.
    rewrite Emp in Hsteps, Hfree_mp. rewrite Epp in Hsteps, Hfree_pp.
    rewrite Erpp in Hd2. rewrite Erp in Hd1.
    clear Hsum Hrun Ht Emp Epp Erpp Erp Hcreate Htask Hparent.
    remember (PathLib.name (meta_path_of p)) as nm3 eqn:E3.
    remember (PathLib.name (processed_path_of p)) as nm2 eqn:E2.
    remember (PathLib.name p) as nm eqn:E1.
    clear E1 E2 E3. subst p.
    by eapply (missing_file_steps nm nm2 nm3 (files w)). }
  destruct (completed_run p w w' Htask Hrun)
    as (c & wr & rd2 & wr2 & l3 & Hc & Hr & Hrr & Hmp & Hl3 & text & Hwritten).
  rewrite Ht, lookup_insert_eq in Hc. injection Hc as <- <-.
  exists w', rd2, wr2. split_and!; [done| |done..].
  destruct (task_paths p Htask) as (_ & _ & Hmp_pp & _).
  by rewrite Hwritten, contents_other, contents_here, Hl3.
Qed.

Lemma missing_file_completes_witness :
  let p := ["input"; "b.txt"] in
  let w := sample_world sample_files in
  files (_touch p w).2 !! p = Some (File "" true true)
  ∧ ∃ w' rd2 wr2,
      FileProcessor.process_file p w = (Ret true, w')
      ∧ contents (processed_path_of p)
          (written (FileProcessor.process_file p) w) = [""]
      ∧ files w' !! relocated p = Some (File "" true true)
      ∧ files w' !! relocated (processed_path_of p)
        = Some (File "" rd2 wr2)
      ∧ files w' !! meta_path_of p = None.
Proof.
  intros p w.
  apply (missing_file_completes p w).
  - reflexivity.
  - reflexivity.
  - vm_compute. reflexivity.
  - vm_compute. reflexivity.
  - vm_compute. reflexivity.
  - vm_compute. reflexivity.
  - right. split; vm_compute; reflexivity.
  - intros b. vm_compute. discriminate.
  - intros b. vm_compute. discriminate.
Defined.

(** ** The coordinator and the workers *)

Import FileProcessingSystem.

Lemma sane_initial w : sane (initial w).
Proof. by repeat split. Qed.

Lemma sane_spawn m : sane m → sane (spawn m).
Proof.
  intros (Hp & Ho & Hl & Hc). unfold sane, spawn. simpl.
  split_and!.
  - apply Forall_app. split; [done|]. by repeat constructor.
  - done.
  - rewrite !length_app. simpl. lia.
  - apply Forall_app. split; [done|]. by repeat constructor.
Qed.

Lemma sane_iter_spawn n m : sane m → sane (Nat.iter n spawn m).
Proof. intros H. induction n; simpl; [done|]. by apply sane_spawn. Qed.

Lemma sane_start m : sane m → sane (start m).2.
Proof.
  intros Hm. unfold start.
  destruct ((mkdir Config.INPUT_DIR;; mkdir Config.PROCESSED_DIR) (env m))
    as [[[]|e] w'].
  - match goal with |- context [Nat.iter ?n spawn ?m0] =>
      assert (sane (Nat.iter n spawn m0)) as (Hp & _ & Hl & Hc);
        [|generalize dependent (Nat.iter n spawn m0); intros m5 Hp Hl Hc]
    end.
    { apply sane_iter_spawn. destruct Hm as (? & ? & ? & ?). by repeat split. }
    repeat split; simpl; try done. by intros o [= <-].
  - destruct Hm as (? & ? & ? & ?). by repeat split.
Qed.

Lemma join_all_processes l :
  (join_all l).2.*2 = l.*2 ∧ length (join_all l).2 = length l.
Proof.
  induction l as [|[pr ps] l [IH1 IH2]]; [done|].
  cbn [join_all]. destruct (Process.join ps); [done|].
  destruct (join_all l) as [res l']. cbn [snd] in *.
  rewrite !fmap_cons, IH1. cbn [length]. by rewrite IH2.
Qed.

Lemma join_all_started l :
  Forall (fun pp : FileProcessor.t * Process.t =>
            Process.started pp.2 = true) l →
  (join_all l).1 = Ret tt.
Proof.
  induction 1 as [|[pr ps] l Hs _ IH]; simpl; [done|].
  unfold Process.join. simpl in Hs. rewrite Hs.
  by destruct (join_all l).
Qed.

Lemma Forall_started_processes (l l' : list (FileProcessor.t * Process.t)) :
  l'.*2 = l.*2 →
  Forall (fun pp => Process.started pp.2 = true) l →
  Forall (fun pp => Process.started pp.2 = true) l'.
Proof.
  intros Heq Hl.
  assert (Forall (fun ps => Process.started ps = true) l.*2) as H
    by (by apply Forall_fmap).
  rewrite <- Heq in H. by apply Forall_fmap in H.
Qed.

(** What [stop] does to a system in a sane state. *)
Lemma stop_sane m :
  sane m →
  ∃ l',
    stop m
    = (Ret tt,
       Machine
         (Build
            (file_queue (self m)
               ++ replicate (length (processors (self m))) None)
            l' (Observer.stop <$> observer (self m)) false)
         (env m) (children m))
    ∧ l'.*2 = (processors (self m)).*2
    ∧ length l' = length (processors (self m)).
Proof.
  intros (Hp & Ho & Hl & Hc). unfold stop. simpl.
  assert (from_option Observer.join None
            match observer (self m) with
            | Some o => Some (Observer.stop o)
            | None => None
            end = None) as ->.
  { destruct (observer (self m)) as [o|] eqn:Hobs; [|done]. simpl.
    unfold Observer.join, Observer.stop. simpl. by rewrite (Ho o). }
  pose proof (join_all_started _ Hp) as Hres.
  pose proof (join_all_processes (processors (self m))) as [Hps Hlen].
  destruct (join_all (processors (self m))) as [res l']. simpl in *.
  subst res. exists l'. split_and!; [|done..].
  by destruct (observer (self m)).
Qed.

Lemma sane_stop m : sane m → sane (stop m).2.
Proof.
  intros Hm. destruct (stop_sane m Hm) as (l' & -> & Hps & Hlen).
  destruct Hm as (Hp & Ho & Hl & Hc). repeat split; simpl.
  - by eapply Forall_started_processes.
  - intros o. destruct (observer (self m)) as [o'|]; [|done].
    intros [= <-]. simpl. by apply Ho.
  - congruence.
  - done.
Qed.

Lemma worker_step_inv pr q w r w' :
  FileProcessor.processing pr = true →
  FileProcessor.worker_step pr q w = (r, w') →
  (q = [] ∧ r = Ret (FileProcessor.Continue, []) ∧ w' = w)
  ∨ (∃ q', q = None :: q' ∧ r = Ret (FileProcessor.Exit, q') ∧ w' = w)
  ∨ (∃ p q', q = Some p :: q' ∧ r = Ret (FileProcessor.Continue, q')
             ∧ w' = (FileProcessor.process_file p w).2).
Proof.
  intros Hpr. unfold FileProcessor.worker_step. rewrite Hpr. simpl.
  destruct q as [|[p|] q'].
  - intros [= <- <-]. by left.
  - unfold try_except, bind.
    destruct (FileProcessor.process_file p w) as [[b|e] w1] eqn:E;
      intros [= <- <-]; right; right; exists p, q'; by rewrite E.
  - intros [= <- <-]. right; left. by exists q'.
Qed.

Lemma sane_child_step i m : sane m → sane (child_step i m).
Proof.
  intros (Hp & Ho & Hl & Hc). unfold child_step.
  destruct (children m !! i) as [[pr []]|] eqn:Hi; [|by repeat split..].
  destruct (FileProcessor.worker_step pr _ (env m)) as [[[l q]|e] w'];
    [|by repeat split].
  repeat split; simpl; try done.
  - by rewrite length_insert.
  - apply Forall_insert; [done|]. simpl.
    by eapply (Forall_lookup_1 _ _ _ _ Hc Hi).
Qed.

Lemma sane_watch_step ev m : sane m → sane (watch_step ev m).
Proof.
  intros Hm. unfold watch_step.
  destruct (observer (self m)) as [o|] eqn:Hobs; [|done].
  destruct (_ && _); [|done].
  destruct Hm as (Hp & Ho & Hl & Hc). repeat split; simpl; try done.
  intros o' [= <-]. by apply Ho.
Qed.

Lemma sane_perform a m : sane m → sane (perform a m).
Proof.
  destruct a; simpl;
    auto using sane_start, sane_stop, sane_child_step, sane_watch_step.
Qed.

Lemma sane_run l : ∀ m, sane m → sane (run l m).
Proof.
  induction l as [|a l IH]; intros m Hm; simpl; [done|].
  by apply IH, sane_perform.
Qed.

Lemma exited_insert_exit (ch : list (FileProcessor.t * FileProcessor.loop)) :
  ∀ i pr, ch !! i = Some (pr, FileProcessor.Continue) →
          exited (<[i := (pr, FileProcessor.Exit)]> ch) = S (exited ch).
Proof.
  unfold exited.
  induction ch as [|[pr' st] ch IH]; intros [|i] pr Hi; try done.
  - injection Hi as -> ->.
    change (<[0 := (pr, FileProcessor.Exit)]>
              ((pr, FileProcessor.Continue) :: ch))
      with ((pr, FileProcessor.Exit) :: ch).
    rewrite !filter_cons.
    rewrite decide_True, decide_False by done. done.
  - change (<[S i := (pr, FileProcessor.Exit)]> ((pr', st) :: ch))
      with ((pr', st) :: <[i := (pr, FileProcessor.Exit)]> ch).
    rewrite !filter_cons. case_decide; simpl; by rewrite (IH i pr Hi).
Qed.

Lemma sentinels_cons x q :
  sentinels (x :: q) = (if x is None then 1 else 0) + sentinels q.
Proof.
  unfold sentinels. rewrite filter_cons. by destruct x.
Qed.

(** A pass of a worker through its loop takes a shutdown signal from the
    queue exactly when the worker leaves its loop. *)
Lemma child_step_sentinels i m :
  sane m →
  sentinels (file_queue (self (child_step i m)))
    + exited (children (child_step i m))
  = sentinels (file_queue (self m)) + exited (children m)
  ∧ ∃ k, file_queue (self m) = k ++ file_queue (self (child_step i m)).
Proof.
  intros (_ & _ & _ & Hc). unfold child_step.
  destruct (children m !! i) as [[pr []]|] eqn:Hi;
    [|split; [done|by exists []]..].
  pose proof (Forall_lookup_1 _ _ _ _ Hc Hi) as Hpr. simpl in Hpr.
  destruct (FileProcessor.worker_step pr _ (env m)) as [r w'] eqn:Hstep.
  apply (worker_step_inv _ _ _ _ _ Hpr) in Hstep
    as [(Hq & -> & ->)|[(q' & Hq & -> & ->)|(p & q' & Hq & -> & ->)]];
    simpl; rewrite Hq.
  - rewrite list_insert_id by done. split; [done|by exists []].
  - rewrite (exited_insert_exit _ _ _ Hi), sentinels_cons.
    split; [lia|by exists [None]].
  - rewrite list_insert_id by done. rewrite sentinels_cons.
    split; [done|by exists [Some p]].
Qed.

Lemma iter_spawn_children n m :
  length (children (Nat.iter n spawn m)) = length (children m) + n.
Proof.
  induction n as [|n IH]; simpl; [lia|].
  rewrite length_app, IH. simpl. lia.
Qed.

(** A successful [start] adds as many workers as the configuration
    says. *)
Lemma start_spawns m m' :
  start m = (Ret tt, m') →
  length (children m')
  = length (children m) + Config.MAX_CONCURRENT_PROCESSES.
Proof.
  unfold start.
  destruct ((mkdir Config.INPUT_DIR;; mkdir Config.PROCESSED_DIR) (env m))
    as [[[]|e] w']; [|done].
  pose proof (iter_spawn_children Config.MAX_CONCURRENT_PROCESSES
                (Machine
                   (Build (file_queue (self m)) (processors (self m))
                      (observer (self m)) true) w' (children m))) as Hn.
  revert Hn. generalize (Nat.iter Config.MAX_CONCURRENT_PROCESSES spawn
    (Machine
       (Build (file_queue (self m)) (processors (self m))
          (observer (self m)) true) w' (children m))).
  intros m5 Hn [= <-]. exact Hn.
Qed.

(** C8: in whatever state the system is, [stop] puts one shutdown signal
    in the queue for each worker process, as many as the pool size for
    each [start] that went through; a worker that takes the signal leaves
    its loop, and the signal is gone from the queue; no pass of a worker
    through its loop adds anything to the queue, and it takes a signal
    away exactly when the worker leaves. *)
Theorem one_sentinel_per_worker w l :
  let m := run l (initial w) in
  file_queue (self (stop m).2)
  = file_queue (self m) ++ replicate (length (children m)) None
  ∧ (∀ m', start m = (Ret tt, m') →
           length (children m')
           = length (children m) + Config.MAX_CONCURRENT_PROCESSES)
  ∧ (∀ q w0 fuel,
       FileProcessor.worker_step FileProcessor.__init__ (None :: q) w0
       = (Ret (FileProcessor.Exit, q), w0)
       ∧ FileProcessor.worker (S fuel) FileProcessor.__init__ (None :: q) w0
         = (Ret (FileProcessor.Exit, q), w0))
  ∧ ∀ i,
      sentinels (file_queue (self (child_step i m)))
        + exited (children (child_step i m))
      = sentinels (file_queue (self m)) + exited (children m)
      ∧ ∃ k, file_queue (self m) = k ++ file_queue (self (child_step i m)).
Proof.
  intros m. assert (sane m) as Hm by apply sane_run, sane_initial.
  split_and!.
  - destruct (stop_sane m Hm) as (l' & -> & _ & _). simpl.
    destruct Hm as (_ & _ & -> & _). done.
  - apply start_spawns.
  - done.
  - intros i. by apply child_step_sentinels.
Qed.

(** C9: [stop] before [start] returns and changes nothing; [stop] in any
    state the system can reach returns without raising, and so does a
    second [stop] after it. *)
Theorem stop_is_safe w l :
  stop (initial w) = (Ret tt, initial w)
  ∧ (∃ m', stop (run l (initial w)) = (Ret tt, m'))
  ∧ ∃ m', stop (stop (run l (initial w))).2 = (Ret tt, m').
Proof.
  assert (sane (run l (initial w))) as Hm by apply sane_run, sane_initial.
  split_and!.
  - done.
  - destruct (stop_sane _ Hm) as (l' & -> & _). eauto.
  - destruct (stop_sane _ (sane_stop _ Hm)) as (l' & -> & _). eauto.
Qed.

(** The five workers of a started system all leave their loops once the
    system is stopped, and the queue is empty again. *)
Lemma shutdown_example :
  let m := run [Start; Stop; Child 0; Child 1; Child 2; Child 3; Child 4]
             (initial (sample_world sample_files)) in
  file_queue (self (run [Start; Stop] (initial (sample_world sample_files))))
  = replicate 5 None
  ∧ file_queue (self m) = []
  ∧ (children m).*2 = replicate 5 FileProcessor.Exit.
Proof. vm_compute. done. Qed.

(** * Further properties of the program *)

(** ** The metadata store, read back *)

(** X1: the record [_create_meta_file] writes reads back, with
    [json.load], as the document with the status, the time of the call
    and the file name, in this order, followed by the error message when
    a non-empty one is passed. *)
Theorem create_meta_file_round_trip mp nm st em w w' :
  FileProcessor._create_meta_file mp nm st em w = (Ret tt, w') →
  ∃ text rd wr,
    files w' !! mp = Some (File text rd wr)
    ∧ Json.loads text
      = Some (set_error_message em
                [("status", st); ("last_updated", clock w (ticks w));
                 ("original_filename", nm)])
    ∧ writes w' = writes w ++ [(mp, text)].
Proof.
  unfold FileProcessor._create_meta_file, bind, now_isoformat.
  intros H.
  apply write_text_inv in H as [(e & ? & _)|(_ & _ & Hf & Hw)]; [done|].
  simpl in Hf, Hw.
  match type of Hf with context [written_node ?m ?q ?t] =>
    destruct (written_node_file m q t) as (rd & wr & Hn) end.
  eexists _, rd, wr. rewrite Hf, lookup_insert_eq, Hn.
  split_and!; [done| |done].
  apply loads_dumps.
  assert (NoDup [("status", st); ("last_updated", clock w (ticks w));
                 ("original_filename", nm)].*1) as Hbase.
  { apply (NoDup_ListNoDup ["status"; "last_updated"; "original_filename"]).
    repeat constructor; simpl; intuition discriminate. }
  by destruct (set_error_message_record st em _ Hbase eq_refl).
Qed.

Lemma create_meta_file_round_trip_witness :
  ∃ text rd wr,
    files (FileProcessor._create_meta_file ["input"; "a.meta"] "a.txt"
             "failed" (Some "no luck") (sample_world sample_files)).2
      !! ["input"; "a.meta"] = Some (File text rd wr)
    ∧ Json.loads text
      = Some [("status", "failed");
              ("last_updated", "2024-01-01T00:00:00");
              ("original_filename", "a.txt");
              ("error_message", "no luck")]
    ∧ writes (FileProcessor._create_meta_file ["input"; "a.meta"] "a.txt"
                "failed" (Some "no luck") (sample_world sample_files)).2
      = [] ++ [(["input"; "a.meta"], text)].
Proof.
  apply (create_meta_file_round_trip ["input"; "a.meta"] "a.txt" "failed"
           (Some "no luck") (sample_world sample_files)).
  vm_compute. reflexivity.
Defined.

(** X2: on a record that can be read, parsed and written,
    [_update_meta_file] rewrites the record in place: the status and the
    time are replaced, a non-empty error message is set, and every other
    field, the file name among them, is kept; when no message or an empty
    one is passed, the message of the record stays as it was. *)
Theorem update_meta_file_merges mp st em text d w :
  files w !! mp = Some (File text true true) →
  Json.loads text = Some d →
  let d' :=
    set_error_message em
      (Json.dict_set "last_updated" (clock w (ticks w))
         (Json.dict_set "status" st d)) in
  ∃ w',
    FileProcessor._update_meta_file mp st em w = (Ret tt, w')
    ∧ files w' = <[mp := File (Json.dumps d') true true]> (files w)
    ∧ Json.loads (Json.dumps d') = Some d'
    ∧ Json.dict_get "status" d' = Some st
    ∧ Json.dict_get "last_updated" d' = Some (clock w (ticks w))
    ∧ (∀ k, k ≠ "status" → k ≠ "last_updated" → k ≠ "error_message" →
            Json.dict_get k d' = Json.dict_get k d)
    ∧ Json.dict_get "error_message" d'
      = match em with
        | Some msg =>
            if Str.truthy msg then Some msg
            else Json.dict_get "error_message" d
        | None => Json.dict_get "error_message" d
        end.
Proof.
  intros Hmp Hd d'.
  assert (NoDup d'.*1) as Hnodup.
  { subst d'. unfold set_error_message.
    repeat case_match; repeat apply dict_set_NoDup; by eapply loads_NoDup. }
  eexists. split_and!.
  - unfold FileProcessor._update_meta_file, try_except, bind, read_text,
      json_load, now_isoformat, write_text.
    rewrite Hmp. simpl. rewrite Hd. simpl. rewrite Hmp. reflexivity.
  - done.
  - by apply loads_dumps.
  - subst d'. unfold set_error_message.
    repeat case_match; rewrite ?dict_get_set_ne by done; apply dict_get_set_eq.
  - subst d'. unfold set_error_message.
    repeat case_match; rewrite ?(dict_get_set_ne "error_message") by done;
      apply dict_get_set_eq.
  - intros k H1 H2 H3. subst d'. unfold set_error_message.
    repeat case_match; by rewrite !dict_get_set_ne by done.
  - subst d'. unfold set_error_message.
    destruct em as [msg|]; [destruct (Str.truthy msg)|].
    + apply dict_get_set_eq.
    + by rewrite !dict_get_set_ne.
    + by rewrite !dict_get_set_ne.
Qed.

Lemma update_meta_file_merges_witness :
  let text :=
    Json.dumps [("status", "failed"); ("last_updated", "then");
                ("original_filename", "a.txt"); ("error_message", "old")] in
  let w := sample_world (<[["input"; "a.meta"] := File text true true]>
                           sample_files) in
  ∃ d' w',
    FileProcessor._update_meta_file ["input"; "a.meta"] "completed" None w
    = (Ret tt, w')
    ∧ files w' = <[["input"; "a.meta"] := File (Json.dumps d') true true]>
                   (files w)
    ∧ d' = [("status", "completed");
            ("last_updated", "2024-01-01T00:00:00");
            ("original_filename", "a.txt"); ("error_message", "old")].
Proof.
  intros text w.
  destruct (update_meta_file_merges ["input"; "a.meta"] "completed" None text
              [("status", "failed"); ("last_updated", "then");
               ("original_filename", "a.txt"); ("error_message", "old")] w)
    as (w' & Hrun & Hfiles & _).
  - vm_compute. reflexivity.
  - vm_compute. reflexivity.
  - eexists _, w'. split; [exact Hrun|]. split; [exact Hfiles|].
    vm_compute. reflexivity.
Defined.



(** ** Reading and writing files *)


(** ** Relocation, seen from outside *)

Lemma mkdir_ret d w w1 :
  mkdir d w = (Ret tt, w1) → ∃ b, files w1 !! d = Some (Dir b).
Proof.
  unfold mkdir. destruct (files w !! d) as [[]|] eqn:Hd; [done| |].
  - intros [= <-]. eauto.
  - destruct (create_error (files w) d); [done|]. intros [= <-]. simpl.
    rewrite lookup_insert_eq. eauto.
Qed.

(** After a successful relocation the output directory is there. *)
Lemma move_ret_output_dir p pp mp c rd wr c2 rd2 wr2 w w' :
  files w !! p = Some (File c rd wr) →
  files w !! pp = Some (File c2 rd2 wr2) →
  pp ≠ p → pp ≠ relocated p →
  FileProcessor._move_to_processed p pp mp w = (Ret tt, w') →
  ∃ b, files w' !! Config.PROCESSED_DIR = Some (Dir b).
Proof.
  intros Hp Hpp Hne1 Hne2.
  unfold FileProcessor._move_to_processed, bind.
  fold (relocated p). fold (relocated pp).
  destruct (mkdir Config.PROCESSED_DIR w) as [[[]|e] w2] eqn:Hmk; [|done].
  pose proof (mkdir_ret _ _ _ Hmk) as [b Hd].
  apply mkdir_inv in Hmk as [_ Hmk].
  assert (files w2 !! p = Some (File c rd wr)
          ∧ files w2 !! pp = Some (File c2 rd2 wr2)) as [Hp2 Hpp2].
  { destruct Hmk as [(? & ? & _)|[(_ & ->)|(_ & Hnone & ->)]]; [done..|].
    rewrite !lookup_insert_ne by congruence. done. }
  destruct (rename p (relocated p) w2) as [[[]|e] w3] eqn:Hr1; [|done].
  eapply rename_inv in Hr1 as [_ [(? & ? & _)|(_ & Hf3)]]; [done| |done].
  destruct (rename pp (relocated pp) w3) as [[[]|e] w4] eqn:Hr2; [|done].
  eapply rename_inv in Hr2 as [_ [(? & ? & _)|(_ & Hf4)]]; [done| |];
    [|by rewrite Hf3, lookup_insert_ne, lookup_delete_ne].
  assert (files w4 !! Config.PROCESSED_DIR = Some (Dir b)) as Hd4.
  { rewrite Hf4, lookup_insert_ne, lookup_delete_ne, Hf3, lookup_insert_ne,
      lookup_delete_ne; [done|congruence|by destruct p|congruence|].
    unfold relocated, PathLib.joinpath, Config.PROCESSED_DIR.
    by destruct (processed_path_of p). }
  unfold exists_. case_bool_decide as Hex.
  - destruct (unlink mp w4) as [[[]|e] w5] eqn:Hu; [|done].
    intros [= <-]. exists b. revert Hu. unfold unlink.
    destruct (files w4 !! mp) as [[]|] eqn:Hmp; [|done..].
    destruct (remove_error (files w4) mp); [done|]. intros [= <-]. simpl.
    rewrite lookup_delete_ne; [done|]. congruence.
  - intros [= <-]. eauto.
Qed.

(** X5: when [_move_to_processed] returns on two regular files with
    different names and a record of yet another name, both files are in
    the output directory under their names, whatever was there before;
    they are gone from where they were (unless that was the output
    directory), the record is gone, the output directory exists, and
    every other path is as it was. *)
Theorem move_to_processed_relocates p pp mp c rd wr c2 rd2 wr2 w w' :
  files w !! p = Some (File c rd wr) →
  files w !! pp = Some (File c2 rd2 wr2) →
  PathLib.name pp ≠ PathLib.name p →
  PathLib.name mp ≠ PathLib.name p →
  PathLib.name mp ≠ PathLib.name pp →
  FileProcessor._move_to_processed p pp mp w = (Ret tt, w') →
  files w' !! relocated p = Some (File c rd wr)
  ∧ files w' !! relocated pp = Some (File c2 rd2 wr2)
  ∧ files w' !! mp = None
  ∧ (p ≠ relocated p → files w' !! p = None)
  ∧ (pp ≠ relocated pp → files w' !! pp = None)
  ∧ (∃ b, files w' !! Config.PROCESSED_DIR = Some (Dir b))
  ∧ ∀ q, q ∉ [p; pp; mp; Config.PROCESSED_DIR; relocated p; relocated pp] →
         files w' !! q = files w !! q.
Proof.
  intros Hp Hpp Hn1 Hn2 Hn3 Hmove.
  assert (pp ≠ p ∧ pp ≠ relocated p ∧ p ≠ relocated pp
          ∧ relocated p ≠ relocated pp ∧ mp ≠ relocated p
          ∧ mp ≠ relocated pp)
    as (Hpp_p & Hpp_r & Hp_rr & Hr_rr & Hmp_r & Hmp_rr).
  { split_and!; apply name_ne_path; rewrite ?relocated_name; congruence. }
  pose proof (move_ret_output_dir _ _ _ _ _ _ _ _ _ _ _ Hp Hpp Hpp_p Hpp_r
                Hmove) as Hdir.
  pose proof (move_inv _ _ _ _ _ _ _ _ _ _ _ _ Hp Hpp Hpp_p Hpp_r Hmove)
    as (_ & m0 & Hm0 & [(e & ? & _)|(_ & Hf)]); [done|].
  rewrite Hf in Hdir |- *. clear Hf. split_and!.
  - by rewrite lookup_delete_ne, lookup_insert_ne, lookup_delete_ne,
      lookup_insert_eq.
  - by rewrite lookup_delete_ne, lookup_insert_eq.
  - apply lookup_delete_eq.
  - intros Hp_r. destruct (decide (mp = p)) as [->|?];
      [apply lookup_delete_eq|].
    by rewrite lookup_delete_ne, lookup_insert_ne, lookup_delete_ne,
      lookup_insert_ne, lookup_delete_eq.
  - intros Hpp_rr. destruct (decide (mp = pp)) as [->|?];
      [apply lookup_delete_eq|].
    by rewrite lookup_delete_ne, lookup_insert_ne, lookup_delete_eq.
  - done.
  - intros q Hq.
    assert (q ≠ p ∧ q ≠ pp ∧ q ≠ mp ∧ q ≠ Config.PROCESSED_DIR
            ∧ q ≠ relocated p ∧ q ≠ relocated pp)
      as (? & ? & ? & ? & ? & ?).
    { split_and!; intros ->; apply Hq;
        repeat (first [apply list_elem_of_here|apply list_elem_of_further]). }
    rewrite lookup_delete_ne, lookup_insert_ne, lookup_delete_ne,
      lookup_insert_ne, lookup_delete_ne by done.
    destruct Hm0 as [->|[_ ->]]; [done|]. by rewrite lookup_insert_ne.
Qed.

Lemma move_to_processed_relocates_witness :
  let m := <[["input"; "a.meta"] := File "{}" true true]>
             (<[["input"; "a.processed"] := File "HELLO" true true]>
                (<[["processed"; "a.txt"] := File "old" true true]>
                   (<[["processed"] := Dir true]> sample_files))) in
  let w' := (FileProcessor._move_to_processed ["input"; "a.txt"]
               ["input"; "a.processed"] ["input"; "a.meta"]
               (sample_world m)).2 in
  files w' !! ["processed"; "a.txt"] = Some (File "hello" true true)
  ∧ files w' !! ["processed"; "a.processed"] = Some (File "HELLO" true true)
  ∧ files w' !! ["input"; "a.meta"] = None
  ∧ files w' !! ["input"; "a.txt"] = None.
Proof.
  intros m w'.
  destruct (move_to_processed_relocates ["input"; "a.txt"]
              ["input"; "a.processed"] ["input"; "a.meta"]
              "hello" true true "HELLO" true true (sample_world m) w')
    as (H1 & H2 & H3 & H4 & _).
  - vm_compute. reflexivity.
  - vm_compute. reflexivity.
  - vm_compute. discriminate.
  - vm_compute. discriminate.
  - vm_compute. discriminate.
  - vm_compute. reflexivity.
  - split_and!; [exact H1|exact H2|exact H3|]. apply H4. discriminate.
Defined.

(** X6: when [_move_to_processed] raises, under the same conditions on
    the names, nothing was written, the record is as it was (it is
    removed only after both files were moved), and the first file is
    either where it was or already in the output directory. *)
Theorem move_to_processed_failure p pp mp c rd wr c2 rd2 wr2 w e w' :
  files w !! p = Some (File c rd wr) →
  files w !! pp = Some (File c2 rd2 wr2) →
  PathLib.name pp ≠ PathLib.name p →
  PathLib.name mp ≠ PathLib.name p →
  PathLib.name mp ≠ PathLib.name pp →
  mp ≠ Config.PROCESSED_DIR →
  FileProcessor._move_to_processed p pp mp w = (Raise e, w') →
  writes w' = writes w
  ∧ files w' !! mp = files w !! mp
  ∧ (files w' !! p = Some (File c rd wr)
     ∨ files w' !! relocated p = Some (File c rd wr))
  ∧ exn_str e ≠ "".
Proof.
  intros Hp Hpp Hn1 Hn2 Hn3 Hmp_d Hmove.
  assert (pp ≠ p ∧ pp ≠ relocated p ∧ p ≠ relocated pp
          ∧ relocated p ≠ relocated pp ∧ mp ≠ relocated p
          ∧ mp ≠ relocated pp ∧ mp ≠ p ∧ mp ≠ pp)
    as (Hpp_p & Hpp_r & Hp_rr & Hr_rr & Hmp_r & Hmp_rr & Hmp_p & Hmp_pp).
  { split_and!; apply name_ne_path; rewrite ?relocated_name; congruence. }
  pose proof (move_raise _ _ _ _ _ _ Hmove) as He.
  pose proof (move_inv _ _ _ _ _ _ _ _ _ _ _ _ Hp Hpp Hpp_p Hpp_r Hmove)
    as (Hw & m0 & Hm0 & [(e' & _ & _ & Hf)|(? & _)]); [|done].
  assert (m0 !! mp = files w !! mp ∧ m0 !! p = Some (File c rd wr))
    as [Hmp0 Hp0].
  { destruct Hm0 as [->|[Hd ->]]; [done|].
    rewrite !lookup_insert_ne; [done|congruence|done]. }
  split_and!; [done| | |by apply truthy_ne_empty].
  - destruct Hf as [->|[->| ->]]; [done| |].
    + by rewrite lookup_insert_ne, lookup_delete_ne.
    + by rewrite lookup_insert_ne, lookup_delete_ne, lookup_insert_ne,
        lookup_delete_ne.
  - destruct Hf as [->|[->| ->]]; [by left|right..].
    + by rewrite lookup_insert_eq.
    + by rewrite lookup_insert_ne, lookup_delete_ne, lookup_insert_eq.
Qed.

Lemma move_to_processed_failure_witness :
  let m := <[["input"; "a.meta"] := File "{}" true true]>
             (<[["input"; "a.processed"] := File "HELLO" true true]>
                occupied_output) in
  let r := FileProcessor._move_to_processed ["input"; "a.txt"]
             ["input"; "a.processed"] ["input"; "a.meta"] (sample_world m) in
  files r.2 !! ["input"; "a.meta"] = Some (File "{}" true true)
  ∧ files r.2 !! ["processed"; "a.txt"] = Some (File "hello" true true).
Proof.
  intros m r.
  destruct r as [[[]|e] w'] eqn:Hr; [vm_compute in Hr; discriminate|].
  destruct (move_to_processed_failure ["input"; "a.txt"]
              ["input"; "a.processed"] ["input"; "a.meta"]
              "hello" true true "HELLO" true true (sample_world m) e w')
    as (_ & Hmp & _ & _).
  - vm_compute. reflexivity.
  - vm_compute. reflexivity.
  - vm_compute. discriminate.
  - vm_compute. discriminate.
  - vm_compute. discriminate.
  - discriminate.
  - exact Hr.
  - split.
    + simpl. rewrite Hmp. vm_compute. reflexivity.
    + clear Hmp. vm_compute in Hr. injection Hr as _ <-. vm_compute.
      reflexivity.
Defined.

(** ** A run that goes through *)

(** After a successful run on a task that is not in the output directory,
    nothing is left at the path of the task nor at the path of its
    processed sibling. *)
Lemma completed_run_sources p w w' :
  is_task p →
  PathLib.parent p ≠ Config.PROCESSED_DIR →
  FileProcessor.process_file p w = (Ret true, w') →
  files w' !! p = None ∧ files w' !! processed_path_of p = None.
Proof.
  intros Htask Hparent Hrun.
  assert (p ≠ relocated p) as Hp_r.
  { intros E. apply Hparent. rewrite E at 1. apply parent_joinpath. }
  assert (processed_path_of p ≠ relocated (processed_path_of p)) as Hpp_rr.
  { intros E. apply Hparent.
    transitivity (PathLib.parent (processed_path_of p));
      [symmetry; apply parent_joinpath|].
    rewrite E. apply parent_joinpath. }
  pose proof Hrun as (b & l & [= <-] & Hw & Hsum)%process_file_inv.
  inversion Hsum as [| |b m' l' _ _ Hsteps]; subst.
  inversion Hsteps
    as [| | | |d1 c wr m3 l3 m'' Hd1 Hfree m1 Hp Hfree2 m2 Hu Hrel]; subst.
  destruct (task_before_relocation p _ d1 c wr m3 l3 Htask Hp Hu)
    as (Hp0 & Hp3 & (rd2 & wr2 & Hpp3) & _ & (? & ? & ? & Hmp3)).
  destruct (relocation_task p m3 _ _ _ _ _ _ _ _ Htask Hp3 Hpp3 Hrel)
    as (m0 & Hm0 & [(e & ? & _)|(_ & ->)]); [done|].
  destruct (task_paths p Htask)
    as (Hmp_p & Hpp_p & Hmp_pp & Hmp_r & Hmp_rr & Hpp_r & Hp_rr & Hr_rr).
  split.
  - by rewrite lookup_delete_ne, lookup_insert_ne, lookup_delete_ne,
      lookup_insert_ne, lookup_delete_eq.
  - by rewrite lookup_delete_ne, lookup_insert_ne, lookup_delete_eq.
Qed.

(** On a file that can be read, in a world where everything the run
    needs can be written, the steps can only succeed. *)
Lemma readable_file_steps (nm nm2 nm3 : string) (m : gmap path node)
    (c : string) (wr b : bool) (m' : gmap path node)
    (l : list (path * string)) :
  nm ≠ nm2 → nm3 ≠ nm → nm3 ≠ nm2 →
  m !! ["input"; nm] = Some (File c true wr) →
  m !! ["input"] = Some (Dir true) →
  write_error m ["input"; nm3] = None →
  write_error m ["input"; nm2] = None →
  m !! ["processed"] = Some (Dir true)
  ∨ (m !! ["processed"] = None ∧ create_error m ["processed"] = None) →
  (∀ b, m !! ["processed"; nm] ≠ Some (Dir b)) →
  (∀ b, m !! ["processed"; nm2] ≠ Some (Dir b)) →
  steps_summary ["input"; nm] ["input"; nm3] ["input"; nm2] m b m' l →
  b = true.
Proof.
  intros Hn1 Hn2 Hn3 Hp Hin Hfree_mp Hfree_pp Hout Hd1 Hd2 Hsteps.
  inversion Hsteps
    as [Hb|d1 m'' l0 Hd1' _ m1 Hno Hu|d1 c' wr' m'' l0 Hd1' _ m1 Hp1 Hb
       |d1 c' wr' m3 l3 e m4 m'' l0 Hd1' _ m1 Hp1 _ m2 Hu3 Hrel
       |]; subst; [| | | |done]; exfalso.
  - rewrite Hfree_mp in Hb. by destruct Hb.
  - eapply Hno. subst m1. rewrite lookup_insert_ne by congruence. exact Hp.
  - subst m1.
    rewrite write_error_insert_ne, Hfree_pp in Hb by (simpl; congruence).
    by destruct Hb.
  - destruct Hrel as (w4 & w5 & Hf4 & _ & Hmove).
    assert (m1 !! ["input"; nm] = Some (File c true wr)) as Hp1'.
    { subst m1. by rewrite lookup_insert_ne by congruence. }
    assert (c' = c ∧ wr' = wr) as [-> ->] by (split; congruence).
    destruct (written_node_file m1 ["input"; nm2] (Str.upper c))
      as (rd2 & wr2 & Hnode2).
    assert (∀ q, q ≠ ["input"; nm3] → m3 !! q = m2 !! q) as Hframe3
      by (intros q Hq; by eapply updated_lookup_ne).
    assert (["input"; nm3] ≠ ["input"; nm] ∧ ["input"; nm2] ≠ ["input"; nm]
            ∧ ["input"; nm3] ≠ ["input"; nm2]) as (Hne1 & Hne2 & Hne3)
      by (split_and!; congruence).
    destruct (written_node_file m ["input"; nm3] (Json.dumps d1))
      as (rd & wr3 & Hn).
    assert (∀ q, q ≠ ["input"; nm3] → q ≠ ["input"; nm2] →
                 m3 !! q = m !! q) as Hframe.
    { intros q H1 H2. rewrite Hframe3 by done. subst m2 m1.
      by rewrite !lookup_insert_ne. }
    edestruct (move_ok nm nm2 nm3 c true wr (Str.upper c) rd2 wr2 w4)
      as (w6 & Hok); [done..| | | | | | | |congruence].
    + unfold Config.PROCESSED_DIR. rewrite Hf4.
      unfold create_error in *. simpl in *. rewrite !Hframe by done. done.
    + unfold Config.INPUT_DIR. rewrite Hf4. by rewrite Hframe.
    + rewrite Hf4, Hframe by done. done.
    + rewrite Hf4, Hframe3 by done. subst m2.
      by rewrite lookup_insert_eq, Hnode2.
    + rewrite Hf4. eapply updated_lookup_eq; [done|]. subst m2 m1.
      exists (Json.dumps d1), rd, wr3.
      by rewrite lookup_insert_ne, lookup_insert_eq, Hn.
    + intros b. rewrite Hf4. unfold relocated, PathLib.joinpath. simpl.
      rewrite Hframe by done. apply Hd1.
    + intros b. rewrite Hf4. unfold relocated, PathLib.joinpath. simpl.
      rewrite Hframe by done. apply Hd2.
Qed.

(** A readable task in a world where nothing is in the way. *)
Lemma readable_task_run p c wr w :
  is_task p →
  PathLib.parent p = Config.INPUT_DIR →
  files w !! p = Some (File c true wr) →
  files w !! Config.INPUT_DIR = Some (Dir true) →
  write_error (files w) (meta_path_of p) = None →
  write_error (files w) (processed_path_of p) = None →
  files w !! Config.PROCESSED_DIR = Some (Dir true)
  ∨ (files w !! Config.PROCESSED_DIR = None
     ∧ create_error (files w) Config.PROCESSED_DIR = None) →
  (∀ b, files w !! relocated p ≠ Some (Dir b)) →
  (∀ b, files w !! relocated (processed_path_of p) ≠ Some (Dir b)) →
  ∃ w' rd2 wr2,
    FileProcessor.process_file p w = (Ret true, w')
    ∧ files w' !! relocated p = Some (File c true wr)
    ∧ files w' !! relocated (processed_path_of p)
      = Some (File (Str.upper c) rd2 wr2)
    ∧ files w' !! meta_path_of p = None
    ∧ files w' !! p = None
    ∧ files w' !! processed_path_of p = None.
Proof.
  intros Htask Hparent Hp Hin Hfree_mp Hfree_pp Hout Hd1 Hd2.
  assert (touched (files w) p = files w) as Ht
    by (unfold touched; by rewrite Hp).
  assert (∃ w', FileProcessor.process_file p w = (Ret true, w'))
    as (w' & Hrun).
  { destruct (FileProcessor.process_file p w) as [r w'] eqn:Hrun.
    pose proof Hrun as (b & l & -> & _ & Hsum)%process_file_inv.
    exists w'. f_equal. f_equal.
    inversion Hsum as [? Hno| Hnone |b' m' l' _ _ Hsteps]; subst.
    { congruence. }
    { by rewrite task_meta_path in Hnone. }
    pose proof (task_processed_name p Htask) as Hnm_pp.
    pose proof (task_meta_name p Htask) as Hnm_mp.
    pose proof (meta_processed_names p) as Hnm.
    pose proof (path_parent_name p (task_suffix_truthy p Htask)) as Hform.
    rewrite Hparent in Hform.
    assert (meta_path_of p
            = ["input"; PathLib.name (meta_path_of p)]) as Emp.
    { unfold meta_path_of at 1 2. by rewrite name_joinpath, Hparent. }
    assert (processed_path_of p
            = ["input"; PathLib.name (processed_path_of p)]) as Epp.
    { unfold processed_path_of at 1 2. by rewrite name_joinpath, Hparent. }
    assert (relocated (processed_path_of p)
            = ["processed"; PathLib.name (processed_path_of p)]) as Erpp
      by done.
    assert (relocated p = ["processed"; PathLib.name p]) as Erp by done.
    rewrite Ht in Hsteps.
    rewrite Emp in Hsteps, Hfree_mp. rewrite Epp in Hsteps, Hfree_pp.
    rewrite Erpp in Hd2. rewrite Erp in Hd1.
    clear Hsum Hrun Ht Emp Epp Erpp Erp Htask Hparent.
    remember (PathLib.name (meta_path_of p)) as nm3 eqn:E3.
    remember (PathLib.name (processed_path_of p)) as nm2 eqn:E2.
    remember (PathLib.name p) as nm eqn:E1.
    clear E1 E2 E3. subst p.
    by eapply (readable_file_steps nm nm2 nm3 (files w) c wr). }
  destruct (completed_run p w w' Htask Hrun)
    as (c' & wr' & rd2 & wr2 & l3 & Hc & Hr & Hrr & Hmp & _).
  rewrite Ht, Hp in Hc. injection Hc as <- <-.
  destruct (completed_run_sources p w w' Htask) as [Hgone Hgone2];
    [by rewrite Hparent|done|].
  by exists w', rd2, wr2.
Qed.

(** X7: a task of the input directory whose file can be read is
    processed with success whenever the input directory can be changed,
    the record and the processed sibling can be written, and the output
    directory is there or can be made with no directory in the way.  The
    file, with its content and permissions, and the upper-cased copy are
    then in the output directory, and neither they nor the record are left
    in the input directory. *)
Theorem readable_task_completes p c wr w :
  is_task p →
  PathLib.parent p = Config.INPUT_DIR →
  files w !! p = Some (File c true wr) →
  files w !! Config.INPUT_DIR = Some (Dir true) →
  write_error (files w) (meta_path_of p) = None →
  write_error (files w) (processed_path_of p) = None →
  files w !! Config.PROCESSED_DIR = Some (Dir true)
  ∨ (files w !! Config.PROCESSED_DIR = None
     ∧ create_error (files w) Config.PROCESSED_DIR = None) →
  (∀ b, files w !! relocated p ≠ Some (Dir b)) →
  (∀ b, files w !! relocated (processed_path_of p) ≠ Some (Dir b)) →
  ∃ w' rd2 wr2,
    FileProcessor.process_file p w = (Ret true, w')
    ∧ files w' !! relocated p = Some (File c true wr)
    ∧ files w' !! relocated (processed_path_of p)
      = Some (File (Str.upper c) rd2 wr2)
    ∧ files w' !! meta_path_of p = None
    ∧ files w' !! p = None
    ∧ files w' !! processed_path_of p = None.
Proof. apply readable_task_run. Qed.

Lemma readable_task_completes_witness :
  let p := ["input"; "a.txt"] in
  let w := sample_world sample_files in
  ∃ w' rd2 wr2,
    FileProcessor.process_file p w = (Ret true, w')
    ∧ files w' !! relocated p = Some (File "hello" true true)
    ∧ files w' !! relocated (processed_path_of p)
      = Some (File (Str.upper "hello") rd2 wr2)
    ∧ files w' !! meta_path_of p = None
    ∧ files w' !! p = None
    ∧ files w' !! processed_path_of p = None.
Proof.
  intros p w.
  apply (readable_task_completes p "hello" true w).
  - reflexivity.
  - reflexivity.
  - vm_compute. reflexivity.
  - vm_compute. reflexivity.
  - vm_compute. reflexivity.
  - vm_compute. reflexivity.
  - right. split; vm_compute; reflexivity.
  - intros b. vm_compute. discriminate.
  - intros b. vm_compute. discriminate.
Defined.

(** ** Runs that stop early *)

Lemma joinpath_ne_parent (d : path) (n : string) : d ≠ PathLib.joinpath d n.
Proof.
  unfold PathLib.joinpath. intros E%(f_equal length).
  rewrite length_app in E. simpl in E. lia.
Qed.

Lemma parent_ne_self (p : path) :
  Str.truthy (PathLib.name p) = true → PathLib.parent p ≠ p.
Proof.
  intros H E. apply path_parent_name in H. rewrite E in H.
  by apply joinpath_ne_parent in H.
Qed.

(** The record and the processed sibling of a task are no directory of
    each other or of the task. *)
Lemma task_parents p :
  is_task p →
  PathLib.parent (meta_path_of p) ≠ p
  ∧ PathLib.parent (processed_path_of p) ≠ meta_path_of p.
Proof.
  intros Htask. unfold meta_path_of, processed_path_of.
  rewrite !parent_joinpath. split.
  - by apply parent_ne_self, task_suffix_truthy.
  - apply joinpath_ne_parent.
Qed.

(** X8: when the file of a task can be read but its processed sibling
    cannot be written, [process_file] reports failure and stops: nothing
    is written to the sibling and no file other than the record changes,
    so the original stays where it is.  When the metadata store works,
    the record goes from [processing] to [failed] and holds the message
    of the write failure. *)
Theorem unwritable_sibling_fails p w c wr :
  is_task p →
  files w !! p = Some (File c true wr) →
  is_Some (write_error (files w) (processed_path_of p)) →
  ∃ w',
    FileProcessor.process_file p w = (Ret false, w')
    ∧ contents (processed_path_of p)
        (written (FileProcessor.process_file p) w) = []
    ∧ (∀ q, q ≠ meta_path_of p → files w' !! q = files w !! q)
    ∧ (write_error (files w) (meta_path_of p) = None →
       (∀ c rd wr, files w !! meta_path_of p = Some (File c rd wr) →
                   rd = true) →
       ∃ d, is_record "failed" (Some "Could not write processed file") d
            ∧ files w' !! meta_path_of p
              = Some (File (Json.dumps d) true true)
            ∧ statuses (meta_path_of p)
                (written (FileProcessor.process_file p) w)
              = ["processing"; "failed"]).
Proof.
  intros Htask Hp Hblocked.
  destruct (FileProcessor.process_file p w) as [r w'] eqn:Hrun.
  pose proof Hrun as (b & l & -> & Hw & Hsum)%process_file_inv.
  rewrite (written_eq _ _ _ _ _ Hrun Hw). clear Hrun Hw.
  destruct (task_paths p Htask) as (Hmp_p & _ & Hmp_pp & _).
  destruct (task_parents p Htask) as [_ Hparent].
  assert (processed_path_of p ≠ meta_path_of p) as Hpp_mp by done.
  assert (∀ d1,
    write_error
      (<[meta_path_of p := written_node (files w) (meta_path_of p)
                             (Json.dumps d1)]> (files w))
      (processed_path_of p) ≠ None) as Hno.
  { intros d1. rewrite write_error_insert_ne by done.
    intros E. rewrite E in Hblocked. by destruct Hblocked. }
  inversion Hsum as [Hp'| Hnone |b' m' l' _ _ Hsteps]; subst.
  { by rewrite Hp in Hp'. }
  { by rewrite task_meta_path in Hnone. }
  unfold touched in Hsteps. rewrite Hp in Hsteps.
  inversion Hsteps
    as [Hb|d1 m' l0 Hd1 _ m1 Hnoread Hu|d1 c' wr' m' l0 Hd1 _ m1 Hp1 Hb Hu
       |d1 c' wr' m3 l3 e m4 m' l0 Hd1 _ m1 Hp1 Hfree
       |d1 c' wr' m3 l3 m' Hd1 _ m1 Hp1 Hfree]; subst;
    try (by edestruct Hno).
  - (* the record cannot be created *)
    exists w'. split_and!; [done|done|intros q _; congruence|].
    intros Hfree _. rewrite Hfree in Hb. by destruct Hb.
  - (* the record is created, the file cannot be read: excluded *)
    exfalso. eapply Hnoread. subst m1. by rewrite lookup_insert_ne.
  - (* the record is created, the file is read, the write fails *)
    exists w'. split_and!; [done| | |].
    + by rewrite contents_other, (contents_updated _ _ _ _ _ _ _ Hu).
    + intros q Hq. rewrite (updated_lookup_ne _ _ _ _ _ _ q Hu) by done.
      subst m1. by rewrite lookup_insert_ne.
    + intros Hfree Hrd. subst m1.
      rewrite usable_record_node in Hu by done.
      eapply updated_fresh_record in Hu as (d & Hd & Hm' & ->);
        [|by rewrite lookup_insert_eq|by destruct Hd1].
      exists d. split_and!; [done| |].
      * by rewrite Hm', lookup_insert_eq.
      * by rewrite (statuses_record _ _ _ _ _ Hd1),
          (statuses_record _ _ _ _ _ Hd).
Qed.

Lemma unwritable_sibling_fails_witness :
  let p := ["input"; "a.txt"] in
  let w := sample_world
             (<[["input"; "a.processed"] := File "" true false]>
                sample_files) in
  ∃ w',
    FileProcessor.process_file p w = (Ret false, w')
    ∧ files w' !! p = Some (File "hello" true true)
    ∧ files w' !! processed_path_of p = Some (File "" true false)
    ∧ ∃ d, is_record "failed" (Some "Could not write processed file") d
           ∧ files w' !! meta_path_of p
             = Some (File (Json.dumps d) true true)
           ∧ statuses (meta_path_of p)
               (written (FileProcessor.process_file p) w)
             = ["processing"; "failed"].
Proof.
  intros p w.
  destruct (unwritable_sibling_fails p w "hello" true)
    as (w' & Hrun & _ & Hframe & Hrecord).
  - reflexivity.
  - vm_compute. reflexivity.
  - vm_compute. eexists. reflexivity.
  - exists w'. split; [exact Hrun|]. split_and!.
    + rewrite Hframe; [vm_compute; reflexivity|discriminate].
    + rewrite Hframe; [vm_compute; reflexivity|discriminate].
    + apply Hrecord.
      * vm_compute. reflexivity.
      * intros c rd wr H. vm_compute in H. discriminate.
Defined.

(** X9: when the record of a task cannot be written (its path is a
    directory, a file without write permission, or a missing file in a
    directory that cannot be changed), [process_file] reports failure
    without reading the file: it writes nothing, and the only change it
    may leave is the empty file that [_touch] creates at a path where
    there was none. *)
Theorem blocked_record_stops p w :
  is_task p →
  is_Some (write_error (files w) (meta_path_of p)) →
  ∃ w',
    FileProcessor.process_file p w = (Ret false, w')
    ∧ writes w' = writes w
    ∧ (files w' = files w
       ∨ (files w !! p = None
          ∧ files w' = <[p := File "" true true]> (files w))).
Proof.
  intros Htask Hblocked.
  destruct (FileProcessor.process_file p w) as [r w'] eqn:Hrun.
  pose proof Hrun as (b & l & -> & Hw & Hsum)%process_file_inv.
  clear Hrun.
  destruct (task_paths p Htask) as (Hmp_p & _).
  destruct (task_parents p Htask) as [Hparent _].
  assert (write_error (touched (files w) p) (meta_path_of p)
          = write_error (files w) (meta_path_of p)) as Ht.
  { unfold touched. destruct (files w !! p); [done|].
    by apply write_error_insert_ne. }
  inversion Hsum as [Hp' He| Hnone |b' m' l' _ _ Hsteps]; subst.
  { exists w'. rewrite app_nil_r in Hw. split_and!; [done|done|by left]. }
  { by rewrite task_meta_path in Hnone. }
  inversion Hsteps
    as [Hb|d1 m'' l0 Hd1 Hfree|d1 c' wr' m'' l0 Hd1 Hfree
       |d1 c' wr' m3 l3 e m4 m'' l0 Hd1 Hfree
       |d1 c' wr' m3 l3 m'' Hd1 Hfree]; subst;
    try (rewrite Ht in Hfree; rewrite Hfree in Hblocked; by destruct Hblocked).
  exists w'. rewrite app_nil_r in Hw. split_and!; [done|done|].
  unfold touched in *. destruct (files w !! p); [by left|by right].
Qed.

Lemma blocked_record_stops_witness :
  let p := ["input"; "a.txt"] in
  let w := sample_world
             (<[["input"; "a.meta"] := File "{}" true false]>
                sample_files) in
  ∃ w',
    FileProcessor.process_file p w = (Ret false, w')
    ∧ writes w' = writes w
    ∧ files w' = files w.
Proof.
  intros p w.
  destruct (blocked_record_stops p w) as (w' & Hrun & Hw & Hf).
  - reflexivity.
  - vm_compute. eexists. reflexivity.
  - exists w'. split; [exact Hrun|]. split; [exact Hw|].
    destruct Hf as [Hf|[Hp _]]; [exact Hf|].
    vm_compute in Hp. discriminate.
Defined.

(** ** What a run touches *)

(** The stages of a relocation agree with the files before it outside the
    paths of the task. *)
Lemma relocation_frame (p pp mp : path) (m3 m0 m' : gmap path node)
    (n n2 : node) (q : path) :
  (m0 = m3
   ∨ (m3 !! Config.PROCESSED_DIR = None
      ∧ m0 = <[Config.PROCESSED_DIR := Dir true]> m3)) →
  let mv1 := <[relocated p := n]> (delete p m0) in
  let mv2 := <[relocated pp := n2]> (delete pp mv1) in
  m' = m0 ∨ m' = mv1 ∨ m' = mv2 ∨ m' = delete mp mv2 →
  q ≠ p → q ≠ pp → q ≠ mp → q ≠ Config.PROCESSED_DIR →
  q ≠ relocated p → q ≠ relocated pp →
  m' !! q = m3 !! q.
Proof.
  intros Hm0 mv1 mv2 Hm' ? ? ? ? ? ?.
  assert (m0 !! q = m3 !! q) as Hq0.
  { destruct Hm0 as [->|[_ ->]]; [done|]. by rewrite lookup_insert_ne. }
  assert (mv1 !! q = m3 !! q) as Hq1.
  { subst mv1. by rewrite lookup_insert_ne, lookup_delete_ne. }
  assert (mv2 !! q = m3 !! q) as Hq2.
  { subst mv2. by rewrite lookup_insert_ne, lookup_delete_ne. }
  destruct Hm' as [->|[->|[->| ->]]]; [done..|].
  by rewrite lookup_delete_ne.
Qed.

(** X10: [process_file] never loses the file of a task and never changes
    it: whatever the run does and however it ends, what was at the path
    of the task is afterwards at that path or under its name in the
    output directory. *)
Theorem original_is_kept p w n :
  is_task p →
  files w !! p = Some n →
  let w' := (FileProcessor.process_file p w).2 in
  files w' !! p = Some n ∨ files w' !! relocated p = Some n.
Proof.
  intros Htask Hn. simpl.
  destruct (FileProcessor.process_file p w) as [r w'] eqn:Hrun.
  pose proof Hrun as (b & l & -> & Hw & Hsum)%process_file_inv.
  clear Hrun Hw. simpl.
  destruct (task_paths p Htask)
    as (Hmp_p & Hpp_p & Hmp_pp & Hmp_r & Hmp_rr & Hpp_r & Hp_rr & Hr_rr).
  inversion Hsum as [Hp'| Hnone |b' m' l' _ _ Hsteps]; subst.
  { by left. }
  { by rewrite task_meta_path in Hnone. }
  unfold touched in Hsteps. rewrite Hn in Hsteps.
  inversion Hsteps
    as [?|d1 m' l0 Hd1 Hfree m1 Hno Hu|d1 c wr m' l0 Hd1 Hfree m1 Hp Hb Hu
       |d1 c wr m3 l3 e m4 m' l0 Hd1 Hfree m1 Hp Hfree2 m2 Hu3 Hrel He Hu
       |d1 c wr m3 l3 m' Hd1 Hfree m1 Hp Hfree2 m2 Hu3 Hrel]; subst.
  - by left.
  - left. rewrite (updated_lookup_ne _ _ _ _ _ _ p Hu) by done.
    subst m1. by rewrite lookup_insert_ne.
  - left. rewrite (updated_lookup_ne _ _ _ _ _ _ p Hu) by done.
    subst m1. by rewrite lookup_insert_ne.
  - destruct (task_before_relocation p _ d1 c wr m3 l3 Htask Hp Hu3)
      as (Hp0 & Hp3 & (rd2 & wr2 & Hpp3) & _ & (? & ? & ? & Hmp3)).
    assert (n = File c true wr) as -> by congruence.
    destruct (relocation_task p m3 _ _ _ _ _ _ _ _ Htask Hp3 Hpp3 Hrel)
      as (m0 & Hm0 & [(e' & _ & Hm4)|(? & _)]); [|done].
    destruct (relocation_stages p m3 _ _ m0 Htask Hp3 Hpp3
                (mk_is_Some _ _ Hmp3) Hm0)
      as ((_ & Hp_0) & (_ & Hr_1) & (_ & Hr_2 & _)).
    rewrite !(updated_lookup_ne _ _ _ _ _ _ _ Hu) by done.
    destruct Hm4 as [->|[->| ->]]; eauto.
  - destruct (task_before_relocation p _ d1 c wr m3 l3 Htask Hp Hu3)
      as (Hp0 & Hp3 & (rd2 & wr2 & Hpp3) & _ & (? & ? & ? & Hmp3)).
    assert (n = File c true wr) as -> by congruence.
    destruct (relocation_task p m3 _ _ _ _ _ _ _ _ Htask Hp3 Hpp3 Hrel)
      as (m0 & Hm0 & [(e' & ? & _)|(_ & ->)]); [done|].
    destruct (relocation_stages p m3 _ _ m0 Htask Hp3 Hpp3
                (mk_is_Some _ _ Hmp3) Hm0)
      as (_ & _ & (_ & Hr_2 & _)).
    right. by rewrite lookup_delete_ne.
Qed.

Lemma original_is_kept_witness :
  let p := ["input"; "a.txt"] in
  let w' := (FileProcessor.process_file p (sample_world occupied_output)).2 in
  files w' !! p = Some (File "hello" true true)
  ∨ files w' !! relocated p = Some (File "hello" true true).
Proof.
  intros p.
  apply (original_is_kept p (sample_world occupied_output)
           (File "hello" true true)).
  - reflexivity.
  - vm_compute. reflexivity.
Defined.

(** The texts an update of the record writes. *)
Lemma updated_writes (P : path * string → Prop) mp st em m m' l :
  updated mp st em m m' l →
  (∀ text, status_of text = Some st → P (mp, text)) →
  Forall P l ∧ (length l ≤ 1)%nat.
Proof.
  intros [(_ & -> & _)|(d & Hd & _ & _ & _ & ->)] HP.
  - split; [done|simpl; lia].
  - split; [|done]. repeat constructor.
    by eapply HP, status_of_record.
Qed.

(** X11: whatever file it is given, a run of [process_file] writes to
    two paths only: the record of the file, where every text it writes is
    a JSON document whose status is [processing], [completed] or
    [failed], and the processed sibling; and it writes at most four
    times. *)
Theorem writes_of_a_run p w :
  let l := written (FileProcessor.process_file p) w in
  Forall (fun pc : path * string =>
            (pc.1 = meta_path_of p
             ∧ ∃ st, status_of pc.2 = Some st
                     ∧ st ∈ ["processing"; "completed"; "failed"])
            ∨ pc.1 = processed_path_of p) l
  ∧ (length l ≤ 4)%nat.
Proof.
  simpl.
  destruct (FileProcessor.process_file p w) as [r w'] eqn:Hrun.
  pose proof Hrun as (b & l & -> & Hw & Hsum)%process_file_inv.
  rewrite (written_eq _ _ _ _ _ Hrun Hw). clear Hrun Hw.
  set (P := fun pc : path * string =>
            (pc.1 = meta_path_of p
             ∧ ∃ st, status_of pc.2 = Some st
                     ∧ st ∈ ["processing"; "completed"; "failed"])
            ∨ pc.1 = processed_path_of p).
  assert (∀ st em d, is_record st em d →
            st ∈ ["processing"; "completed"; "failed"] →
            P (meta_path_of p, Json.dumps d)) as Hrec.
  { intros st em d Hd Hst. left. split; [done|]. exists st.
    split; [|done]. by eapply status_of_record. }
  assert (∀ st em m m' l0,
            updated (meta_path_of p) st em m m' l0 →
            st ∈ ["processing"; "completed"; "failed"] →
            Forall P l0 ∧ (length l0 ≤ 1)%nat) as Hupd.
  { intros st em m m' l0 Hu Hst. eapply updated_writes; [done|].
    intros text Htext. left. split; [done|]. by exists st. }
  assert ("processing" ∈ ["processing"; "completed"; "failed"]) as H1
    by apply list_elem_of_here.
  assert ("completed" ∈ ["processing"; "completed"; "failed"]) as H2
    by apply list_elem_of_further, list_elem_of_here.
  assert ("failed" ∈ ["processing"; "completed"; "failed"]) as H3
    by (do 2 apply list_elem_of_further; apply list_elem_of_here).
  destruct Hsum as [| |b m' l _ _ Hsteps]; [split; [done|simpl; lia]..|].
  destruct Hsteps
    as [?|d1 m' l0 Hd1 Hfree m1 Hno Hu|d1 c wr m' l0 Hd1 Hfree m1 Hp Hb Hu
       |d1 c wr m3 l3 e m4 m' l0 Hd1 Hfree m1 Hp Hfree2 m2 Hu3 Hrel He Hu
       |d1 c wr m3 l3 m' Hd1 Hfree m1 Hp Hfree2 m2 Hu3 Hrel].
  - split; [done|simpl; lia].
  - destruct (Hupd _ _ _ _ _ Hu H3) as [HP Hlen].
    split; [|simpl; lia]. constructor; [by eapply Hrec|done].
  - destruct (Hupd _ _ _ _ _ Hu H3) as [HP Hlen].
    split; [|simpl; lia]. constructor; [by eapply Hrec|done].
  - destruct (Hupd _ _ _ _ _ Hu H3) as [HP Hlen].
    destruct (Hupd _ _ _ _ _ Hu3 H2) as [HP3 Hlen3].
    split; [|simpl; rewrite length_app; lia].
    constructor; [by eapply Hrec|]. constructor; [by right|].
    by apply Forall_app.
  - destruct (Hupd _ _ _ _ _ Hu3 H2) as [HP3 Hlen3].
    split; [|simpl; lia].
    constructor; [by eapply Hrec|]. constructor; [by right|done].
Qed.

(** The footprint of a run on a task. *)
Lemma run_frame p w q :
  is_task p →
  q ∉ [p; meta_path_of p; processed_path_of p; Config.PROCESSED_DIR;
       relocated p; relocated (processed_path_of p)] →
  files (FileProcessor.process_file p w).2 !! q = files w !! q.
Proof.
  intros Htask Hq.
  assert (q ≠ p ∧ q ≠ meta_path_of p ∧ q ≠ processed_path_of p
          ∧ q ≠ Config.PROCESSED_DIR ∧ q ≠ relocated p
          ∧ q ≠ relocated (processed_path_of p))
    as (Hq1 & Hq2 & Hq3 & Hq4 & Hq5 & Hq6).
  { split_and!; intros ->; apply Hq;
      repeat (first [apply list_elem_of_here|apply list_elem_of_further]). }
  clear Hq.
  destruct (FileProcessor.process_file p w) as [r w'] eqn:Hrun.
  pose proof Hrun as (b & l & -> & Hw & Hsum)%process_file_inv.
  clear Hrun Hw. simpl.
  assert (touched (files w) p !! q = files w !! q) as Ht.
  { unfold touched. destruct (files w !! p); [done|].
    by rewrite lookup_insert_ne. }
  inversion Hsum as [Hp'| Hnone |b' m' l' _ _ Hsteps]; subst; [done|done|].
  rewrite <- Ht. clear Ht Hsum.
  revert Hsteps. generalize (touched (files w) p). intros m Hsteps.
  inversion Hsteps
    as [?|d1 m' l0 Hd1 Hfree m1 Hno Hu|d1 c wr m' l0 Hd1 Hfree m1 Hp Hb Hu
       |d1 c wr m3 l3 e m4 m' l0 Hd1 Hfree m1 Hp Hfree2 m2 Hu3 Hrel He Hu
       |d1 c wr m3 l3 m' Hd1 Hfree m1 Hp Hfree2 m2 Hu3 Hrel]; subst.
  - done.
  - rewrite (updated_lookup_ne _ _ _ _ _ _ q Hu) by done.
    subst m1. by rewrite lookup_insert_ne.
  - rewrite (updated_lookup_ne _ _ _ _ _ _ q Hu) by done.
    subst m1. by rewrite lookup_insert_ne.
  - destruct (task_before_relocation p _ d1 c wr m3 l3 Htask Hp Hu3)
      as (Hp0 & Hp3 & (rd2 & wr2 & Hpp3) & _ & _).
    destruct (relocation_task p m3 _ _ _ _ _ _ _ _ Htask Hp3 Hpp3 Hrel)
      as (m0 & Hm0 & [(e' & _ & Hm4)|(? & _)]); [|done].
    rewrite (updated_lookup_ne _ _ _ _ _ _ q Hu) by done.
    rewrite (relocation_frame p (processed_path_of p) (meta_path_of p)
               m3 m0 m4 (File c true wr) (File (Str.upper c) rd2 wr2) q Hm0)
      by (done || (simpl; destruct Hm4 as [?|[?|?]]; auto)).
    rewrite (updated_lookup_ne _ _ _ _ _ _ q Hu3) by done.
    subst m2 m1. by rewrite !lookup_insert_ne.
  - destruct (task_before_relocation p _ d1 c wr m3 l3 Htask Hp Hu3)
      as (Hp0 & Hp3 & (rd2 & wr2 & Hpp3) & _ & _).
    destruct (relocation_task p m3 _ _ _ _ _ _ _ _ Htask Hp3 Hpp3 Hrel)
      as (m0 & Hm0 & [(e' & ? & _)|(_ & Hm')]); [done|].
    rewrite (relocation_frame p (processed_path_of p) (meta_path_of p)
               m3 m0 (files w') (File c true wr)
               (File (Str.upper c) rd2 wr2) q Hm0)
      by (done || (simpl; auto)).
    rewrite (updated_lookup_ne _ _ _ _ _ _ q Hu3) by done.
    subst m2 m1. by rewrite !lookup_insert_ne.
Qed.

(** X12: a run of [process_file] on a task changes nothing outside the
    task's own places: every path other than the file, its record, its
    processed sibling, the output directory and the two destinations in
    it holds after the run what it held before. *)
Theorem nothing_else_changes p w q :
  is_task p →
  q ∉ [p; meta_path_of p; processed_path_of p; Config.PROCESSED_DIR;
       relocated p; relocated (processed_path_of p)] →
  files (FileProcessor.process_file p w).2 !! q = files w !! q.
Proof. apply run_frame. Qed.

Lemma nothing_else_changes_witness :
  files (FileProcessor.process_file ["input"; "a.txt"]
           (sample_world sample_files)).2 !! ["input"]
  = Some (Dir true).
Proof.
  rewrite (nothing_else_changes ["input"; "a.txt"]
             (sample_world sample_files) ["input"]).
  - vm_compute. reflexivity.
  - reflexivity.
  - vm_compute. intros H. repeat (inversion H as [|? ? ? H']; clear H;
      rename H' into H).
Defined.

(** ** The watcher and the products of a run *)

Lemma rsplit_dot_last (s t : string) :
  PathLib.rsplit_dot t = None →
  PathLib.rsplit_dot (s +:+ String "." t) = Some (s, String "." t).
Proof.
  intros Ht. induction s as [|c r IH].
  - change (PathLib.rsplit_dot (String "." t) = Some ("", String "." t)).
    simpl. by rewrite Ht.
  - change (PathLib.rsplit_dot (String c (r +:+ String "." t))
            = Some (String c r, String "." t)).
    simpl. by rewrite IH.
Qed.

(** A name that ends in [.meta] or [.processed] has not the suffix of a
    task. *)
Lemma product_suffix (s t : string) :
  PathLib.rsplit_dot t = None →
  String "." t ≠ Config.FILE_EXTENSION →
  PathLib.name_suffix (s +:+ String "." t) ≠ Config.FILE_EXTENSION.
Proof.
  intros Ht Hne. unfold PathLib.name_suffix.
  rewrite rsplit_dot_last by done. by destruct (_ && _).
Qed.

(** X13: the watcher does not take the products of a run for new tasks:
    the creation of the record or of the processed sibling of any file,
    both written next to the file in the watched directory, leaves the
    queue as it is, as does the creation of a directory; the creation of
    a file with the task suffix puts its path at the end of the queue. *)
Theorem watcher_ignores_products p d (file_queue : queue) :
  FileWatcher.on_created (FileWatcher.Event d (meta_path_of p)) file_queue
  = file_queue
  ∧ FileWatcher.on_created (FileWatcher.Event d (processed_path_of p))
      file_queue
    = file_queue
  ∧ FileWatcher.on_created (FileWatcher.Event true p) file_queue
    = file_queue
  ∧ (is_task p →
     FileWatcher.on_created (FileWatcher.Event false p) file_queue
     = file_queue ++ [Some p]).
Proof.
  assert (∀ q : path, PathLib.suffix q ≠ Config.FILE_EXTENSION →
            FileWatcher.on_created (FileWatcher.Event d q) file_queue
            = file_queue) as Hskip.
  { intros q Hq. unfold FileWatcher.on_created. simpl.
    destruct d; [done|].
    by destruct (String.eqb_spec (PathLib.suffix q) Config.FILE_EXTENSION). }
  split_and!.
  - apply Hskip. unfold PathLib.suffix, meta_path_of.
    rewrite name_joinpath. by apply product_suffix.
  - apply Hskip. unfold PathLib.suffix, processed_path_of.
    rewrite name_joinpath. by apply product_suffix.
  - done.
  - intros Htask. unfold FileWatcher.on_created. simpl.
    by destruct (String.eqb_spec (PathLib.suffix p) Config.FILE_EXTENSION).
Qed.

(** ** A worker and its queue *)

Lemma worker_cons fuel p (q : queue) w :
  FileProcessor.worker (S fuel) FileProcessor.__init__ (Some p :: q) w
  = FileProcessor.worker fuel FileProcessor.__init__ q
      (FileProcessor.process_file p w).2.
Proof.
  destruct (FileProcessor.process_file p w) as [r w'] eqn:Hrun.
  pose proof Hrun as (b & l & -> & _)%process_file_inv.
  change (FileProcessor.worker (S fuel) FileProcessor.__init__ (Some p :: q) w)
    with (bind (FileProcessor.worker_step FileProcessor.__init__ (Some p :: q))
            (fun r => match r with
                      | (FileProcessor.Exit, q') => ret (FileProcessor.Exit, q')
                      | (FileProcessor.Continue, q') =>
                          FileProcessor.worker fuel FileProcessor.__init__ q'
                      end) w).
  unfold bind, FileProcessor.worker_step, try_except. simpl.
  unfold bind. by rewrite Hrun.
Qed.

(** A worker goes through the files in front of a signal. *)
Lemma worker_drains (ps : list path) (q : queue) w fuel :
  length ps < fuel →
  worker_process fuel ((Some <$> ps) ++ None :: q) w
  = (Ret (FileProcessor.Exit, q), process_all ps w).
Proof.
  unfold worker_process. revert w fuel.
  induction ps as [|p ps IH]; intros w fuel Hfuel.
  - destruct fuel as [|fuel]; [simpl in Hfuel; lia|]. done.
  - destruct fuel as [|fuel]; [simpl in Hfuel; lia|].
    rewrite fmap_cons. change ((Some p :: (Some <$> ps)) ++ None :: q)
      with (Some p :: ((Some <$> ps) ++ None :: q)).
    rewrite worker_cons. rewrite IH by (simpl in Hfuel; lia). done.
Qed.

(** X14: a worker process takes the files of the queue in the order they
    were put there, processes each one in the world the one before left,
    and leaves its loop at the first shutdown signal, which it takes away
    along with the files before it; what is behind the signal stays in
    the queue. *)
Theorem worker_drains_queue (ps : list path) (q : queue) w fuel :
  length ps < fuel →
  worker_process fuel ((Some <$> ps) ++ None :: q) w
  = (Ret (FileProcessor.Exit, q), process_all ps w).
Proof. apply worker_drains. Qed.

Lemma worker_drains_queue_witness :
  worker_process 3
    [Some ["input"; "a.txt"]; Some ["input"; "b.txt"]; None;
     Some ["input"; "c.txt"]]
    (sample_world sample_files)
  = (Ret (FileProcessor.Exit, [Some ["input"; "c.txt"]]),
     process_all [["input"; "a.txt"]; ["input"; "b.txt"]]
       (sample_world sample_files)).
Proof.
  apply (worker_drains_queue [["input"; "a.txt"]; ["input"; "b.txt"]]
           [Some ["input"; "c.txt"]] (sample_world sample_files) 3).
  simpl. lia.
Defined.

(** X15: without a shutdown signal a worker process never leaves its
    loop: on a queue that holds files only, after any number of passes
    it has processed that many files from the front, in order, and is
    still in the loop; once the queue is empty it goes on polling and
    changes nothing. *)
Theorem worker_waits_for_signal (ps : list path) w fuel :
  worker_process fuel (Some <$> ps) w
  = (Ret (FileProcessor.Continue, Some <$> drop fuel ps),
     process_all (take fuel ps) w).
Proof.
  unfold worker_process. revert w ps.
  induction fuel as [|fuel IH]; intros w ps.
  - by rewrite drop_0.
  - destruct ps as [|p ps].
    + change (FileProcessor.worker (S fuel) FileProcessor.__init__ [] w)
        with (FileProcessor.worker fuel FileProcessor.__init__ [] w).
      specialize (IH w []). rewrite drop_nil, take_nil in IH.
      by rewrite drop_nil, take_nil.
    + rewrite fmap_cons, worker_cons, IH. done.
Qed.

(** ** Shutdown *)

Lemma looping_exited (ch : list (FileProcessor.t * FileProcessor.loop)) :
  looping ch + exited ch = length ch.
Proof.
  unfold looping, exited. induction ch as [|[pr []] ch IH]; [done|..];
    rewrite !filter_cons.
  - rewrite decide_True, decide_False by done. simpl. lia.
  - rewrite decide_False, decide_True by done. simpl. lia.
Qed.

Lemma looping_lookup (ch : list (FileProcessor.t * FileProcessor.loop)) i pr :
  ch !! i = Some (pr, FileProcessor.Continue) → (0 < looping ch)%nat.
Proof.
  intros Hi. unfold looping.
  assert ((pr, FileProcessor.Continue)
          ∈ filter (fun c => c.2 = FileProcessor.Continue) ch) as Hin.
  { apply list_elem_of_filter. split; [done|].
    by eapply list_elem_of_lookup_2. }
  destruct (filter _ ch); [by apply elem_of_nil in Hin|simpl; lia].
Qed.

Lemma looping_pos (ch : list (FileProcessor.t * FileProcessor.loop)) :
  (0 < looping ch)%nat →
  ∃ i pr, ch !! i = Some (pr, FileProcessor.Continue).
Proof.
  unfold looping. intros Hpos.
  destruct (filter _ ch) as [|[pr st] r] eqn:E; [simpl in Hpos; lia|].
  assert ((pr, st) ∈ filter (fun c => c.2 = FileProcessor.Continue) ch)
    as [Hst Hin]%list_elem_of_filter by (rewrite E; apply list_elem_of_here).
  simpl in Hst. subst st.
  apply list_elem_of_lookup_1 in Hin as [i Hi]. eauto.
Qed.

Lemma child_step_covered i m :
  covered m →
  covered (child_step i m)
  ∧ length (children (child_step i m)) = length (children m)
  ∧ (length (file_queue (self (child_step i m)))
     ≤ length (file_queue (self m)))%nat
  ∧ (∀ j c, j ≠ i → children m !! j = Some c →
            children (child_step i m) !! j = Some c)
  ∧ (∀ pr, children m !! i = Some (pr, FileProcessor.Continue) →
           (length (file_queue (self (child_step i m)))
            < length (file_queue (self m)))%nat).
Proof.
  intros [Hm Hcov].
  pose proof (sane_child_step i m Hm) as Hm'.
  pose proof (child_step_sentinels i m Hm) as [Hsum [k Hk]].
  pose proof (looping_exited (children m)) as Hre.
  pose proof (looping_exited (children (child_step i m))) as Hre'.
  assert (length (children (child_step i m)) = length (children m)) as Hlen.
  { unfold child_step.
    destruct (children m !! i) as [[pr []]|]; [|done..].
    destruct (FileProcessor.worker_step pr _ (env m)) as [[[l q]|e] w'];
      [|done].
    simpl. by rewrite length_insert. }
  split_and!.
  - split; [done|lia].
  - done.
  - apply (f_equal length) in Hk. rewrite length_app in Hk. lia.
  - intros j c Hj Hc. unfold child_step.
    destruct (children m !! i) as [[pr []]|]; [|done..].
    destruct (FileProcessor.worker_step pr _ (env m)) as [[[l q]|e] w'];
      [|done].
    simpl. by rewrite list_lookup_insert_ne.
  - intros pr Hi.
    pose proof (looping_lookup _ _ _ Hi) as Hpos.
    destruct Hm as (_ & _ & _ & Hc).
    pose proof (Forall_lookup_1 _ _ _ _ Hc Hi) as Hpr. simpl in Hpr.
    unfold child_step. rewrite Hi.
    destruct (FileProcessor.worker_step pr _ (env m)) as [r w'] eqn:Hstep.
    apply (worker_step_inv _ _ _ _ _ Hpr) in Hstep
      as [(Hq & -> & ->)|[(q' & Hq & -> & ->)|(p & q' & Hq & -> & ->)]];
      simpl; rewrite Hq in *; simpl.
    + unfold sentinels in Hcov. simpl in Hcov. lia.
    + lia.
    + lia.
Qed.

Lemma steps_covered (l : list nat) : ∀ m,
  covered m →
  let m' := foldl (fun m i => child_step i m) m l in
  covered m'
  ∧ length (children m') = length (children m)
  ∧ (length (file_queue (self m')) ≤ length (file_queue (self m)))%nat.
Proof.
  induction l as [|i l IH]; intros m Hm; simpl; [by split_and!|].
  destruct (child_step_covered i m Hm) as (Hm1 & Hlen1 & Hq1 & _).
  destruct (IH _ Hm1) as (Hm' & Hlen' & Hq').
  split_and!; [done|congruence|lia].
Qed.

Lemma steps_progress (l : list nat) : ∀ m i pr,
  covered m → i ∈ l →
  children m !! i = Some (pr, FileProcessor.Continue) →
  (length (file_queue (self (foldl (fun m i => child_step i m) m l)))
   < length (file_queue (self m)))%nat.
Proof.
  induction l as [|j l IH]; intros m i pr Hm Hin Hi;
    [by apply elem_of_nil in Hin|].
  simpl.
  destruct (child_step_covered j m Hm) as (Hm1 & _ & Hq1 & Hothers & Hstep).
  destruct (decide (j = i)) as [->|Hne].
  - specialize (Hstep _ Hi).
    destruct (steps_covered l _ Hm1) as (_ & _ & Hq'). simpl in Hq'. lia.
  - apply elem_of_cons in Hin as [?|Hin]; [done|].
    pose proof (IH _ i pr Hm1 Hin (Hothers _ _ (not_eq_sym Hne) Hi)). lia.
Qed.

Lemma steps_idle (l : list nat) m :
  looping (children m) = 0 →
  foldl (fun m i => child_step i m) m l = m.
Proof.
  intros Hidle. induction l as [|i l IH]; [done|]. simpl.
  assert (child_step i m = m) as ->; [|done].
  unfold child_step.
  destruct (children m !! i) as [[pr []]|] eqn:Hi; [|done..].
  apply looping_lookup in Hi. lia.
Qed.

Lemma rounds_covered n : ∀ m,
  covered m →
  (length (file_queue (self m)) ≤ n)%nat →
  looping (children (Nat.iter n round m)) = 0.
Proof.
  induction n as [|n IH]; intros m Hm Hn.
  - simpl. destruct Hm as [_ Hcov].
    destruct (file_queue (self m)); [|simpl in Hn; lia].
    unfold sentinels in Hcov. simpl in Hcov. lia.
  - rewrite Nat.iter_succ_r.
    destruct (decide (looping (children m) = 0)) as [Hidle|Hbusy].
    + unfold round at 2. rewrite steps_idle by done.
      clear IH Hn. induction n as [|n IH]; [done|].
      rewrite Nat.iter_succ_r. unfold round at 2.
      by rewrite steps_idle.
    + destruct (looping_pos (children m)) as (i & pr & Hi); [lia|].
      assert (i ∈ seq 0 (length (children m))) as Hin.
      { apply elem_of_seq. apply lookup_lt_Some in Hi. lia. }
      pose proof (steps_progress _ m i pr Hm Hin Hi) as Hlt.
      destruct (steps_covered (seq 0 (length (children m))) m Hm)
        as (Hm' & _ & _).
      apply IH; [done|]. unfold round. lia.
Qed.

Lemma sentinels_app (q1 q2 : queue) :
  sentinels (q1 ++ q2) = sentinels q1 + sentinels q2.
Proof. unfold sentinels. by rewrite filter_app, length_app. Qed.

Lemma sentinels_replicate n : sentinels (replicate n None) = n.
Proof.
  induction n as [|n IH]; [done|]. simpl. rewrite sentinels_cons. lia.
Qed.

(** X16: a shutdown goes through.  In whatever state the system is when
    [stop] is called, and whatever is still in the queue, once every
    worker has been through its loop as many times as there are items in
    the queue, no worker is in its loop any more: each of them has taken
    one of the signals [stop] put in the queue. *)
Theorem shutdown_completes w l :
  let m := (stop (run l (initial w))).2 in
  let m' := Nat.iter (length (file_queue (self m))) round m in
  looping (children m') = 0
  ∧ exited (children m') = length (children m).
Proof.
  intros m m'.
  assert (sane (run l (initial w))) as Hm0 by apply sane_run, sane_initial.
  assert (covered m) as Hm.
  { split; [by apply sane_stop|]. subst m.
    destruct (stop_sane _ Hm0) as (l' & -> & _ & _). simpl.
    rewrite sentinels_app, sentinels_replicate.
    destruct Hm0 as (_ & _ & -> & _).
    pose proof (looping_exited (children (run l (initial w)))). lia. }
  assert (looping (children m') = 0) as Hidle
    by (by apply rounds_covered).
  split; [done|].
  assert (∀ n m0, covered m0 →
            covered (Nat.iter n round m0)
            ∧ length (children (Nat.iter n round m0))
              = length (children m0)) as Hrounds.
  { clear. induction n as [|n IH]; intros m0 Hm0; [done|]. simpl.
    destruct (IH m0 Hm0) as [Hn Hlen].
    destruct (steps_covered
                (seq 0 (length (children (Nat.iter n round m0)))) _ Hn)
      as (Hc & Hlen' & _).
    split; [done|]. unfold round at 1. congruence. }
  destruct (Hrounds (length (file_queue (self m))) m Hm) as [_ Hlen].
  pose proof (looping_exited (children m')). subst m'. lia.
Qed.

(** ** Starting the system *)

Lemma iter_spawn n m :
  self (Nat.iter n spawn m)
  = Build (file_queue (self m))
      (processors (self m)
         ++ replicate n (FileProcessor.__init__,
                         Process.Build true true))
      (observer (self m)) (running (self m))
  ∧ env (Nat.iter n spawn m) = env m
  ∧ children (Nat.iter n spawn m)
    = children m
        ++ replicate n (FileProcessor.__init__, FileProcessor.Continue).
Proof.
  induction n as [|n (Hs & He & Hc)].
  - simpl. rewrite !app_nil_r. by destruct m as [[]].
  - change (Nat.iter (S n) spawn m) with (spawn (Nat.iter n spawn m)).
    unfold spawn at 1 3 5. simpl. rewrite Hs, He, Hc. simpl.
    rewrite <- !app_assoc.
    change (?x :: replicate n ?x) with (replicate (S n) x).
    by rewrite !replicate_S_end.
Qed.

(** X17: when [start] returns, the input and the output directory
    exist, five more worker processes run their loops, each on a
    processor of its own and all on the queue as it was, and the system
    holds a new observer, started, that watches the input directory and
    nothing else.  Apart from the two directories no path has changed. *)
Theorem start_brings_up m m' :
  start m = (Ret tt, m') →
  (∃ b, files (env m') !! Config.INPUT_DIR = Some (Dir b))
  ∧ (∃ b, files (env m') !! Config.PROCESSED_DIR = Some (Dir b))
  ∧ (∀ q, q ≠ Config.INPUT_DIR → q ≠ Config.PROCESSED_DIR →
          files (env m') !! q = files (env m) !! q)
  ∧ children m'
    = children m
        ++ replicate 5 (FileProcessor.__init__, FileProcessor.Continue)
  ∧ observer (self m')
    = Some (Observer.Build [Config.INPUT_DIR] true false)
  ∧ file_queue (self m') = file_queue (self m)
  ∧ running (self m') = true.
Proof.
  unfold start, bind.
  destruct (mkdir Config.INPUT_DIR (env m)) as [[[]|e] w1] eqn:H1; [|done].
  destruct (mkdir Config.PROCESSED_DIR w1) as [[[]|e] w2] eqn:H2; [|done].
  pose proof (mkdir_ret _ _ _ H1) as [b1 Hd1].
  pose proof (mkdir_ret _ _ _ H2) as Hd2.
  apply mkdir_inv in H1 as [_ H1]. apply mkdir_inv in H2 as [_ H2].
  match goal with
  | |- context [Nat.iter ?n spawn ?m0] =>
      destruct (iter_spawn n m0) as (Hs & He & Hc);
      generalize dependent (Nat.iter n spawn m0)
  end.
  intros m5 Hs He Hc [= <-]. simpl. rewrite Hs, He, Hc. simpl.
  assert (∀ q, q ≠ Config.PROCESSED_DIR → files w2 !! q = files w1 !! q)
    as Hf2.
  { intros q Hq.
    destruct H2 as [(? & ? & _)|[(_ & ->)|(_ & _ & ->)]]; [done..|].
    by rewrite lookup_insert_ne. }
  assert (∀ q, q ≠ Config.INPUT_DIR → files w1 !! q = files (env m) !! q)
    as Hf1.
  { intros q Hq.
    destruct H1 as [(? & ? & _)|[(_ & ->)|(_ & _ & ->)]]; [done..|].
    by rewrite lookup_insert_ne. }
  split_and!; [|done| |done..].
  - exists b1. by rewrite Hf2.
  - intros q Hq1 Hq2. by rewrite Hf2, Hf1.
Qed.

Lemma start_brings_up_witness :
  let m' := (start (initial (sample_world sample_files))).2 in
  (∃ b, files (env m') !! Config.PROCESSED_DIR = Some (Dir b))
  ∧ length (children m') = 5
  ∧ files (env m') !! ["input"; "a.txt"] = Some (File "hello" true true).
Proof.
  intros m'.
  destruct (start_brings_up (initial (sample_world sample_files)) m')
    as (_ & Hout & Hframe & Hc & _).
  - vm_compute. reflexivity.
  - split; [exact Hout|]. split.
    + rewrite Hc. reflexivity.
    + rewrite Hframe; [vm_compute; reflexivity|discriminate..].
Defined.

(** X18: when [start] raises, it is a directory that could not be made;
    no worker process was spawned and no observer set up, but the system
    is flagged as running all the same, since the flag is set first.  At
    most the input directory was created. *)
Theorem start_failure m e m' :
  start m = (Raise e, m') →
  children m' = children m
  ∧ processors (self m') = processors (self m)
  ∧ observer (self m') = observer (self m)
  ∧ file_queue (self m') = file_queue (self m)
  ∧ running (self m') = true
  ∧ (∃ c, e = os_error c Config.INPUT_DIR
          ∨ e = os_error c Config.PROCESSED_DIR)
  ∧ (files (env m') = files (env m)
     ∨ (files (env m) !! Config.INPUT_DIR = None
        ∧ files (env m')
          = <[Config.INPUT_DIR := Dir true]> (files (env m)))).
Proof.
  unfold start, bind.
  destruct (mkdir Config.INPUT_DIR (env m)) as [[[]|e1] w1] eqn:H1.
  - destruct (mkdir Config.PROCESSED_DIR w1) as [[[]|e2] w2] eqn:H2; [done|].
    intros [= <- <-]. simpl.
    apply mkdir_inv in H1 as [_ H1].
    assert ((∃ c, e2 = os_error c Config.PROCESSED_DIR)
            ∧ files w2 = files w1) as [[c Hcl] Hf2].
    { revert H2. unfold mkdir.
      destruct (files w1 !! Config.PROCESSED_DIR) as [[]|]; [|done|].
      - intros [= <- <-]. eauto.
      - destruct (create_error (files w1) Config.PROCESSED_DIR);
          [|done]. intros [= <- <-]. eauto. }
    split_and!; [done..|by eauto|]. rewrite Hf2.
    destruct H1 as [(? & ? & _)|[(_ & ->)|(_ & ? & ->)]]; [done|by left|].
    by right.
  - intros [= <- <-]. simpl.
    assert ((∃ c, e1 = os_error c Config.INPUT_DIR)
            ∧ files w1 = files (env m)) as [[c Hcl] Hf1].
    { revert H1. unfold mkdir.
      destruct (files (env m) !! Config.INPUT_DIR) as [[]|]; [|done|].
      - intros [= <- <-]. eauto.
      - destruct (create_error (files (env m)) Config.INPUT_DIR);
          [|done]. intros [= <- <-]. eauto. }
    split_and!; [done..|by eauto|]. by left.
Qed.

Lemma start_failure_witness :
  let m := initial (sample_world (<[["processed"] := File "" true true]>
                                    sample_files)) in
  children (start m).2 = []
  ∧ observer (self (start m).2) = None
  ∧ running (self (start m).2) = true.
Proof.
  intros m.
  destruct (start m) as [[[]|e] m'] eqn:Hs; [vm_compute in Hs; discriminate|].
  destruct (start_failure m e m' Hs) as (Hc & _ & Ho & _ & Hr & _).
  split; [exact Hc|]. split; [exact Ho|exact Hr].
Defined.

(** ** The files a test run creates *)

Lemma str_app_assoc (a b c : string) : (a +:+ b) +:+ c = a +:+ (b +:+ c).
Proof.
  induction a as [|x a IH]; [done|].
  change (String x ((a +:+ b) +:+ c) = String x (a +:+ (b +:+ c))).
  by rewrite IH.
Qed.

Lemma all_chars_app P (a b : string) :
  all_chars P (a +:+ b) = all_chars P a && all_chars P b.
Proof.
  induction a as [|x a IH]; [done|].
  change (P x && all_chars P (a +:+ b)
          = P x && all_chars P a && all_chars P b).
  rewrite IH. by destruct (P x).
Qed.

Lemma pretty_N_char_numeric (x : N) : numeric (pretty_N_char x) = true.
Proof. unfold pretty_N_char. by repeat case_match. Qed.

Lemma pretty_N_go_numeric (x : N) : ∀ s,
  all_chars numeric s = true → all_chars numeric (pretty_N_go x s) = true.
Proof.
  induction (N.lt_wf_0 x) as [x _ IH]; intros s Hs.
  assert (x = 0 ∨ 0 < x)%N as [->|?] by lia.
  - by rewrite pretty_N_go_0.
  - rewrite pretty_N_go_step by done. apply IH.
    { by apply N.div_lt. }
    simpl. by rewrite pretty_N_char_numeric.
Qed.

Lemma pretty_N_numeric (x : N) : all_chars numeric (pretty x) = true.
Proof.
  unfold pretty, pretty_N. case_decide; [done|].
  by apply pretty_N_go_numeric.
Qed.

(** [str(n)] is made of digits and at most a sign. *)
Lemma str_int_numeric (n : Z) : all_chars numeric (str_int n) = true.
Proof.
  unfold str_int, pretty, pretty_Z. destruct n as [|x|x]; [done|..].
  - apply (pretty_N_numeric (N.pos x)).
  - change (numeric "-" && all_chars numeric (pretty x) = true).
    simpl. apply (pretty_N_numeric (N.pos x)).
Qed.

(** Two texts made of numbers and a separator are equal only when the
    numbers and the rests are. *)
Lemma numeric_split (x : ascii) (a a' r r' : string) :
  numeric x = false →
  all_chars numeric a = true → all_chars numeric a' = true →
  a +:+ String x r = a' +:+ String x r' →
  a = a' ∧ r = r'.
Proof.
  intros Hx. revert a'.
  induction a as [|c a IH]; intros [|c' a'] Ha Ha'.
  - by intros [= ->].
  - intros [= <- _]. simpl in Ha'. by rewrite Hx in Ha'.
  - intros [= -> _]. simpl in Ha. by rewrite Hx in Ha.
  - intros [= -> H]. simpl in Ha, Ha'.
    apply andb_prop in Ha as [_ Ha]. apply andb_prop in Ha' as [_ Ha'].
    destruct (IH a' Ha Ha' H) as [-> ->]. done.
Qed.

(** The names of test files tell the counters and the seconds apart. *)
Lemma test_file_name_inj (c n c' n' : Z) :
  test_file_name c n = test_file_name c' n' → c = c' ∧ n = n'.
Proof.
  unfold test_file_name. intros [= H].
  apply numeric_split in H as [Hc H]; [|done|apply str_int_numeric..].
  apply numeric_split in H as [Hn _]; [|done|apply str_int_numeric..].
  split; by apply pretty_Z_inj.
Qed.

(** A test file is a task of the input directory. *)
Lemma test_file_task (c n : Z) :
  is_task (test_file_path c n)
  ∧ PathLib.parent (test_file_path c n) = Config.INPUT_DIR.
Proof.
  split; [|done]. unfold is_task, PathLib.suffix, test_file_path.
  change (PathLib.name ["input"; test_file_name c n])
    with (test_file_name c n).
  unfold test_file_name, PathLib.name_suffix.
  rewrite <- !str_app_assoc. rewrite rsplit_dot_last by done.
  rewrite !str_app_assoc. done.
Qed.

Lemma create_test_file_inv counter now w r w1 :
  FileCreator.create_test_file counter now w = (r, w1) →
  let p := test_file_path counter now in
  let c := test_file_content counter in
  (∃ e, r = Raise e ∧ mkdir Config.INPUT_DIR w = (Raise e, w1))
  ∨ (∃ w0, mkdir Config.INPUT_DIR w = (Ret tt, w0)
       ∧ ((r = Ret None ∧ w1 = w0 ∧ is_Some (write_error (files w0) p))
          ∨ (r = Ret (Some p)
             ∧ write_error (files w0) p = None
             ∧ files w1 = <[p := written_node (files w0) p c]> (files w0)
             ∧ writes w1 = writes w0 ++ [(p, c)]))).
Proof.
  unfold FileCreator.create_test_file, bind, try_except.
  destruct (mkdir Config.INPUT_DIR w) as [[[]|e] w0] eqn:Hmk.
  2:{ intros [= <- <-]. left. eauto. }
  fold (test_file_path counter now). fold (test_file_content counter).
  change (PathLib.joinpath Config.INPUT_DIR
            ("test_" +:+ str_int counter +:+ "_" +:+ str_int now
               +:+ Config.FILE_EXTENSION))
    with (test_file_path counter now).
  change (Config.FILE_CONTENT +:+ "-" +:+ str_int counter)
    with (test_file_content counter).
  destruct (write_text (test_file_path counter now)
              (test_file_content counter) w0) as [[[]|e] w2] eqn:Hwr;
    apply write_text_inv in Hwr
      as [(e' & He' & _ & -> & Hb)|(He' & Hfree & Hf & Hw)];
    try discriminate He';
    intros [= <- <-]; right; exists w0; (split; [done|]).
  - right. eauto.
  - left. eauto.
Qed.

(** X19: [create_test_file] raises only what making the input
    directory raises; once the directory is there it returns, with [None]
    and nothing written when the file cannot be written, and otherwise
    with the path [input/test_<counter>_<seconds>.txt], which is a task
    of the input directory and now holds [test-content-<counter>]; that
    is the only write, and no other path is changed but the input
    directory when it was missing. *)
Theorem create_test_file_result counter now w r w1 :
  FileCreator.create_test_file counter now w = (r, w1) →
  let p := test_file_path counter now in
  let c := test_file_content counter in
  (∃ e, r = Raise e ∧ mkdir Config.INPUT_DIR w = (Raise e, w1))
  ∨ (r = Ret None ∧ writes w1 = writes w
     ∧ files w1 !! p = files w !! p
     ∧ is_Some (write_error (files w1) p))
  ∨ (r = Ret (Some p)
     ∧ is_task p ∧ PathLib.parent p = Config.INPUT_DIR
     ∧ (∃ rd wr, files w1 !! p = Some (File c rd wr))
     ∧ writes w1 = writes w ++ [(p, c)]
     ∧ ∀ q, q ≠ p → q ≠ Config.INPUT_DIR →
            files w1 !! q = files w !! q).
Proof.
  intros Hrun p c.
  apply create_test_file_inv in Hrun
    as [?|(w0 & Hmk & [(-> & -> & Hb)|(-> & Hfree & Hf & Hw)])];
    [by left|right; left|right; right];
    apply mkdir_inv in Hmk as [Hw0 Hmk].
  - assert (∀ q, q ≠ Config.INPUT_DIR → files w0 !! q = files w !! q)
      as Hframe.
    { intros q Hq.
      destruct Hmk as [(? & ? & _)|[(_ & ->)|(_ & _ & ->)]]; [done..|].
      by rewrite lookup_insert_ne. }
    split_and!; [done..| |done]. by apply Hframe.
  - destruct (test_file_task counter now) as [Htask Hparent].
    destruct (written_node_file (files w0) p c) as (rd & wr & Hn).
    split_and!; [done..| | |].
    + exists rd, wr. fold p c in Hf. by rewrite Hf, lookup_insert_eq, Hn.
    + fold p c in Hw. by rewrite Hw, Hw0.
    + intros q Hq1 Hq2. fold p c in Hf. rewrite Hf.
      rewrite lookup_insert_ne by done.
      destruct Hmk as [(? & ? & _)|[(_ & ->)|(_ & _ & ->)]]; [done..|].
      by rewrite lookup_insert_ne.
Qed.

Lemma create_test_file_result_witness :
  let r := FileCreator.create_test_file 7 1700000000
             (sample_world sample_files) in
  r.1 = Ret (Some ["input"; "test_7_1700000000.txt"])
  ∧ files r.2 !! ["input"; "test_7_1700000000.txt"]
    = Some (File "test-content-7" true true).
Proof.
  intros r.
  destruct r as [r0 w1] eqn:Hr.
  destruct (create_test_file_result 7 1700000000
              (sample_world sample_files) r0 w1 Hr)
    as [(e & -> & _)|[(-> & _)|(-> & _)]];
    vm_compute in Hr; [discriminate..|].
  injection Hr as <-. vm_compute. split; reflexivity.
Defined.

(** X20: two calls of [create_test_file] return the same path only when
    they were given the same counter in the same second: files of
    different counters, or of different seconds, never overwrite each
    other. *)
Theorem test_files_are_distinct c n c' n' w w' p w1 w1' :
  FileCreator.create_test_file c n w = (Ret (Some p), w1) →
  FileCreator.create_test_file c' n' w' = (Ret (Some p), w1') →
  c = c' ∧ n = n'.
Proof.
  intros H1 H2.
  apply create_test_file_inv in H1
    as [(? & ? & _)|(? & _ & [(? & _)|(Hp & _)])]; [done..|].
  apply create_test_file_inv in H2
    as [(? & ? & _)|(? & _ & [(? & _)|(Hp' & _)])]; [done..|].
  assert (test_file_path c n = test_file_path c' n') as E by congruence.
  apply (f_equal PathLib.name) in E.
  change (test_file_name c n = test_file_name c' n') in E.
  by apply test_file_name_inj.
Qed.

Lemma test_files_are_distinct_witness :
  (7 = 7 ∧ 1700000000 = 1700000000)%Z.
Proof.
  apply (test_files_are_distinct 7 1700000000 7 1700000000
           (sample_world sample_files) (sample_world stale_record)
           ["input"; "test_7_1700000000.txt"]
           (FileCreator.create_test_file 7 1700000000
              (sample_world sample_files)).2
           (FileCreator.create_test_file 7 1700000000
              (sample_world stale_record)).2).
  - vm_compute. reflexivity.
  - vm_compute. reflexivity.
Defined.

Lemma upper_app (a b : string) :
  Str.upper (a +:+ b) = Str.upper a +:+ Str.upper b.
Proof.
  induction a as [|x a IH]; [done|].
  change (String (Str.upper_char x) (Str.upper (a +:+ b))
          = String (Str.upper_char x) (Str.upper a +:+ Str.upper b)).
  by rewrite IH.
Qed.

Lemma upper_char_numeric (c : ascii) :
  numeric c = true → Str.upper_char c = c.
Proof.
  unfold numeric, Str.upper_char. intros H.
  destruct (Ascii.eqb c "-") eqn:E;
    [apply Ascii.eqb_eq in E; by subst c|]. simpl in H.
  apply andb_prop in H as [_ H]. apply Nat.leb_le in H.
  destruct (Nat.leb_spec 97 (Str.ord c)); [lia|done].
Qed.

(** Upper-casing leaves a number as it is. *)
Lemma upper_numeric (s : string) :
  all_chars numeric s = true → Str.upper s = s.
Proof.
  induction s as [|c s IH]; [done|]. simpl.
  intros [Hc Hs]%andb_prop. by rewrite upper_char_numeric, IH.
Qed.

Lemma mkdir_existing d b w : files w !! d = Some (Dir b) → mkdir d w = (Ret tt, w).
Proof. unfold mkdir. by intros ->. Qed.

(** In an input directory that can be changed, [create_test_file] makes
    the file when nothing is in its way. *)
Lemma create_test_file_ok counter now w :
  files w !! Config.INPUT_DIR = Some (Dir true) →
  write_error (files w) (test_file_path counter now) = None →
  ∃ w1,
    FileCreator.create_test_file counter now w
    = (Ret (Some (test_file_path counter now)), w1)
    ∧ files w1
      = <[test_file_path counter now
          := written_node (files w) (test_file_path counter now)
               (test_file_content counter)]> (files w)
    ∧ writes w1
      = writes w ++ [(test_file_path counter now, test_file_content counter)].
Proof.
  intros Hin Hfree.
  destruct (FileCreator.create_test_file counter now w) as [r w1] eqn:Hrun.
  pose proof (mkdir_existing _ _ _ Hin) as Hmk.
  apply create_test_file_inv in Hrun
    as [(e & _ & He)|(w0 & Hmk0 & [(_ & _ & Hb)|(-> & _ & Hf & Hw)])].
  - congruence.
  - assert (w0 = w) as -> by congruence.
    rewrite Hfree in Hb. by destruct Hb.
  - assert (w0 = w) as -> by congruence. eauto.
Qed.

(** X21: from the producer to the output directory.  In an input
    directory that can be changed and holds nothing under the names
    involved, with the output directory there or ready to be made,
    [create_test_file] makes a file that the watcher puts in the queue and
    that [process_file] then processes with success: the file ends up in
    the output directory with its content [test-content-<counter>], next
    to the copy [TEST-CONTENT-<counter>], and nothing of it is left in the
    input directory. *)
Theorem created_file_is_processed counter now w :
  let p := test_file_path counter now in
  files w !! Config.INPUT_DIR = Some (Dir true) →
  files w !! p = None →
  files w !! meta_path_of p = None →
  files w !! processed_path_of p = None →
  files w !! Config.PROCESSED_DIR = Some (Dir true)
  ∨ (files w !! Config.PROCESSED_DIR = None
     ∧ create_error (files w) Config.PROCESSED_DIR = None) →
  (∀ b, files w !! relocated p ≠ Some (Dir b)) →
  (∀ b, files w !! relocated (processed_path_of p) ≠ Some (Dir b)) →
  ∃ w1 w2 rd2 wr2,
    FileCreator.create_test_file counter now w = (Ret (Some p), w1)
    ∧ (∀ q : queue,
         FileWatcher.on_created (FileWatcher.Event false p) q
         = q ++ [Some p])
    ∧ FileProcessor.process_file p w1 = (Ret true, w2)
    ∧ files w2 !! relocated p
      = Some (File ("test-content-" +:+ str_int counter) true true)
    ∧ files w2 !! relocated (processed_path_of p)
      = Some (File ("TEST-CONTENT-" +:+ str_int counter) rd2 wr2)
    ∧ files w2 !! p = None
    ∧ files w2 !! meta_path_of p = None
    ∧ files w2 !! processed_path_of p = None.
Proof.
  intros p Hin Hp Hmp Hpp Hout Hd1 Hd2.
  destruct (test_file_task counter now) as [Htask Hparent]. fold p in Htask, Hparent.
  destruct (task_paths p Htask)
    as (Hmp_p & Hpp_p & Hmp_pp & Hmp_r & Hmp_rr & Hpp_r & Hp_rr & Hr_rr).
  assert (create_error (files w) p = None) as Hcreate
    by (apply create_error_None; by rewrite Hparent).
  destruct (create_test_file_ok counter now w) as (w1 & Hrun & Hf & Hw);
    [done|by unfold write_error; fold p; rewrite Hp|].
  fold p in Hrun, Hf, Hw.
  assert (written_node (files w) p (test_file_content counter)
          = File (test_file_content counter) true true) as Hnode
    by (unfold written_node; by rewrite Hp).
  rewrite Hnode in Hf.
  assert (∀ q, q ≠ p → files w1 !! q = files w !! q) as Hframe
    by (intros q Hq; by rewrite Hf, lookup_insert_ne).
  assert (p ≠ Config.INPUT_DIR ∧ p ≠ Config.PROCESSED_DIR
          ∧ p ≠ PathLib.parent Config.PROCESSED_DIR
          ∧ relocated p ≠ p ∧ relocated (processed_path_of p) ≠ p)
    as (Hp_in & Hp_out & Hp_root & Hr_p & Hrr_p) by done.
  assert (PathLib.parent (meta_path_of p) = Config.INPUT_DIR
          ∧ PathLib.parent (processed_path_of p) = Config.INPUT_DIR)
    as [Hpar_mp Hpar_pp].
  { unfold meta_path_of, processed_path_of.
    by rewrite !parent_joinpath, Hparent. }
  destruct (readable_task_run p (test_file_content counter) true w1)
    as (w2 & rd2 & wr2 & Hrun2 & Hr & Hrr & Hmp2 & Hp2 & Hpp2).
  - done.
  - done.
  - by rewrite Hf, lookup_insert_eq.
  - by rewrite Hframe.
  - unfold write_error, create_error.
    by rewrite !Hframe, Hmp, Hpar_mp, Hin by (done || congruence).
  - unfold write_error, create_error.
    by rewrite !Hframe, Hpp, Hpar_pp, Hin by (done || congruence).
  - unfold create_error in *. by rewrite !Hframe by done.
  - intros b. by rewrite Hframe.
  - intros b. by rewrite Hframe.
  - exists w1, w2, rd2, wr2. split_and!; try done.
    + intros q. unfold FileWatcher.on_created. simpl.
      by destruct (String.eqb_spec (PathLib.suffix p) Config.FILE_EXTENSION).
    + rewrite Hrr. do 2 f_equal. unfold test_file_content.
      rewrite upper_app, (upper_numeric (str_int counter)); [done|].
      apply str_int_numeric.
Qed.

Lemma created_file_is_processed_witness :
  let p := ["input"; "test_7_1700000000.txt"] in
  let w := sample_world sample_files in
  ∃ w1 w2 rd2 wr2,
    FileCreator.create_test_file 7 1700000000 w = (Ret (Some p), w1)
    ∧ (∀ q : queue,
         FileWatcher.on_created (FileWatcher.Event false p) q
         = q ++ [Some p])
    ∧ FileProcessor.process_file p w1 = (Ret true, w2)
    ∧ files w2 !! ["processed"; "test_7_1700000000.txt"]
      = Some (File "test-content-7" true true)
    ∧ files w2 !! ["processed"; "test_7_1700000000.processed"]
      = Some (File "TEST-CONTENT-7" rd2 wr2)
    ∧ files w2 !! p = None
    ∧ files w2 !! ["input"; "test_7_1700000000.meta"] = None
    ∧ files w2 !! ["input"; "test_7_1700000000.processed"] = None.
Proof.
  intros p w.
  apply (created_file_is_processed 7 1700000000 w).
  - vm_compute. reflexivity.
  - vm_compute. reflexivity.
  - vm_compute. reflexivity.
  - vm_compute. reflexivity.
  - right. split; vm_compute; reflexivity.
  - intros b. vm_compute. discriminate.
  - intros b. vm_compute. discriminate.
Defined.

Lemma counters_S (first : Z) (n : nat) :
  counters first (S n) = first :: counters (first + 1) n.
Proof.
  unfold counters. simpl. f_equal; [f_equal; lia|].
  rewrite <- fmap_S_seq, <- list_fmap_compose.
  apply list_fmap_ext. intros _ i _. simpl. lia.
Qed.

Lemma test_file_path_ne (i j ti tj : Z) :
  i ≠ j → test_file_path i ti ≠ test_file_path j tj.
Proof.
  intros Hij E. apply (f_equal PathLib.name) in E.
  change (test_file_name i ti = test_file_name j tj) in E.
  by apply test_file_name_inj in E as [? _].
Qed.

Lemma create_from_ok (time_at : Z → Z) (n : nat) : ∀ (first : Z) w,
  files w !! Config.INPUT_DIR = Some (Dir true) →
  (∀ i, (first ≤ i < first + Z.of_nat n)%Z →
        write_error (files w) (test_file_path i (time_at i)) = None) →
  ∃ w',
    TestScript.create_from first n time_at w = (Ret tt, w')
    ∧ (∀ i, (first ≤ i < first + Z.of_nat n)%Z →
            ∃ rd wr, files w' !! test_file_path i (time_at i)
                     = Some (File (test_file_content i) rd wr))
    ∧ writes w'
      = writes w
          ++ ((fun i => (test_file_path i (time_at i), test_file_content i))
                <$> counters first n)
    ∧ ∀ q, (∀ i, (first ≤ i < first + Z.of_nat n)%Z →
                 q ≠ test_file_path i (time_at i)) →
           files w' !! q = files w !! q.
Proof.
  induction n as [|n IH]; intros first w Hin Hfree.
  - exists w. split_and!; [done|intros; lia|by rewrite app_nil_r|done].
  - destruct (create_test_file_ok first (time_at first) w)
      as (w1 & Hrun & Hf & Hw); [done|apply Hfree; lia|].
    destruct (written_node_file (files w)
                (test_file_path first (time_at first))
                (test_file_content first)) as (rd & wr & Hn).
    rewrite Hn in Hf.
    destruct (IH (first + 1)%Z w1) as (w' & Hrest & Hall & Hw' & Hframe).
    { by rewrite Hf, lookup_insert_ne. }
    { intros i Hi. rewrite Hf.
      rewrite write_error_insert_ne;
        [apply Hfree; lia|apply test_file_path_ne; lia|done]. }
    exists w'. split_and!.
    + change (TestScript.create_from first (S n) time_at w)
        with (bind (FileCreator.create_test_file first (time_at first))
                (fun _ => TestScript.create_from (first + 1) n time_at) w).
      unfold bind. by rewrite Hrun.
    + intros i Hi. destruct (decide (i = first)) as [->|Hne].
      * exists rd, wr. rewrite Hframe.
        -- by rewrite Hf, lookup_insert_eq.
        -- intros j Hj. apply test_file_path_ne. lia.
      * apply Hall. lia.
    + rewrite Hw', Hw, counters_S, fmap_cons, <- app_assoc. done.
    + intros q Hq. rewrite Hframe by (intros i Hi; apply Hq; lia).
      rewrite Hf, lookup_insert_ne; [done|].
      apply not_eq_sym, Hq. lia.
Qed.

(** X22: [create_multiple_test_files(count, interval)], for an interval
    other than 0, makes the files one after the other: in an input
    directory that can be changed, when no file of the run is in the way
    of a write, it returns, and afterwards each counter from 1 to [count]
    has its own file with its own content, none overwritten by a later
    one; the files were written in the order of the counters, and
    nothing else has changed. *)
Theorem create_multiple_test_files_creates count (time_at : Z → Z) w :
  files w !! Config.INPUT_DIR = Some (Dir true) →
  (∀ i, (1 ≤ i ≤ count)%Z →
        write_error (files w) (test_file_path i (time_at i)) = None) →
  ∃ w',
    TestScript.create_multiple_test_files count time_at w = (Ret tt, w')
    ∧ (∀ i, (1 ≤ i ≤ count)%Z →
            ∃ rd wr, files w' !! test_file_path i (time_at i)
                     = Some (File (test_file_content i) rd wr))
    ∧ writes w'
      = writes w
          ++ ((fun i => (test_file_path i (time_at i), test_file_content i))
                <$> counters 1 (Z.to_nat count))
    ∧ ∀ q, (∀ i, (1 ≤ i ≤ count)%Z → q ≠ test_file_path i (time_at i)) →
           files w' !! q = files w !! q.
Proof.
  intros Hin Hfree. unfold TestScript.create_multiple_test_files.
  destruct (create_from_ok time_at (Z.to_nat count) 1 w Hin)
    as (w' & Hrun & Hall & Hw & Hframe).
  { intros i Hi. apply Hfree. lia. }
  exists w'. split_and!; [done| |done|].
  - intros i Hi. apply Hall. lia.
  - intros q Hq. apply Hframe. intros i Hi. apply Hq. lia.
Qed.

Lemma create_multiple_test_files_creates_witness :
  let time_at := fun i : Z => (1700000000 + 2 * i)%Z in
  ∃ w',
    TestScript.create_multiple_test_files 2 time_at
      (sample_world sample_files) = (Ret tt, w')
    ∧ files w' !! ["input"; "test_1_1700000002.txt"]
      = Some (File "test-content-1" true true)
    ∧ files w' !! ["input"; "test_2_1700000004.txt"]
      = Some (File "test-content-2" true true)
    ∧ writes w'
      = [(["input"; "test_1_1700000002.txt"], "test-content-1");
         (["input"; "test_2_1700000004.txt"], "test-content-2")].
Proof.
  intros time_at.
  destruct (create_multiple_test_files_creates 2 time_at
              (sample_world sample_files))
    as (w' & Hrun & _ & Hw & _).
  - vm_compute. reflexivity.
  - intros i Hi.
    assert (i = 1 ∨ i = 2)%Z as [-> | ->] by lia; vm_compute; reflexivity.
  - exists w'. split; [exact Hrun|].
    vm_compute in Hrun. injection Hrun as <-.
    split_and!; vm_compute; reflexivity.
Defined.

(** ** A batch of files *)

Lemma str_length_app (a b : string) :
  String.length (a +:+ b) = String.length a + String.length b.
Proof.
  induction a as [|x a IH]; [done|].
  change (S (String.length (a +:+ b))
          = S (String.length a + String.length b)). by rewrite IH.
Qed.

Lemma str_app_inv_tail (a b t : string) : a +:+ t = b +:+ t → a = b.
Proof.
  revert b. induction a as [|x a IH]; intros [|y b] E; [done|..].
  - apply (f_equal String.length) in E.
    rewrite !str_length_app in E. simpl in E. lia.
  - apply (f_equal String.length) in E.
    rewrite !str_length_app in E. simpl in E. lia.
  - injection E as -> E. f_equal. by apply IH.
Qed.

Lemma task_name p :
  is_task p → PathLib.name p = PathLib.name_stem (PathLib.name p) +:+ ".txt".
Proof.
  intros Htask. rewrite (name_stem_suffix (PathLib.name p)) at 1.
  f_equal. exact Htask.
Qed.

(** The names of the files of two different tasks are all different. *)
Lemma task_names p p0 :
  is_task p → is_task p0 → PathLib.name p ≠ PathLib.name p0 →
  let n := PathLib.name p in
  let m := PathLib.name (meta_path_of p) in
  let k := PathLib.name (processed_path_of p) in
  let n0 := PathLib.name p0 in
  let m0 := PathLib.name (meta_path_of p0) in
  let k0 := PathLib.name (processed_path_of p0) in
  (n ≠ n0 ∧ n ≠ m0 ∧ n ≠ k0)
  ∧ (m ≠ n0 ∧ m ≠ m0 ∧ m ≠ k0)
  ∧ (k ≠ n0 ∧ k ≠ m0 ∧ k ≠ k0).
Proof.
  intros Htask Htask0 Hne. simpl.
  unfold meta_path_of, processed_path_of. rewrite !name_joinpath.
  pose proof (task_name p Htask) as En.
  pose proof (task_name p0 Htask0) as En0.
  set (s := PathLib.name_stem (PathLib.name p)) in *.
  set (s0 := PathLib.name_stem (PathLib.name p0)) in *.
  assert (s ≠ s0) as Hs by (intros E; apply Hne; congruence).
  assert (∀ (a b : string) (x y : string),
            PathLib.rsplit_dot x = None → PathLib.rsplit_dot y = None →
            x ≠ y → a +:+ String "." x ≠ b +:+ String "." y) as Hsuffix.
  { intros a b x y Hx Hy Hxy E.
    apply (f_equal PathLib.rsplit_dot) in E.
    rewrite !rsplit_dot_last in E by done. congruence. }
  rewrite En, En0.
  split_and!; try (by apply Hsuffix);
    intros E%str_app_inv_tail; done.
Qed.

(** The places of one task lie outside the footprint of another. *)
Lemma other_task_outside p p0 q :
  is_task p → is_task p0 →
  PathLib.parent p = Config.INPUT_DIR →
  PathLib.parent p0 = Config.INPUT_DIR →
  p ≠ p0 →
  q ∈ [p0; meta_path_of p0; processed_path_of p0; relocated p0;
       relocated (processed_path_of p0); Config.INPUT_DIR] →
  q ∉ [p; meta_path_of p; processed_path_of p; Config.PROCESSED_DIR;
       relocated p; relocated (processed_path_of p)].
Proof.
  intros Htask Htask0 Hparent Hparent0 Hne Hq Hx.
  assert (PathLib.name p ≠ PathLib.name p0) as Hn.
  { intros E. apply Hne.
    rewrite (path_parent_name p), (path_parent_name p0)
      by by apply task_suffix_truthy.
    congruence. }
  destruct (task_names p p0 Htask Htask0 Hn)
    as ((H1 & H2 & H3) & (H4 & H5 & H6) & (H7 & H8 & H9)).
  assert (∀ x : path, PathLib.parent x = Config.INPUT_DIR →
            Str.truthy (PathLib.name x) = true → length x = 2) as Hlen.
  { intros x Hx1 Hx2. rewrite (path_parent_name x Hx2), Hx1. done. }
  pose proof (Hlen p Hparent (task_suffix_truthy p Htask)) as Hl.
  pose proof (Hlen p0 Hparent0 (task_suffix_truthy p0 Htask0)) as Hl0.
  assert (∀ (x : path) (s : string),
            PathLib.parent x = Config.INPUT_DIR →
            length (PathLib.joinpath (PathLib.parent x) s) = 2) as Hlj.
  { intros x s ->. done. }
  pose proof (Hlj p (PathLib.name_stem (PathLib.name p) +:+ ".meta") Hparent)
    as Hlm.
  pose proof (Hlj p (PathLib.name_stem (PathLib.name p) +:+ ".processed")
                Hparent) as Hlk.
  pose proof (Hlj p0 (PathLib.name_stem (PathLib.name p0) +:+ ".meta")
                Hparent0) as Hlm0.
  pose proof (Hlj p0 (PathLib.name_stem (PathLib.name p0) +:+ ".processed")
                Hparent0) as Hlk0.
  fold (meta_path_of p) in Hlm. fold (processed_path_of p) in Hlk.
  fold (meta_path_of p0) in Hlm0. fold (processed_path_of p0) in Hlk0.
  assert (∀ x : path, length (relocated x) = 2) as Hlr by done.
  repeat (apply elem_of_cons in Hq as [->|Hq]);
    [..|by apply elem_of_nil in Hq];
    repeat (apply elem_of_cons in Hx as [Hx|Hx]);
    try (by apply elem_of_nil in Hx);
    first
      [ by (apply (f_equal PathLib.name) in Hx;
            rewrite ?relocated_name in Hx; congruence)
      | by (apply (f_equal length) in Hx;
            rewrite ?Hl, ?Hl0, ?Hlm, ?Hlk, ?Hlm0, ?Hlk0, ?Hlr in Hx)
      | discriminate Hx ].
Qed.

(** After a successful run in open directories the output directory can
    be changed. *)
Lemma run_output_dir p c w w' :
  open_dirs w → ready w p c →
  FileProcessor.process_file p w = (Ret true, w') →
  files w' !! Config.PROCESSED_DIR = Some (Dir true).
Proof.
  intros [Hin Hout] (Htask & Hparent & [wr0 Hp] & _) Hrun.
  destruct (task_paths p Htask)
    as (Hmp_p & Hpp_p & Hmp_pp & Hmp_r & Hmp_rr & Hpp_r & Hp_rr & Hr_rr).
  assert (Config.PROCESSED_DIR ∉
            [p; meta_path_of p; processed_path_of p; relocated p;
             relocated (processed_path_of p)]) as Hd.
  { intros Hx.
    assert (length p = 2) as Hl.
    { rewrite (path_parent_name p (task_suffix_truthy p Htask)), Hparent.
      done. }
    assert (length (meta_path_of p) = 2 ∧ length (processed_path_of p) = 2)
      as [Hlm Hlk].
    { unfold meta_path_of, processed_path_of. by rewrite Hparent. }
    repeat (apply elem_of_cons in Hx as [Hx|Hx]);
      try (by apply elem_of_nil in Hx);
      apply (f_equal length) in Hx; rewrite ?Hl, ?Hlm, ?Hlk in Hx; done. }
  assert (Config.PROCESSED_DIR ≠ p ∧ Config.PROCESSED_DIR ≠ meta_path_of p
          ∧ Config.PROCESSED_DIR ≠ processed_path_of p
          ∧ Config.PROCESSED_DIR ≠ relocated p
          ∧ Config.PROCESSED_DIR ≠ relocated (processed_path_of p))
    as (Hd1 & Hd2 & Hd3 & Hd4 & Hd5).
  { split_and!; intros E; apply Hd; rewrite <- E;
      repeat (first [apply list_elem_of_here|apply list_elem_of_further]). }
  pose proof Hrun as (b & l & [= <-] & Hw & Hsum)%process_file_inv.
  inversion Hsum as [| |b m' l' _ _ Hsteps]; subst.
  unfold touched in Hsteps. rewrite Hp in Hsteps.
  inversion Hsteps
    as [| | | |d1 c' wr m3 l3 m'' Hd1' Hfree m1 Hp1 Hfree2 m2 Hu Hrel]; subst.
  destruct (task_before_relocation p _ d1 c' wr m3 l3 Htask Hp1 Hu)
    as (Hp0 & Hp3 & (rd2 & wr2 & Hpp3) & _ & _).
  assert (m3 !! Config.PROCESSED_DIR = files w !! Config.PROCESSED_DIR)
    as Hm3.
  { rewrite (updated_lookup_ne _ _ _ _ _ _ _ Hu) by done.
    subst m2 m1. by rewrite !lookup_insert_ne. }
  pose proof Hrel as (w3 & w4 & Hf3 & Hf4 & Hmove).
  assert (∃ b, files w4 !! Config.PROCESSED_DIR = Some (Dir b))
    as [b Hb].
  { eapply (move_ret_output_dir p (processed_path_of p)); [| | | |done].
    - by rewrite Hf3.
    - by rewrite Hf3.
    - done.
    - done. }
  destruct (relocation_task p m3 _ _ _ _ _ _ _ _ Htask Hp3 Hpp3 Hrel)
    as (m0 & Hm0 & [(e & ? & _)|(_ & Hm')]); [done|].
  rewrite Hf4 in Hb. rewrite Hm' in Hb |- *.
  rewrite lookup_delete_ne, lookup_insert_ne, lookup_delete_ne,
    lookup_insert_ne, lookup_delete_ne in Hb |- * by done.
  destruct Hm0 as [->|[_ ->]]; [|by rewrite lookup_insert_eq].
  rewrite Hm3 in Hb |- *.
  destruct Hout as [?|[Hnone _]]; [done|congruence].
Qed.

Lemma input_dir_outside p :
  is_task p → PathLib.parent p = Config.INPUT_DIR →
  Config.INPUT_DIR
  ∉ [p; meta_path_of p; processed_path_of p; Config.PROCESSED_DIR;
     relocated p; relocated (processed_path_of p)].
Proof.
  intros Htask Hparent Hx.
  assert (length p = 2) as Hl.
  { rewrite (path_parent_name p (task_suffix_truthy p Htask)), Hparent.
    done. }
  assert (length (meta_path_of p) = 2 ∧ length (processed_path_of p) = 2)
    as [Hlm Hlk].
  { unfold meta_path_of, processed_path_of. by rewrite Hparent. }
  repeat (apply elem_of_cons in Hx as [Hx|Hx]);
    try (by apply elem_of_nil in Hx);
    first [discriminate Hx
          |apply (f_equal length) in Hx; rewrite ?Hl, ?Hlm, ?Hlk in Hx; done].
Qed.

(** A task that is ready is delivered by a run, and the directories stay
    open. *)
Lemma ready_run p c w :
  open_dirs w → ready w p c →
  ∃ w', FileProcessor.process_file p w = (Ret true, w')
        ∧ delivered w' p c ∧ open_dirs w'.
Proof.
  intros Hopen Hready.
  pose proof Hopen as [Hin Hout].
  pose proof Hready as (Htask & Hparent & [wr Hp] & Hmp & Hpp & Hd1 & Hd2).
  destruct (readable_task_run p c wr w)
    as (w' & rd2 & wr2 & Hrun & Hr & Hrr & Hmp' & Hp' & Hpp'); [done..|].
  exists w'. split; [done|]. split.
  - split_and!; eauto.
  - split; [|left; by eapply run_output_dir].
    change w' with ((Ret true, w').2). rewrite <- Hrun.
    rewrite run_frame; [done..|]. by apply input_dir_outside.
Qed.

(** A run on one task leaves another task as it is, ready or delivered. *)
Lemma other_task_kept p p0 c0 w :
  is_task p → PathLib.parent p = Config.INPUT_DIR →
  is_task p0 → PathLib.parent p0 = Config.INPUT_DIR →
  p ≠ p0 →
  let w' := (FileProcessor.process_file p w).2 in
  (ready w p0 c0 → ready w' p0 c0)
  ∧ (delivered w p0 c0 → delivered w' p0 c0).
Proof.
  intros Htask Hparent Htask0 Hparent0 Hne w'.
  assert (∀ q, q ∈ [p0; meta_path_of p0; processed_path_of p0; relocated p0;
                    relocated (processed_path_of p0); Config.INPUT_DIR] →
               files w' !! q = files w !! q) as Hframe.
  { intros q Hq. apply run_frame; [done|].
    by apply (other_task_outside p p0). }
  assert (files w' !! p0 = files w !! p0
          ∧ files w' !! meta_path_of p0 = files w !! meta_path_of p0
          ∧ files w' !! processed_path_of p0
            = files w !! processed_path_of p0
          ∧ files w' !! relocated p0 = files w !! relocated p0
          ∧ files w' !! relocated (processed_path_of p0)
            = files w !! relocated (processed_path_of p0)
          ∧ files w' !! Config.INPUT_DIR = files w !! Config.INPUT_DIR)
    as (E1 & E2 & E3 & E4 & E5 & E6).
  { split_and!; apply Hframe;
      repeat (first [apply list_elem_of_here|apply list_elem_of_further]). }
  assert (PathLib.parent (meta_path_of p0) = Config.INPUT_DIR
          ∧ PathLib.parent (processed_path_of p0) = Config.INPUT_DIR)
    as [Hpar_mp Hpar_pp].
  { unfold meta_path_of, processed_path_of.
    by rewrite !parent_joinpath, Hparent0. }
  split.
  - intros (_ & _ & Hp & Hmp & Hpp & Hd1 & Hd2).
    unfold ready, write_error, create_error in *.
    rewrite Hpar_mp in *. rewrite Hpar_pp in *.
    rewrite E1, E2, E3, E4, E5, E6. done.
  - unfold delivered. by rewrite E1, E2, E3, E4, E5.
Qed.

Lemma process_all_delivers (l : list (path * string)) :
  ∀ (d : list (path * string)) w,
    open_dirs w →
    NoDup (d ++ l).*1 →
    Forall (fun pc => ready w pc.1 pc.2) l →
    Forall (fun pc => is_task pc.1
                      ∧ PathLib.parent pc.1 = Config.INPUT_DIR
                      ∧ delivered w pc.1 pc.2) d →
    let w' := process_all l.*1 w in
    Forall (fun pc => delivered w' pc.1 pc.2) (d ++ l) ∧ open_dirs w'.
Proof.
  induction l as [|[p c] l IH]; intros d w Hopen Hnd Hready Hdone.
  - simpl. rewrite app_nil_r. split; [|done].
    eapply Forall_impl; [exact Hdone|]. by intros pc (_ & _ & ?).
  - apply Forall_cons in Hready as [Hp Hready]. simpl in Hp.
    pose proof Hp as (Htask & Hparent & _).
    destruct (ready_run p c w Hopen Hp) as (w1 & Hrun & Hdel & Hopen1).
    assert (w1 = (FileProcessor.process_file p w).2) as Ew1
      by by rewrite Hrun.
    rewrite fmap_app, fmap_cons in Hnd. simpl in Hnd.
    apply NoDup_app in Hnd as (Hnd_d & Hd_l & Hnd_l).
    apply NoDup_cons in Hnd_l as [Hp_l Hnd_l].
    rewrite fmap_cons. simpl.
    change (process_all (p :: l.*1) w)
      with (process_all l.*1 (FileProcessor.process_file p w).2).
    rewrite <- Ew1.
    replace (d ++ (p, c) :: l) with ((d ++ [(p, c)]) ++ l)
      by by rewrite <- app_assoc.
    apply IH.
    + done.
    + rewrite !fmap_app. simpl. rewrite <- app_assoc. simpl.
      apply NoDup_app. split_and!; [done| |by apply NoDup_cons].
      exact Hd_l.
    + apply Forall_forall. intros [p0 c0] Hin0. simpl.
      rewrite Forall_forall in Hready. specialize (Hready _ Hin0).
      simpl in Hready. pose proof Hready as (Htask0 & Hparent0 & _).
      rewrite Ew1. apply (other_task_kept p p0 c0 w); try done.
      intros ->. apply Hp_l. apply list_elem_of_fmap. by exists (p0, c0).
    + apply Forall_app. split; [|by apply Forall_singleton].
      apply Forall_forall. intros [p0 c0] Hin0. simpl.
      rewrite Forall_forall in Hdone.
      destruct (Hdone _ Hin0) as (Htask0 & Hparent0 & Hdel0).
      simpl in *. split_and!; [done..|].
      rewrite Ew1. apply (other_task_kept p p0 c0 w); try done.
      intros ->. apply (Hd_l p0).
      * apply list_elem_of_fmap. by exists (p0, c0).
      * apply list_elem_of_here.
Qed.

(** X23: a worker delivers a batch.  With the directories in place, a
    worker process that finds in the queue the paths of different tasks,
    each ready to be processed, and a shutdown signal behind
    them, leaves its loop with the queue empty and every task delivered:
    each file is in the output directory with its content, next to its
    upper-cased copy, and the input directory holds nothing of them any
    more.  No run disturbs the files of another task. *)
Theorem worker_delivers_batch (l : list (path * string)) w :
  open_dirs w →
  NoDup l.*1 →
  Forall (fun pc => ready w pc.1 pc.2) l →
  ∃ w',
    worker_process (S (length l)) ((Some <$> l.*1) ++ [None]) w
    = (Ret (FileProcessor.Exit, []), w')
    ∧ Forall (fun pc => delivered w' pc.1 pc.2) l.
Proof.
  intros Hopen Hnd Hready.
  exists (process_all l.*1 w). split.
  - apply worker_drains. rewrite length_fmap. lia.
  - by apply (process_all_delivers l [] w).
Qed.

Lemma worker_delivers_batch_witness :
  let w := sample_world
             (<[["input"; "b.txt"] := File "world" true true]> sample_files) in
  ∃ w',
    worker_process 3
      [Some ["input"; "a.txt"]; Some ["input"; "b.txt"]; None] w
    = (Ret (FileProcessor.Exit, []), w')
    ∧ delivered w' ["input"; "a.txt"] "hello"
    ∧ delivered w' ["input"; "b.txt"] "world".
Proof.
  intros w.
  destruct (worker_delivers_batch
              [(["input"; "a.txt"], "hello"); (["input"; "b.txt"], "world")]
              w) as (w' & Hrun & Hall).
  - split; [vm_compute; reflexivity|].
    right. split; vm_compute; reflexivity.
  - apply NoDup_cons. split.
    + intros H. apply list_elem_of_singleton in H. discriminate.
    + apply NoDup_singleton.
  - repeat apply Forall_cons_2; [..|apply Forall_nil_2];
      (split_and!;
       [reflexivity|reflexivity|eexists; vm_compute; reflexivity
       |vm_compute; reflexivity|vm_compute; reflexivity
       |intros b; vm_compute; discriminate
       |intros b; vm_compute; discriminate]).
  - exists w'. split; [exact Hrun|].
    apply Forall_cons in Hall as [H1 Hall].
    apply Forall_cons in Hall as [H2 _]. split; [exact H1|exact H2].
Defined.
